(** * Removable-storage scripts: a shallow embedding and its properties

    The development embeds the command-dispatch logic of four scripts of
    the repository:

    - [usb_tool.py]            (module [UsbTool]),
    - [secure-wipe-rich.py]    (module [SecureWipe]),
    - [current_python_scripts/wipe-rich.py] (module [WipeRich]),
    - [dcfldd-wrapper.py], a Bash script despite its name (module
      [Dcfldd]).

    Strings are byte strings (ASCII, or UTF-8 for the few non-ASCII
    messages); case mapping and the whitespace class act on ASCII.
    Everything the scripts ask of the operating system (the effective
    user id, which paths exist, what udev lists, how a child process
    ends) is read from an explicit [World] record; everything they do to
    it is recorded as a list of events, in program order. *)

From Stdlib Require Import ZArith List String Ascii Bool Lia.
From stdpp Require Import base gmap strings list pretty.

Open Scope string_scope.
Open Scope list_scope.
Open Scope Z_scope.

(* ================================================================== *)
(** * Python values, exceptions and a trace monad *)
(* ================================================================== *)

Module Py.

(** The exceptions that can leave the scripts.  [ArgumentTypeError] is
    raised by the [type=] converters and turned by argparse into
    [ArgparseError]. *)
Inductive exn : Type :=
| SystemExit (msg : string)          (* sys.exit("...") / raise SystemExit("...") *)
| SystemExitCode (code : Z)          (* sys.exit(n) *)
| ArgumentTypeError (msg : string)
| ArgparseError (msg : string)       (* parser.error(...) *)
| ArgumentError (msg : string)       (* raised by add_argument *)
| CalledProcessError (cmd : list string)
| TypeError (msg : string).

Definition result (A : Type) : Type := (exn + A)%type.

(** Exit status of the interpreter for a main function that ended with
    [r]: 0 on normal return, the code of [sys.exit(n)], 1 for
    [sys.exit(str)] and for any uncaught exception, 2 for an argparse
    error. *)
Definition exit_status {A : Type} (r : result A) : Z :=
  match r with
  | inr _ => 0
  | inl (SystemExitCode n) => n
  | inl (SystemExit _) => 1
  | inl (ArgparseError _) => 2
  | inl (ArgumentTypeError _) => 1
  | inl (ArgumentError _) => 1
  | inl (CalledProcessError _) => 1
  | inl (TypeError _) => 1
  end.

(** ** Writer-and-error monad: the events so far and how it ended. *)
Section Monad.
Context {E : Type}.

Definition M (A : Type) : Type := (list E * result A)%type.

Definition ret {A} (a : A) : M A := ([], inr a).
Definition raise {A} (e : exn) : M A := ([], inl e).
Definition emit (ev : E) : M unit := ([ev], inr tt).

Definition bind {A B} (m : M A) (k : A -> M B) : M B :=
  match m with
  | (t, inl e) => (t, inl e)
  | (t, inr a) => let (t', r) := k a in (t ++ t', r)
  end.

Definition trace {A} (m : M A) : list E := fst m.
Definition outcome {A} (m : M A) : result A := snd m.
End Monad.
Arguments M : clear implicits.

Declare Scope py_scope.
Delimit Scope py_scope with py.
Notation "x <- c1 ;; c2" := (bind c1 (fun x => c2))
  (at level 100, c1 at next level, right associativity) : py_scope.
Notation "c1 ;;; c2" := (bind c1 (fun _ => c2))
  (at level 100, right associativity) : py_scope.

(** ** Strings *)

Definition is_upper (c : ascii) : bool :=
  let n := nat_of_ascii c in (65 <=? n)%nat && (n <=? 90)%nat.
Definition is_lower (c : ascii) : bool :=
  let n := nat_of_ascii c in (97 <=? n)%nat && (n <=? 122)%nat.

Definition lower_char (c : ascii) : ascii :=
  if is_upper c then ascii_of_nat (nat_of_ascii c + 32) else c.
Definition upper_char (c : ascii) : ascii :=
  if is_lower c then ascii_of_nat (nat_of_ascii c - 32) else c.

(** [str.lower()] and [str.upper()]. *)
Fixpoint lower (s : string) : string :=
  match s with
  | EmptyString => EmptyString
  | String c s' => String (lower_char c) (lower s')
  end.
Fixpoint upper (s : string) : string :=
  match s with
  | EmptyString => EmptyString
  | String c s' => String (upper_char c) (upper s')
  end.

(** [s.startswith(p)]. *)
Definition startswith (s p : string) : bool := String.prefix p s.

(** Whitespace, as [str.strip()] and the regex class [\s] see it on
    ASCII: TAB, LF, VT, FF, CR, FS, GS, RS, US and the space. *)
Definition is_space (c : ascii) : bool :=
  let n := nat_of_ascii c in
  ((9 <=? n)%nat && (n <=? 13)%nat) || ((28 <=? n)%nat && (n <=? 32)%nat).

Fixpoint lstrip (s : string) : string :=
  match s with
  | String c s' => if is_space c then lstrip s' else s
  | EmptyString => EmptyString
  end.
Definition rstrip (s : string) : string :=
  String.rev (lstrip (String.rev s)).
Definition strip (s : string) : string := rstrip (lstrip s).

(** [os.path.basename]: what follows the last slash. *)
Fixpoint basename_from (acc s : string) : string :=
  match s with
  | EmptyString => acc
  | String c s' =>
      if Ascii.eqb c "/" then basename_from EmptyString s'
      else basename_from (acc +:+ String c EmptyString) s'
  end.
Definition basename (p : string) : string := basename_from EmptyString p.

(** Truthiness of an optional string ([None] and [""] are falsy). *)
Definition truthy (o : option string) : bool :=
  match o with
  | Some s => negb (String.eqb s "")
  | None => false
  end.

End Py.

Import Py.
Open Scope py_scope.

(* ================================================================== *)
(** * usb_tool.py *)
(* ================================================================== *)

Module UsbTool.

(** A disk as udev describes it: its node, its properties
    ([dev.get(...)]) and its sysfs attributes, already read as
    integers ([int(dev.attributes.get(...))]). *)
Record UdevDevice : Type := {
  device_node : string;
  properties : gmap string string;
  attributes : gmap string Z
}.

Record World : Type := {
  euid : Z;                                  (* os.geteuid() *)
  path_exists : string -> bool;              (* Path(p).exists() *)
  udev_disks : list UdevDevice;              (* subsystem="block", DEVTYPE="disk" *)
  proc_rc : list string -> Z;                (* return code of a child process *)
  proc_stdout : list string -> string        (* what it writes to stdout *)
}.

(** What the program does to the outside world. *)
Inductive event : Type :=
| EvStat (path : string)                     (* Path(device).exists() *)
| EvUdevList                                 (* CTX.list_devices(...) *)
| EvRun (cmd : list string)                  (* subprocess.run / check_output *)
| EvStdout (s : string)
| EvStderr (s : string).

Definition is_run (ev : event) : bool :=
  match ev with EvRun _ => true | _ => false end.

(** The dict built by [list_block_devices]. *)
Record BlockDev : Type := {
  name : string;
  model : string;
  size_bytes : Z;
  removable : bool;
  bus : string
}.

Inductive color : Type := red | green | yellow | cyan.

Definition palette (c : color) : string :=
  match c with
  | red => "31" | green => "32" | yellow => "33" | cyan => "36"
  end.

Definition ESC : string := String (ascii_of_nat 27) EmptyString.

(** [colored(msg, color=c)]. *)
Definition colored (msg : string) (c : color) : string :=
  ESC +:+ "[" +:+ palette c +:+ "m" +:+ msg +:+ ESC +:+ "[0m".

(** [colored(msg, c)] with the colour passed positionally: the
    parameter is keyword-only ([def colored(msg, *, color="red")]), so
    the call raises. *)
Definition colored_positional (msg : string) (c : color) : M event string :=
  raise (TypeError "colored() takes 1 positional argument but 2 were given").

Section WithWorld.
Variable w : World.

(** [sh(cmd)]: [subprocess.run(cmd, check=True)]. *)
Definition sh (cmd : list string) : M event unit :=
  emit (EvRun cmd) ;;;
  if proc_rc w cmd =? 0 then ret tt else raise (CalledProcessError cmd).

(** [subprocess.check_output(cmd).decode()]. *)
Definition check_output (cmd : list string) : M event string :=
  emit (EvRun cmd) ;;;
  if proc_rc w cmd =? 0 then ret (proc_stdout w cmd)
  else raise (CalledProcessError cmd).

Definition is_root : bool := euid w =? 0.

Definition block_dev_of (dev : UdevDevice) : BlockDev :=
  {| name := device_node dev;
     model := default "unknown" (properties dev !! "ID_MODEL");
     size_bytes := default 0 (attributes dev !! "size") * 512;
     removable := negb (default 0 (attributes dev !! "removable") =? 0);
     bus := default "?" (properties dev !! "ID_BUS") |}.

Definition is_optical (dev : UdevDevice) : bool :=
  match properties dev !! "ID_TYPE" with
  | Some t => String.eqb t "cd"
  | None => false
  end.

Definition block_devices : list BlockDev :=
  map block_dev_of (List.filter (fun dev => negb (is_optical dev)) (udev_disks w)).

Definition list_block_devices : M event (list BlockDev) :=
  emit EvUdevList ;;; ret block_devices.

End WithWorld.

(** ** Filesystem back-ends *)

(** An [FSBackend] instance: the three class attributes. *)
Record FSBackend : Type := {
  fs_name : string;
  mkfs_cmd : list string;
  repair_cmd : list string
}.

Definition FAT32Backend : FSBackend :=
  {| fs_name := "fat32";
     mkfs_cmd := ["mkfs.fat"; "-F"; "32"];
     repair_cmd := ["dosfsck"; "-a"] |}.

Definition EXT4Backend : FSBackend :=
  {| fs_name := "ext4";
     mkfs_cmd := ["mkfs.ext4"; "-F"];
     repair_cmd := ["e2fsck"; "-pf"] |}.

Definition NTFSBackend : FSBackend :=
  {| fs_name := "ntfs";
     mkfs_cmd := ["mkntfs"; "-Q"; "-F"];
     repair_cmd := ["ntfsfix"] |}.

(** [FS_TABLE = {b.name: b for b in (FAT32Backend(), EXT4Backend(),
    NTFSBackend())}]. *)
Definition FS_TABLE : gmap string FSBackend :=
  list_to_map
    (map (fun b => (fs_name b, b)) [FAT32Backend; EXT4Backend; NTFSBackend]).

(** [fs_backend(fs_name)]: the [KeyError] of the lookup becomes a
    [SystemExit]. *)
Definition fs_backend {E : Type} (fs : string) : M E FSBackend :=
  match FS_TABLE !! lower fs with
  | Some b => ret b
  | None => raise (SystemExit ("Unsupported filesystem '" +:+ fs +:+ "'"))
  end.

(** The argparse namespace of [build_cli().parse_args(argv)]. *)
Record Cli : Type := {
  cli_list : bool;
  cli_device : option string;
  cli_format : option string;
  cli_label : option string;
  cli_repair : bool;
  cli_scan_badblocks : bool;
  cli_force : bool
}.

Section Operations.
Variable w : World.

(** [FSBackend.format(part, label)]. *)
Definition format (b : FSBackend) (part : string) (label : option string)
  : M event unit :=
  let cmd :=
    mkfs_cmd b
    ++ (match label with None => [] | Some l => ["-n"; l] end)
    ++ [part] in
  sh w cmd.

(** [FSBackend.repair(part)]. *)
Definition repair (b : FSBackend) (part : string) : M event unit :=
  sh w (repair_cmd b ++ [part]).

Definition msg_not_exist (device : string) : string :=
  "Device " +:+ device +:+ " does not exist.".
Definition msg_not_dev : string :=
  "Specify a full block-device path, e.g. /dev/sdb.".
Definition msg_not_removable (device : string) : string :=
  colored (device +:+ " does not look like a removable drive. "
           +:+ "If you are really sure, add --force.") yellow.

(** [any(d["name"] == device and d["removable"] for d in devs)]. *)
Definition looks_removable (devs : list BlockDev) (device : string) : bool :=
  existsb (fun d => String.eqb (name d) device && removable d) devs.

Definition sanity_check (device : string) (force : bool) : M event unit :=
  emit (EvStat device) ;;;
  if negb (path_exists w device) then
    raise (SystemExit (msg_not_exist device))
  else if negb (startswith device "/dev/") then
    raise (SystemExit msg_not_dev)
  else
    devs <- list_block_devices w ;;
    if negb (looks_removable devs device) && negb force then
      raise (SystemExit (msg_not_removable device))
    else ret tt.

Definition create_single_partition (device fs : string) : M event string :=
  emit (EvStderr (colored "Re-initialising partition table…" cyan)) ;;;
  sh w ["parted"; "-s"; device; "mklabel"; "gpt"] ;;;
  sh w ["parted"; "-s"; device; "mkpart"; "primary"; fs; "1MiB"; "100%"] ;;;
  sh w ["partprobe"; device] ;;;
  ret (device +:+ "1").

Definition scan_badblocks (device : string) : M event unit :=
  banner <- colored_positional
              "Destructive *write* bad-blocks scan – this will erase data!" red ;;
  emit (EvStdout banner) ;;;
  sh w ["badblocks"; "-wsv"; device].

(** [json.dumps(devices, indent=2, default=str)] is kept symbolic:
    the listing is printed as one event that carries the names. *)
Definition json_dumps (devs : list BlockDev) : string :=
  "[" +:+ String.concat ", " (map name devs) +:+ "]".

(** [build_cli().parse_args(argv)], with the command line given as
    the options found on it: the only validation that can fail on
    such a record is [choices=FS_TABLE.keys()] of [--format]. *)
Definition parse_args (argv : Cli) : M event Cli :=
  match cli_format argv with
  | Some f =>
      if bool_decide (is_Some (FS_TABLE !! f)) then ret argv
      else raise (ArgparseError
                    ("argument --format: invalid choice: '" +:+ f +:+ "'"))
  | None => ret argv
  end.

Definition main (argv : Cli) : M event unit :=
  cli <- parse_args argv ;;
  if negb (is_root w) then
    raise (SystemExit "Run this script as root (sudo).")
  else if cli_list cli then
    devices <- list_block_devices w ;;
    emit (EvStdout (json_dumps devices))
  else if negb (truthy (cli_device cli)) then
    raise (SystemExit "No --device specified. See --help.")
  else
    let device := default "" (cli_device cli) in
    sanity_check device (cli_force cli) ;;;
    if truthy (cli_format cli) then
      let fmt := default "" (cli_format cli) in
      backend <- fs_backend fmt ;;
      target_part <- create_single_partition device fmt ;;
      format backend target_part (cli_label cli) ;;;
      msg <- colored_positional
               ("Formatted " +:+ target_part +:+ " as " +:+ upper fmt +:+ ".")
               green ;;
      emit (EvStdout msg)
    else if cli_repair cli then
      blkid_out <- check_output w
                     ["blkid"; "-o"; "value"; "-s"; "TYPE"; device] ;;
      backend <- fs_backend (strip blkid_out) ;;
      repair backend device ;;;
      msg <- colored_positional
               ("Repair finished on " +:+ device +:+ ".") green ;;
      emit (EvStdout msg)
    else if cli_scan_badblocks cli then
      scan_badblocks device
    else
      emit (EvStderr "Nothing to do. See --help.").

End Operations.

End UsbTool.

(* ================================================================== *)
(** * Python literals over the arithmetic alphabet *)
(* ================================================================== *)

(** [ast.parse(s, mode='eval')] and [ast.literal_eval] (CPython 3.7 and
    later), for the strings the size regex lets through: digits, the
    signs [+ - * /], parentheses and blanks.  Interpreter limits
    (nesting depth, the digit cap of integer conversion) are not
    modelled. *)
Module PyAst.

Inductive token : Type :=
| TNum (n : Z)
| TPlus | TMinus | TStar | TSlash | TDoubleStar | TDoubleSlash
| TLPar | TRPar.

Inductive unaryop : Type := UAdd | USub.
Inductive operator : Type := Add | Sub | Mult | Div | FloorDiv | Pow.
Inductive argkind : Type := Positional | Starred | DoubleStarred.

(** The nodes such a string can produce.  [Call] is what Python makes
    of [1(2)], [1( *2)] and [1()]; [EmptyTuple] is [()]. *)
Inductive expr : Type :=
| Constant (n : Z)
| UnaryOp (op : unaryop) (operand : expr)
| BinOp (left : expr) (op : operator) (right : expr)
| EmptyTuple
| Call0 (func : expr)
| Call1 (func : expr) (k : argkind) (a : expr).

Definition is_digit (c : ascii) : bool :=
  let n := nat_of_ascii c in (48 <=? n)%nat && (n <=? 57)%nat.
Definition digit_value (c : ascii) : Z := Z.of_nat (nat_of_ascii c - 48).
Definition is_blank (c : ascii) : bool :=
  Ascii.eqb c " " || Ascii.eqb c (ascii_of_nat 9).

(** A decimal integer literal: a run of digits that starts with [0]
    must consist of zeros only. *)
Definition number_of (ds : list ascii) : option Z :=
  match ds with
  | [] => None
  | c :: _ =>
      if Ascii.eqb c "0" && negb (forallb (Ascii.eqb "0") ds) then None
      else Some (fold_left (fun a d => 10 * a + digit_value d) ds 0)
  end.

(** Emit the pending digit run [cur] (kept reversed) before [rest]. *)
Definition flush (cur : list ascii) (rest : option (list token))
  : option (list token) :=
  match cur with
  | [] => rest
  | _ => n ← number_of (rev cur); ts ← rest; Some (TNum n :: ts)
  end.

Fixpoint lex (cur : list ascii) (s : string) : option (list token) :=
  match s with
  | EmptyString => flush cur (Some [])
  | String c s' =>
      if is_digit c then lex (c :: cur) s'
      else if is_blank c then flush cur (lex [] s')
      else if Ascii.eqb c "+" then flush cur (cons TPlus <$> lex [] s')
      else if Ascii.eqb c "-" then flush cur (cons TMinus <$> lex [] s')
      else if Ascii.eqb c "(" then flush cur (cons TLPar <$> lex [] s')
      else if Ascii.eqb c ")" then flush cur (cons TRPar <$> lex [] s')
      else if Ascii.eqb c "*" then
        match s' with
        | String c2 s'' =>
            if Ascii.eqb c2 "*" then flush cur (cons TDoubleStar <$> lex [] s'')
            else flush cur (cons TStar <$> lex [] s')
        | EmptyString => flush cur (cons TStar <$> lex [] s')
        end
      else if Ascii.eqb c "/" then
        match s' with
        | String c2 s'' =>
            if Ascii.eqb c2 "/" then flush cur (cons TDoubleSlash <$> lex [] s'')
            else flush cur (cons TSlash <$> lex [] s')
        | EmptyString => flush cur (cons TSlash <$> lex [] s')
        end
      else None
  end.

(** The tokens of an expression; a leading blank is an
    [IndentationError]. *)
Definition tokenize (s : string) : option (list token) :=
  match s with
  | String c _ => if is_blank c then None else lex [] s
  | EmptyString => None
  end.

(** Recursive descent along Python's grammar:
    sum, term, factor, power, primary (call trailers) and atom. *)
Fixpoint p_sum (fuel : nat) (ts : list token) : option (expr * list token) :=
  match fuel with
  | O => None
  | S f => '(l, rest) ← p_term f ts; p_sum_rest f l rest
  end
with p_sum_rest (fuel : nat) (l : expr) (ts : list token)
  : option (expr * list token) :=
  match fuel with
  | O => None
  | S f =>
      match ts with
      | TPlus :: ts' => '(r, rest) ← p_term f ts'; p_sum_rest f (BinOp l Add r) rest
      | TMinus :: ts' => '(r, rest) ← p_term f ts'; p_sum_rest f (BinOp l Sub r) rest
      | _ => Some (l, ts)
      end
  end
with p_term (fuel : nat) (ts : list token) : option (expr * list token) :=
  match fuel with
  | O => None
  | S f => '(l, rest) ← p_factor f ts; p_term_rest f l rest
  end
with p_term_rest (fuel : nat) (l : expr) (ts : list token)
  : option (expr * list token) :=
  match fuel with
  | O => None
  | S f =>
      match ts with
      | TStar :: ts' =>
          '(r, rest) ← p_factor f ts'; p_term_rest f (BinOp l Mult r) rest
      | TSlash :: ts' =>
          '(r, rest) ← p_factor f ts'; p_term_rest f (BinOp l Div r) rest
      | TDoubleSlash :: ts' =>
          '(r, rest) ← p_factor f ts'; p_term_rest f (BinOp l FloorDiv r) rest
      | _ => Some (l, ts)
      end
  end
with p_factor (fuel : nat) (ts : list token) : option (expr * list token) :=
  match fuel with
  | O => None
  | S f =>
      match ts with
      | TPlus :: ts' => '(e, rest) ← p_factor f ts'; Some (UnaryOp UAdd e, rest)
      | TMinus :: ts' => '(e, rest) ← p_factor f ts'; Some (UnaryOp USub e, rest)
      | _ => p_power f ts
      end
  end
with p_power (fuel : nat) (ts : list token) : option (expr * list token) :=
  match fuel with
  | O => None
  | S f =>
      '(b, rest) ← p_primary f ts;
      match rest with
      | TDoubleStar :: rest' =>
          '(e, rest'') ← p_factor f rest'; Some (BinOp b Pow e, rest'')
      | _ => Some (b, rest)
      end
  end
with p_primary (fuel : nat) (ts : list token) : option (expr * list token) :=
  match fuel with
  | O => None
  | S f => '(a, rest) ← p_atom f ts; p_trailers f a rest
  end
with p_trailers (fuel : nat) (a : expr) (ts : list token)
  : option (expr * list token) :=
  match fuel with
  | O => None
  | S f =>
      match ts with
      | TLPar :: TRPar :: rest => p_trailers f (Call0 a) rest
      | TLPar :: TStar :: rest =>
          '(e, r) ← p_sum f rest;
          match r with
          | TRPar :: r' => p_trailers f (Call1 a Starred e) r'
          | _ => None
          end
      | TLPar :: TDoubleStar :: rest =>
          '(e, r) ← p_sum f rest;
          match r with
          | TRPar :: r' => p_trailers f (Call1 a DoubleStarred e) r'
          | _ => None
          end
      | TLPar :: rest =>
          '(e, r) ← p_sum f rest;
          match r with
          | TRPar :: r' => p_trailers f (Call1 a Positional e) r'
          | _ => None
          end
      | _ => Some (a, ts)
      end
  end
with p_atom (fuel : nat) (ts : list token) : option (expr * list token) :=
  match fuel with
  | O => None
  | S f =>
      match ts with
      | TNum n :: rest => Some (Constant n, rest)
      | TLPar :: TRPar :: rest => Some (EmptyTuple, rest)
      | TLPar :: rest =>
          '(e, r) ← p_sum f rest;
          match r with
          | TRPar :: r' => Some (e, r')
          | _ => None
          end
      | _ => None
      end
  end.

(** Every token costs at most eight nested calls. *)
Definition parse_fuel (ts : list token) : nat := 8 * (length ts + 1).

(** [parse(s, mode='eval').body]; [None] stands for any exception. *)
Definition parse (s : string) : option expr :=
  ts ← tokenize s;
  '(e, rest) ← p_sum (parse_fuel ts) ts;
  match rest with [] => Some e | _ => None end.

(** ** Values *)

(** What [literal_eval] can hand back.  Only [PyInt] and
    [PyEmptyTuple] arise from the arithmetic alphabet; [PyBool] and
    [PyOther] (floats, strings, lists, ..., by their [repr]) are there
    for callers that evaluate arbitrary text. *)
Inductive pyvalue : Type :=
| PyInt (n : Z)
| PyBool (b : bool)
| PyEmptyTuple
| PyOther (repr : string).

(** [isinstance(v, int)]: [bool] is a subclass of [int]. *)
Definition isinstance_int (v : pyvalue) : bool :=
  match v with PyInt _ | PyBool _ => true | _ => false end.

(** The integer an int-like value counts as. *)
Definition int_of (v : pyvalue) : Z :=
  match v with
  | PyInt n => n
  | PyBool b => if b then 1 else 0
  | _ => 0
  end.

(** [str(v)], as an f-string renders it. *)
Definition py_str (v : pyvalue) : string :=
  match v with
  | PyInt n => pretty n
  | PyBool b => if b then "True" else "False"
  | PyEmptyTuple => "()"
  | PyOther r => r
  end.

(** [v * k] for an integer [k]: the empty tuple repeated is empty. *)
Definition py_mul (v : pyvalue) (k : Z) : pyvalue :=
  match v with
  | PyInt n => PyInt (n * k)
  | PyBool b => PyInt (int_of (PyBool b) * k)
  | PyEmptyTuple => PyEmptyTuple
  | PyOther r => PyOther r
  end.

(** ** [ast.literal_eval] on a node *)

Definition _convert_num (node : expr) : option Z :=
  match node with
  | Constant n => Some n
  | _ => None                      (* _raise_malformed_node *)
  end.

Definition _convert_signed_num (node : expr) : option Z :=
  match node with
  | UnaryOp UAdd operand => n ← _convert_num operand; Some n
  | UnaryOp USub operand => n ← _convert_num operand; Some (- n)
  | _ => _convert_num node
  end.

Definition _convert (node : expr) : option pyvalue :=
  match node with
  | Constant n => Some (PyInt n)
  | EmptyTuple => Some PyEmptyTuple
  | BinOp l Add r | BinOp l Sub r =>
      (* the sum is only taken when the right operand is complex,
         which no integer literal is *)
      _ ← _convert_signed_num l;
      _ ← _convert_num r;
      PyInt <$> _convert_signed_num node
  | _ => PyInt <$> _convert_signed_num node
  end.

Definition literal_eval (node : expr) : option pyvalue := _convert node.

(** [literal_eval(parse(s, mode='eval'))] inside [try ... except
    Exception]. *)
Definition literal_of (s : string) : option pyvalue :=
  parse s ≫= literal_eval.

(** ** What the expression is worth as arithmetic

    The value Python's own evaluator gives an integer expression:
    [//] floors, [**] takes a non-negative exponent; [/] yields a
    float and a call or a tuple no number, so they have no integer
    value. *)
Fixpoint arith_value (e : expr) : option Z :=
  match e with
  | Constant n => Some n
  | UnaryOp UAdd a => arith_value a
  | UnaryOp USub a => Z.opp <$> arith_value a
  | BinOp l op r =>
      x ← arith_value l;
      y ← arith_value r;
      match op with
      | Add => Some (x + y)
      | Sub => Some (x - y)
      | Mult => Some (x * y)
      | FloorDiv => if y =? 0 then None else Some (x `div` y)
      | Pow => if y <? 0 then None else Some (x ^ y)
      | Div => None
      end
  | EmptyTuple | Call0 _ | Call1 _ _ _ => None
  end.

End PyAst.

Import PyAst.

(* ================================================================== *)
(** * The size regex *)
(* ================================================================== *)

(** A backtracking matcher for the pieces the pattern
    [\s*([0-9+\-*/() ]+)([MmGg])?[iI]?[Bb]?\s*] is made of.  Each piece
    is greedy: it first tries to take a character and only gives it back
    when the rest of the pattern ([k]) fails. *)
Module Regex.

Section Pieces.
Context {R : Type}.

(** [c*]: [acc] is what the star has taken so far. *)
Fixpoint star (c : ascii -> bool) (acc s : string)
         (k : string -> string -> option R) : option R :=
  match s with
  | String ch s' =>
      if c ch then
        match star c (acc +:+ String ch EmptyString) s' k with
        | Some r => Some r
        | None => k acc s
        end
      else k acc s
  | EmptyString => k acc s
  end.

(** [c+]. *)
Definition plus (c : ascii -> bool) (s : string)
           (k : string -> string -> option R) : option R :=
  match s with
  | String ch s' => if c ch then star c (String ch EmptyString) s' k else None
  | EmptyString => None
  end.

(** [c?]. *)
Definition opt (c : ascii -> bool) (s : string)
           (k : option ascii -> string -> option R) : option R :=
  match s with
  | String ch s' =>
      if c ch then
        match k (Some ch) s' with
        | Some r => Some r
        | None => k None s
        end
      else k None s
  | EmptyString => k None s
  end.

(** End of the subject ([fullmatch]). *)
Definition eos (s : string) (r : R) : option R :=
  match s with EmptyString => Some r | _ => None end.
End Pieces.

Definition one_of (cs : string) (c : ascii) : bool :=
  existsb (Ascii.eqb c) (list_ascii_of_string cs).

(** [[0-9+\-*/() ]]. *)
Definition arith_char (c : ascii) : bool :=
  is_digit c || one_of "+-*/() " c.

(** [re.fullmatch(r"\s*([0-9+\-*/() ]+)([MmGg])?[iI]?[Bb]?\s*", value)]:
    groups 1 and 2 of the match. *)
Definition size_fullmatch (value : string) : option (string * option ascii) :=
  star is_space EmptyString value (fun _ s1 =>
  plus arith_char s1 (fun body s2 =>
  opt (one_of "MmGg") s2 (fun unit s3 =>
  opt (one_of "iI") s3 (fun _ s4 =>
  opt (one_of "Bb") s4 (fun _ s5 =>
  star is_space EmptyString s5 (fun _ s6 =>
  eos s6 (body, unit))))))).

(** [re.match(r"^(\d+)", line)] followed by [int(m.group(1))]. *)
Fixpoint digits_prefix (s : string) : list ascii :=
  match s with
  | String c s' => if is_digit c then c :: digits_prefix s' else []
  | EmptyString => []
  end.
Definition leading_int (line : string) : option Z :=
  match digits_prefix line with
  | [] => None
  | ds => Some (fold_left (fun a d => 10 * a + digit_value d) ds 0)
  end.

End Regex.

(* ================================================================== *)
(** * What the two wipe scripts share *)
(* ================================================================== *)

Module Wipe.

Record World : Type := {
  euid : Z;                                (* os.geteuid() *)
  path_exists : string -> bool;            (* os.path.exists *)
  size_of : string -> Z;                   (* get_size *)
  (** The [n]-th child process the run starts (counting from 0): the
      lines it writes to stderr and its return code. *)
  dd : nat -> list string * Z
}.

Inductive event : Type :=
| EvExists (path : string)                 (* os.path.exists(tgt) *)
| EvGetSize (path : string)                (* get_size(path) *)
| EvLog (msg : string)                     (* console.log *)
| EvSpawn (cmd : list string)              (* subprocess.Popen(cmd, ...) *)
| EvProgress (completed : Z)               (* progress.update *)
| EvWait (returncode : Z)                  (* proc.wait() *)
| EvPrint (msg : string).                  (* console.print *)

(** The command line, as the options found on it. *)
Record Argv : Type := {
  opt_zero : bool;
  opt_random : bool;
  opt_passes : option string;
  opt_bs : option string;
  opt_targets : list string
}.

(** The namespace [parser.parse_args()] returns. *)
Record Args : Type := {
  args_zero : bool;
  args_random : bool;
  args_passes : pyvalue;
  args_bs : pyvalue;
  args_targets : list string
}.

(** [range(lo, hi)]. *)
Definition py_range (lo hi : Z) : list Z :=
  map (fun i => lo + Z.of_nat i) (seq 0 (Z.to_nat (hi - lo))).

Definition lift {A} (r : result A) : M event A := ([], r).

(** argparse runs a [type=] converter and reports its
    [ArgumentTypeError] through [parser.error]. *)
Definition convert {A} (flag : string) (r : result A) : M event A :=
  match r with
  | inl (ArgumentTypeError msg) =>
      raise (ArgparseError ("argument " +:+ flag +:+ ": " +:+ msg))
  | _ => lift r
  end.

(** What [parse_args] does once the defaults are known. *)
Definition parse_args_with
           (conv_passes conv_bs : string -> result pyvalue)
           (default_bs : pyvalue) (positional : string) (argv : Argv)
  : M event Args :=
  passes <- match opt_passes argv with
            | None => ret (PyInt 1)
            | Some s => convert "-p/--passes" (conv_passes s)
            end ;;
  bs <- match opt_bs argv with
        | None => ret default_bs
        | Some s => convert "-b/--bs" (conv_bs s)
        end ;;
  if opt_zero argv && opt_random argv then
    raise (ArgparseError
             "argument -r/--random: not allowed with argument -z/--zero")
  else if bool_decide (opt_targets argv = []) then
    raise (ArgparseError
             ("the following arguments are required: " +:+ positional))
  else
    ret {| args_zero := opt_zero argv; args_random := opt_random argv;
           args_passes := passes; args_bs := bs;
           args_targets := opt_targets argv |}.

(** The [for line in proc.stderr] loop. *)
Definition progress_updates (lines : list string) : list event :=
  omap (fun line => EvProgress <$> Regex.leading_int line) lines.

Definition dd_cmd (source path : string) (bs : pyvalue) : list string :=
  ["dd"; "if=" +:+ source; "of=" +:+ path; "bs=" +:+ py_str bs;
   "status=progress"].


(** The events that concern child processes. *)
Definition is_proc (ev : event) : bool :=
  match ev with EvSpawn _ | EvWait _ => true | _ => false end.

End Wipe.

Import Wipe.

(* ================================================================== *)
(** * secure-wipe-rich.py *)
(* ================================================================== *)

Module SecureWipe.

Section Parsers.
(** [literal_eval(parse(value, mode='eval'))] on arbitrary text,
    [None] when either raises.  [parse_passes] hands it any string,
    so the full literal grammar is left as a parameter here;
    [literal_of] is its restriction to the arithmetic alphabet. *)
Variable py_literal : string -> option pyvalue.

Definition parse_passes (value : string) : result pyvalue :=
  match py_literal value with
  | None => inl (ArgumentTypeError ("Invalid passes '" +:+ value +:+ "'"))
  | Some number =>
      if negb (isinstance_int number) || (int_of number <? 1) then
        inl (ArgumentTypeError "Passes must be positive integer")
      else inr number
  end.
End Parsers.

Definition parse_size (value : string) : result pyvalue :=
  match Regex.size_fullmatch value with
  | None => inl (ArgumentTypeError ("Invalid size '" +:+ value +:+ "'"))
  | Some (expr, unit) =>
      match literal_of expr with
      | None =>
          inl (ArgumentTypeError ("Invalid arithmetic in size '" +:+ expr +:+ "'"))
      | Some number =>
          match unit with
          | Some u =>
              if Ascii.eqb (lower_char u) "m" then inr (py_mul number (1024 ^ 2))
              else inr (py_mul number (1024 ^ 3))
          | None => inr number
          end
      end
  end.

Section WithWorld.
Variable py_literal : string -> option pyvalue.
Variable w : World.

Definition get_size (path : string) : Z := size_of w path.

(** The body of [for p in range(1, passes+1)], from the pass list
    that is left and the number [k] of children started so far. *)
Fixpoint wipe_passes (path source : string) (bs : pyvalue)
         (ps : list Z) (k : nat) : list event * nat :=
  match ps with
  | [] => ([], k)
  | p :: rest =>
      let cmd := dd_cmd source path bs in
      let '(lines, returncode) := dd w k in
      let evs := [EvSpawn cmd] ++ progress_updates lines ++ [EvWait returncode] in
      if negb (returncode =? 0) then
        (evs ++ [EvPrint ("[red]ERROR[/] pass " +:+ pretty p +:+ " failed (code "
                          +:+ pretty returncode +:+ ")")],
         S k)                                         (* break *)
      else
        let '(t, k') := wipe_passes path source bs rest (S k) in
        (evs ++ t, k')
  end.

Definition wipe_one (path source : string) (bs passes : pyvalue) (k : nat)
  : list event * nat :=
  let '(t, k') :=
    wipe_passes path source bs (py_range 1 (int_of passes + 1)) k in
  (EvGetSize path :: t, k').

(** [for tgt in args.targets]. *)
Fixpoint for_targets (source : string) (bs passes : pyvalue)
         (tgts : list string) (k : nat) : list event * nat :=
  match tgts with
  | [] => ([], k)
  | tgt :: rest =>
      if negb (path_exists w tgt) then
        let '(t, k') := for_targets source bs passes rest k in  (* continue *)
        (EvExists tgt :: EvPrint ("[red]ERROR[/] " +:+ tgt +:+ " not found.") :: t,
         k')
      else
        let '(t1, k1) := wipe_one tgt source bs passes k in
        let '(t2, k2) := for_targets source bs passes rest k1 in
        (EvExists tgt :: t1 ++ t2, k2)
  end.

Definition parse_args (argv : Argv) : M event Args :=
  default_bs <- lift (parse_size "1M") ;;
  parse_args_with (parse_passes py_literal) parse_size default_bs "targets" argv.

Definition main_wipe (argv : Argv) : M event unit :=
  args <- parse_args argv ;;
  if negb (euid w =? 0) then
    emit (EvPrint "[red]ERROR[/] Must run as root.") ;;;
    raise (SystemExitCode 1)
  else
    let source := if args_random args then "/dev/urandom" else "/dev/zero" in
    (fst (for_targets source (args_bs args) (args_passes args)
                      (args_targets args) 0%nat), inr tt) ;;;
    emit (EvPrint "[green]Secure wipe completed.[/]").

End WithWorld.

End SecureWipe.

(* ================================================================== *)
(** * current_python_scripts/wipe-rich.py *)
(* ================================================================== *)

Module WipeRich.

Definition parse_numeric (expr : string) : result pyvalue :=
  match Regex.size_fullmatch expr with
  | None => inl (ArgumentTypeError ("Invalid expression '" +:+ expr +:+ "'"))
  | Some (body, suff) =>
      match literal_of body with
      | None => inl (ArgumentTypeError ("Cannot evaluate '" +:+ body +:+ "'"))
      | Some value =>
          if negb (isinstance_int value) || (int_of value <? 1) then
            inl (ArgumentTypeError
                   ("Result must be positive integer: " +:+ py_str value))
          else
            match suff with
            | Some c =>
                let factor :=
                  if Ascii.eqb (lower_char c) "m" then 1024 ^ 2 else 1024 ^ 3 in
                inr (py_mul value factor)
            | None => inr value
            end
      end
  end.

Section WithWorld.
Variable w : World.

Definition get_size (path : string) : Z := size_of w path.

Definition desc (p : Z) (passes : pyvalue) (path : string) : string :=
  "Pass " +:+ pretty p +:+ "/" +:+ py_str passes +:+ " on " +:+ basename path.

(** The body of [for p in range(1, passes + 1)]. *)
Fixpoint wipe_passes (path source : string) (bs passes : pyvalue)
         (ps : list Z) (k : nat) : list event * nat :=
  match ps with
  | [] => ([], k)
  | p :: rest =>
      let cmd := dd_cmd source path bs in
      let '(lines, returncode) := dd w k in
      let evs :=
        [EvLog ("[blue]Starting " +:+ desc p passes path +:+ " (cmd: "
                +:+ String.concat " " cmd +:+ ")");
         EvSpawn cmd]
        ++ progress_updates lines ++ [EvWait returncode] in
      if negb (returncode =? 0) then
        (evs ++ [EvPrint ("[red]ERROR[/] " +:+ desc p passes path
                          +:+ " failed (code " +:+ pretty returncode +:+ ")")],
         S k)                                         (* break *)
      else
        let '(t, k') := wipe_passes path source bs passes rest (S k) in
        (evs ++ t, k')
  end.

Definition wipe_target (path source : string) (bs passes : pyvalue) (k : nat)
  : list event * nat :=
  let '(t, k') :=
    wipe_passes path source bs passes (py_range 1 (int_of passes + 1)) k in
  (EvGetSize path :: t, k').

(** [for tgt in args.TARGET]. *)
Fixpoint for_targets (source : string) (bs passes : pyvalue)
         (tgts : list string) (k : nat) : list event * nat :=
  match tgts with
  | [] => ([], k)
  | tgt :: rest =>
      if negb (path_exists w tgt) then
        let '(t, k') := for_targets source bs passes rest k in  (* continue *)
        (EvExists tgt
           :: EvPrint ("[red]ERROR[/] Target not found: " +:+ tgt) :: t,
         k')
      else
        let '(t1, k1) := wipe_target tgt source bs passes k in
        let '(t2, k2) := for_targets source bs passes rest k1 in
        (EvExists tgt :: t1 ++ t2, k2)
  end.

(** Lines 108-121: building the parser.  [ArgumentParser(...)] is
    created with the default [add_help=True], which registers [-h] and
    [--help]; the explicit [parser.add_argument('-h','--help',
    action='help', ...)] of line 121 then finds both option strings
    taken and raises. *)
Definition build_parser : M event unit :=
  raise (ArgumentError
           "argument -h/--help: conflicting option strings: -h, --help").

(** [parser.parse_args()] (line 122). *)
Definition parse_args (argv : Argv) : M event Args :=
  default_bs <- lift (parse_numeric "1M") ;;
  parse_args_with parse_numeric parse_numeric default_bs "TARGET" argv.

(** Lines 122-135: [main] from [parse_args] on. *)
Definition main_after_parser (argv : Argv) : M event unit :=
  args <- parse_args argv ;;
  if negb (euid w =? 0) then
    emit (EvPrint "[red]ERROR[/] Root privileges required.") ;;;
    raise (SystemExitCode 1)
  else
    let source := if args_random args then "/dev/urandom" else "/dev/zero" in
    (fst (for_targets source (args_bs args) (args_passes args)
                      (args_targets args) 0%nat), inr tt) ;;;
    emit (EvPrint "[green]Secure wipe completed successfully.[/]").

Definition main (argv : Argv) : M event unit :=
  build_parser ;;; main_after_parser argv.

End WithWorld.

End WipeRich.

(* ================================================================== *)
(** * dcfldd-wrapper.py (a Bash script) *)
(* ================================================================== *)

Module Dcfldd.

(** The script's globals. *)
Record Opts : Type := {
  INPUT : string;
  OUTPUT : string;
  BLOCKSIZE : string;
  HASHES : string;
  STATUS_INTERVAL : string;
  JSON_REPORT : string;
  VERBOSE : Z;
  AUTO_YES : bool;
  DRY_RUN : bool;
  COUNT : option Z;              (* [None] while [COUNT] is empty *)
  VERIFY_ONLY : bool
}.

(** GLOBAL DEFAULTS (lines 53-63). *)
Definition defaults : Opts :=
  {| INPUT := ""; OUTPUT := ""; BLOCKSIZE := "1M"; HASHES := "sha256";
     STATUS_INTERVAL := "1"; JSON_REPORT := "report.json"; VERBOSE := 0;
     AUTO_YES := false; DRY_RUN := false; COUNT := None;
     VERIFY_ONLY := false |}.

Definition set_INPUT (o : Opts) (v : string) : Opts :=
  {| INPUT := v; OUTPUT := OUTPUT o; BLOCKSIZE := BLOCKSIZE o; HASHES := HASHES o;
     STATUS_INTERVAL := STATUS_INTERVAL o; JSON_REPORT := JSON_REPORT o;
     VERBOSE := VERBOSE o; AUTO_YES := AUTO_YES o; DRY_RUN := DRY_RUN o;
     COUNT := COUNT o; VERIFY_ONLY := VERIFY_ONLY o |}.
Definition set_OUTPUT (o : Opts) (v : string) : Opts :=
  {| INPUT := INPUT o; OUTPUT := v; BLOCKSIZE := BLOCKSIZE o; HASHES := HASHES o;
     STATUS_INTERVAL := STATUS_INTERVAL o; JSON_REPORT := JSON_REPORT o;
     VERBOSE := VERBOSE o; AUTO_YES := AUTO_YES o; DRY_RUN := DRY_RUN o;
     COUNT := COUNT o; VERIFY_ONLY := VERIFY_ONLY o |}.
Definition set_BLOCKSIZE (o : Opts) (v : string) : Opts :=
  {| INPUT := INPUT o; OUTPUT := OUTPUT o; BLOCKSIZE := v; HASHES := HASHES o;
     STATUS_INTERVAL := STATUS_INTERVAL o; JSON_REPORT := JSON_REPORT o;
     VERBOSE := VERBOSE o; AUTO_YES := AUTO_YES o; DRY_RUN := DRY_RUN o;
     COUNT := COUNT o; VERIFY_ONLY := VERIFY_ONLY o |}.
Definition set_HASHES (o : Opts) (v : string) : Opts :=
  {| INPUT := INPUT o; OUTPUT := OUTPUT o; BLOCKSIZE := BLOCKSIZE o; HASHES := v;
     STATUS_INTERVAL := STATUS_INTERVAL o; JSON_REPORT := JSON_REPORT o;
     VERBOSE := VERBOSE o; AUTO_YES := AUTO_YES o; DRY_RUN := DRY_RUN o;
     COUNT := COUNT o; VERIFY_ONLY := VERIFY_ONLY o |}.
Definition set_STATUS_INTERVAL (o : Opts) (v : string) : Opts :=
  {| INPUT := INPUT o; OUTPUT := OUTPUT o; BLOCKSIZE := BLOCKSIZE o;
     HASHES := HASHES o; STATUS_INTERVAL := v; JSON_REPORT := JSON_REPORT o;
     VERBOSE := VERBOSE o; AUTO_YES := AUTO_YES o; DRY_RUN := DRY_RUN o;
     COUNT := COUNT o; VERIFY_ONLY := VERIFY_ONLY o |}.
Definition set_JSON_REPORT (o : Opts) (v : string) : Opts :=
  {| INPUT := INPUT o; OUTPUT := OUTPUT o; BLOCKSIZE := BLOCKSIZE o;
     HASHES := HASHES o; STATUS_INTERVAL := STATUS_INTERVAL o; JSON_REPORT := v;
     VERBOSE := VERBOSE o; AUTO_YES := AUTO_YES o; DRY_RUN := DRY_RUN o;
     COUNT := COUNT o; VERIFY_ONLY := VERIFY_ONLY o |}.
Definition set_VERBOSE (o : Opts) (v : Z) : Opts :=
  {| INPUT := INPUT o; OUTPUT := OUTPUT o; BLOCKSIZE := BLOCKSIZE o;
     HASHES := HASHES o; STATUS_INTERVAL := STATUS_INTERVAL o;
     JSON_REPORT := JSON_REPORT o; VERBOSE := v; AUTO_YES := AUTO_YES o;
     DRY_RUN := DRY_RUN o; COUNT := COUNT o; VERIFY_ONLY := VERIFY_ONLY o |}.
Definition set_AUTO_YES (o : Opts) (v : bool) : Opts :=
  {| INPUT := INPUT o; OUTPUT := OUTPUT o; BLOCKSIZE := BLOCKSIZE o;
     HASHES := HASHES o; STATUS_INTERVAL := STATUS_INTERVAL o;
     JSON_REPORT := JSON_REPORT o; VERBOSE := VERBOSE o; AUTO_YES := v;
     DRY_RUN := DRY_RUN o; COUNT := COUNT o; VERIFY_ONLY := VERIFY_ONLY o |}.
Definition set_DRY_RUN (o : Opts) (v : bool) : Opts :=
  {| INPUT := INPUT o; OUTPUT := OUTPUT o; BLOCKSIZE := BLOCKSIZE o;
     HASHES := HASHES o; STATUS_INTERVAL := STATUS_INTERVAL o;
     JSON_REPORT := JSON_REPORT o; VERBOSE := VERBOSE o; AUTO_YES := AUTO_YES o;
     DRY_RUN := v; COUNT := COUNT o; VERIFY_ONLY := VERIFY_ONLY o |}.
Definition set_COUNT (o : Opts) (v : option Z) : Opts :=
  {| INPUT := INPUT o; OUTPUT := OUTPUT o; BLOCKSIZE := BLOCKSIZE o;
     HASHES := HASHES o; STATUS_INTERVAL := STATUS_INTERVAL o;
     JSON_REPORT := JSON_REPORT o; VERBOSE := VERBOSE o; AUTO_YES := AUTO_YES o;
     DRY_RUN := DRY_RUN o; COUNT := v; VERIFY_ONLY := VERIFY_ONLY o |}.
Definition set_VERIFY_ONLY (o : Opts) (v : bool) : Opts :=
  {| INPUT := INPUT o; OUTPUT := OUTPUT o; BLOCKSIZE := BLOCKSIZE o;
     HASHES := HASHES o; STATUS_INTERVAL := STATUS_INTERVAL o;
     JSON_REPORT := JSON_REPORT o; VERBOSE := VERBOSE o; AUTO_YES := AUTO_YES o;
     DRY_RUN := DRY_RUN o; COUNT := COUNT o; VERIFY_ONLY := v |}.

(** What one round of [getopts ':i:o:b:c:H:s:j:vyhn'] can find. *)
Inductive opt : Type :=
| Opt_i (arg : string)
| Opt_o (arg : string)
| Opt_b (arg : string)
| Opt_c (arg : Z)
| Opt_H (arg : string)
| Opt_s (arg : string)
| Opt_j (arg : string)
| Opt_v
| Opt_y
| Opt_h
| Opt_n
| Opt_missing (name : string)     (* the [:] case: an option without its argument *)
| Opt_invalid (name : string).    (* the [*] case *)

(** The command line as the two parsing loops see it: whether the
    long-option loop met [--verify], and the options [getopts] then
    finds, in order. *)
Record Cmdline : Type := {
  verify : bool;
  opts : list opt
}.

Record World : Type := {
  deps_ok : bool;                (* every [need] and the rich probe pass *)
  EUID : Z;
  is_block : string -> bool;     (* [[ -b $INPUT ]] *)
  lsblk_type : string -> string;
  (** [blockdev --getsize64] or [stat --format=%s]; [None] when the
      command fails. *)
  probe_size : string -> option Z;
  (** [numfmt --from=iec "$BLOCKSIZE" || echo "$BLOCKSIZE"], read as
      an integer. *)
  numfmt_iec : string -> Z;
  answer : string;               (* the reply to the prompt *)
  wrapper_rc : list string -> Z  (* exit status of the embedded progress wrapper *)
}.

Inductive event : Type :=
| EvWarn (msg : string)
| EvErr (msg : string)
| EvFatal                        (* the ERR trap's message *)
| EvUsage
| EvLog (msg : string)
| EvProbe (path : string)        (* blockdev / stat on the source *)
| EvSummary (block_count size_bytes : Z)
| EvEcho (msg : string)
| EvPrompt
| EvExec (total : Z) (cmd : list string)
| EvReport (file : string) (bytes : Z).

Definition is_exec (ev : event) : bool :=
  match ev with EvExec _ _ => true | _ => false end.

(** Bash arithmetic is 64-bit two's complement. *)
Definition wrap64 (z : Z) : Z := (z + 2 ^ 63) `mod` 2 ^ 64 - 2 ^ 63.

(** Lines 168-173: [BLOCK_COUNT] and [SIZE_BYTES].  The product is
    taken by the shell, the rounded-up quotient by [bc] with
    [scale=0], which truncates. *)
Definition block_arith (count : option Z) (SIZE_BYTES BLOCKSIZE_BYTES : Z)
  : Z * Z :=
  match count with
  | Some c =>
      let BLOCK_COUNT := c in
      (BLOCK_COUNT, wrap64 (BLOCK_COUNT * BLOCKSIZE_BYTES))
  | None =>
      ((SIZE_BYTES + BLOCKSIZE_BYTES - 1) `quot` BLOCKSIZE_BYTES, SIZE_BYTES)
  end.

Definition BLOCK_COUNT_of (count : option Z) (size bs : Z) : Z :=
  fst (block_arith count size bs).
Definition SIZE_BYTES_of (count : option Z) (size bs : Z) : Z :=
  snd (block_arith count size bs).

(** [exit n]. *)
Definition exit {A} (n : Z) : M event A := raise (SystemExitCode n).

(** [err]: message, then [exit 1]. *)
Definition err {A} (msg : string) : M event A :=
  emit (EvErr msg) ;;; exit 1.

(** A command that fails where [set -e] applies: the ERR trap prints,
    the shell exits with the command's status. *)
Definition errexit {A} (status : Z) : M event A :=
  emit EvFatal ;;; exit status.

(** [log "..."] as a statement.  The function's body is
    [[[ $VERBOSE -ge 1 ]] && echo ...]: with [VERBOSE] below 1 it
    returns the status of the failed test, the call is a simple command
    that failed, and [set -e] ends the script. *)
Definition log (o : Opts) (msg : string) : M event unit :=
  if VERBOSE o >=? 1 then emit (EvLog msg) else errexit 1.

(** The [while getopts] loop (lines 132-148).  [((VERBOSE++))] has the
    old value of [VERBOSE] as its value, and an arithmetic command
    whose value is 0 fails: under [set -e] the first [-v] ends the
    script. *)
Fixpoint getopts (os : list opt) (o : Opts) : M event Opts :=
  match os with
  | [] => ret o
  | Opt_i a :: rest => getopts rest (set_INPUT o a)
  | Opt_o a :: rest => getopts rest (set_OUTPUT o a)
  | Opt_b a :: rest => getopts rest (set_BLOCKSIZE o a)
  | Opt_c a :: rest => getopts rest (set_COUNT o (Some a))
  | Opt_H a :: rest => getopts rest (set_HASHES o a)
  | Opt_s a :: rest => getopts rest (set_STATUS_INTERVAL o a)
  | Opt_j a :: rest => getopts rest (set_JSON_REPORT o a)
  | Opt_v :: rest =>
      if VERBOSE o =? 0 then errexit 1
      else getopts rest (set_VERBOSE o (VERBOSE o + 1))
  | Opt_y :: rest => getopts rest (set_AUTO_YES o true)
  | Opt_n :: rest => getopts rest (set_DRY_RUN o true)
  | Opt_h :: _ => emit EvUsage ;;; exit 0
  | Opt_missing name :: _ => err ("Option -" +:+ name +:+ " requires an argument")
  | Opt_invalid name :: _ => err ("Invalid option: -" +:+ name)
  end.

(** The [DCFLDD] array (lines 209-211). *)
Definition DCFLDD (o : Opts) (output : string) : list string :=
  ["dcfldd"; "if=" +:+ INPUT o; "of=" +:+ output; "bs=" +:+ BLOCKSIZE o;
   "statusinterval=" +:+ STATUS_INTERVAL o; "hash=" +:+ HASHES o;
   "hashlog=" +:+ output +:+ ".hashlog"; "conv=noerror,sync"; "sizeprobe=if"]
  ++ (match COUNT o with Some c => ["count=" +:+ pretty c] | None => [] end)
  ++ (if VERBOSE o >=? 2 then ["verbosehash=true"] else []).

Definition confirmed (yn : string) : bool :=
  String.eqb yn "y" || String.eqb yn "Y".

Section WithWorld.
Variable w : World.

(** Lines 151-264: everything after option parsing, from the state [o]
    of the globals. *)
Definition body (o : Opts) : M event unit :=
  (if String.eqb (INPUT o) "" || String.eqb (OUTPUT o) "" then
     emit EvUsage ;;; exit 1
   else ret tt) ;;;
  let output := if VERIFY_ONLY o then "/dev/null" else OUTPUT o in
  let DEVTYPE := if is_block w (INPUT o) then lsblk_type w (INPUT o) else "file" in
  emit (EvProbe (INPUT o)) ;;;
  size <- match probe_size w (INPUT o) with
          | Some n => ret n
          | None => errexit 1
          end ;;
  let BLOCKSIZE_BYTES := numfmt_iec w (BLOCKSIZE o) in
  (if wrap64 BLOCKSIZE_BYTES =? 0 then
     err ("Could not parse block size '" +:+ BLOCKSIZE o +:+ "'")
   else ret tt) ;;;
  let '(BLOCK_COUNT, SIZE_BYTES) := block_arith (COUNT o) size BLOCKSIZE_BYTES in
  log o ("Input type       : " +:+ DEVTYPE) ;;;
  log o ("Input size       : " +:+ pretty SIZE_BYTES +:+ " bytes") ;;;
  log o ("Block size       : " +:+ BLOCKSIZE o +:+ " ("
         +:+ pretty BLOCKSIZE_BYTES +:+ " bytes)") ;;;
  log o ("Blocks to copy   : " +:+ pretty BLOCK_COUNT +:+ " = "
         +:+ pretty SIZE_BYTES +:+ " / " +:+ pretty BLOCKSIZE_BYTES) ;;;
  emit (EvSummary BLOCK_COUNT SIZE_BYTES) ;;;
  (if DRY_RUN o then
     emit (EvEcho "[DRY‑RUN] Would execute dcfldd now.") ;;; exit 0
   else ret tt) ;;;
  (if negb (AUTO_YES o) then
     emit EvPrompt ;;;
     if confirmed (answer w) then ret tt else err "Aborted by user."
   else ret tt) ;;;
  let cmd := DCFLDD o output in
  log o ("Executing: " +:+ String.concat " " cmd) ;;;
  emit (EvExec SIZE_BYTES cmd) ;;;
  let RC := wrapper_rc w cmd in
  (if negb (RC =? 0) then errexit RC else ret tt) ;;;
  emit (EvReport (JSON_REPORT o) SIZE_BYTES) ;;;
  log o ("JSON report written to " +:+ JSON_REPORT o) ;;;
  exit RC.

(** The script: dependency check, the root warning, the two parsing
    loops, then [body]. *)
Definition script (cl : Cmdline) : M event unit :=
  (if negb (deps_ok w) then err "Required binary not found" else ret tt) ;;;
  (if negb (EUID w =? 0) then
     emit (EvWarn "Not running as root — some devices may be inaccessible.")
   else ret tt) ;;;
  o <- getopts (opts cl) (set_VERIFY_ONLY defaults (verify cl)) ;;
  body o.

End WithWorld.

End Dcfldd.

(* ================================================================== *)
(** * Vocabulary of the statements, and sample worlds *)
(* ================================================================== *)

Section UsbVocabulary.
Import UsbTool.

(** udev's device nodes exist and live under [/dev/]. *)
Definition udev_coherent (w : World) : Prop :=
  forall dev, In dev (udev_disks w) ->
    path_exists w (device_node dev) = true
    /\ startswith (device_node dev) "/dev/" = true.

(** The command line names a usable [--format], or none. *)
Definition format_ok (cli : Cli) : Prop :=
  match cli_format cli with
  | Some f => is_Some (FS_TABLE !! f)
  | None => True
  end.

(** A request that reaches the safety check for [device]. *)
Definition requests (w : World) (cli : Cli) (device : string) : Prop :=
  is_root w = true /\ format_ok cli /\ cli_list cli = false
  /\ cli_device cli = Some device /\ device <> "".

(** An internal disk and a USB stick. *)
Definition sda : UdevDevice :=
  {| device_node := "/dev/sda";
     properties := {[ "ID_BUS" := "ata" ]};
     attributes := <[ "size" := 1000215216 ]> {[ "removable" := 0 ]} |}.

Definition sdX : UdevDevice :=
  {| device_node := "/dev/sdX";
     properties := <[ "ID_BUS" := "usb" ]> {[ "ID_MODEL" := "Flash_Disk" ]};
     attributes := <[ "size" := 30310400 ]> {[ "removable" := 1 ]} |}.

(** A machine with both, run by root, on which every command succeeds. *)
Definition desk : World :=
  {| euid := 0;
     path_exists := fun p => bool_decide (p ∈ ["/dev/sda"; "/dev/sdX"; "/etc/fstab"]);
     udev_disks := [sda; sdX];
     proc_rc := fun _ => 0;
     proc_stdout := fun _ => "" |}.

(** The same machine, run by uid 1000. *)
Definition desk_as_user : World :=
  {| euid := 1000; path_exists := path_exists desk;
     udev_disks := udev_disks desk; proc_rc := proc_rc desk;
     proc_stdout := proc_stdout desk |}.

Definition no_options : Cli :=
  {| cli_list := false; cli_device := None; cli_format := None;
     cli_label := None; cli_repair := false; cli_scan_badblocks := false;
     cli_force := false |}.

(** [--device /dev/sdX --format fat32 --label DATA]. *)
Definition format_request : Cli :=
  {| cli_list := false; cli_device := Some "/dev/sdX";
     cli_format := Some "fat32"; cli_label := Some "DATA";
     cli_repair := false; cli_scan_badblocks := false; cli_force := false |}.

(** The partitioning commands of [create_single_partition] and the
    [mkfs] command of [FSBackend.format], as lists of arguments. *)
Definition repartition_cmds (device fs : string) : list (list string) :=
  [ ["parted"; "-s"; device; "mklabel"; "gpt"];
    ["parted"; "-s"; device; "mkpart"; "primary"; fs; "1MiB"; "100%"];
    ["partprobe"; device] ].

Definition mkfs_for (b : FSBackend) (label : option string) (part : string)
  : list string :=
  mkfs_cmd b ++ match label with None => [] | Some l => ["-n"; l] end ++ [part].

(** The commands a run has issued, in order. *)
Definition commands_run (t : list event) : list (list string) :=
  omap (fun ev => match ev with EvRun cmd => Some cmd | _ => None end) t.

End UsbVocabulary.

Section ParserVocabulary.
Local Open Scope nat_scope.

(** [f'] is fuel enough for a parsing function that went from [ts] to
    [rest]: eight units a token, and [cost] for the way down. *)
Definition enough (cost : nat) (ts rest : list token) (f' : nat) : Prop :=
  8 * (length ts - length rest) + cost <= f'.

(** Every result obtained with fuel [f] is the result for any fuel that
    is enough. *)
Definition adequate (f : nat) : Prop :=
  (forall ts e rest, p_sum f ts = Some (e, rest) ->
     length rest < length ts
     /\ forall f', enough 6 ts rest f' -> p_sum f' ts = Some (e, rest))
  /\ (forall l ts e rest, p_sum_rest f l ts = Some (e, rest) ->
     length rest <= length ts
     /\ forall f', enough 1 ts rest f' -> p_sum_rest f' l ts = Some (e, rest))
  /\ (forall ts e rest, p_term f ts = Some (e, rest) ->
     length rest < length ts
     /\ forall f', enough 5 ts rest f' -> p_term f' ts = Some (e, rest))
  /\ (forall l ts e rest, p_term_rest f l ts = Some (e, rest) ->
     length rest <= length ts
     /\ forall f', enough 1 ts rest f' -> p_term_rest f' l ts = Some (e, rest))
  /\ (forall ts e rest, p_factor f ts = Some (e, rest) ->
     length rest < length ts
     /\ forall f', enough 4 ts rest f' -> p_factor f' ts = Some (e, rest))
  /\ (forall ts e rest, p_power f ts = Some (e, rest) ->
     length rest < length ts
     /\ forall f', enough 3 ts rest f' -> p_power f' ts = Some (e, rest))
  /\ (forall ts e rest, p_primary f ts = Some (e, rest) ->
     length rest < length ts
     /\ forall f', enough 2 ts rest f' -> p_primary f' ts = Some (e, rest))
  /\ (forall a ts e rest, p_trailers f a ts = Some (e, rest) ->
     length rest <= length ts
     /\ forall f', enough 1 ts rest f' -> p_trailers f' a ts = Some (e, rest))
  /\ (forall ts e rest, p_atom f ts = Some (e, rest) ->
     length rest < length ts
     /\ forall f', enough 1 ts rest f' -> p_atom f' ts = Some (e, rest)).

End ParserVocabulary.

(** Case on the fuel [f'] that a goal is stated for: it is not zero. *)
Ltac need_fuel f' g :=
  let H := fresh "Hf" in
  intros f' H; unfold enough in *; cbn [length] in *;
  destruct f' as [|g]; [lia|].

Section WipeVocabulary.

(** What a run of passes looks like from the process table: each child
    is started and waited for before the next one is started. *)
Definition passes_trace (cmd : list string) (rcs : list Z) : list event :=
  flat_map (fun rc => [EvSpawn cmd; EvWait rc]) rcs.

(** The child-process events of a trace, and how many children it
    started. *)
Definition proc_events (t : list event) : list event := List.filter is_proc t.

(** The return codes seen by a loop of at most [n] passes that starts
    with child number [k] and stops at the first failure. *)
Fixpoint observed (w : World) (n k : nat) : list Z :=
  match n with
  | O => []
  | S n' =>
      let rc := snd (dd w k) in
      if rc =? 0 then rc :: observed w n' (S k) else [rc]
  end.


(** The same machine with every child succeeding. *)
Definition all_passes_succeed : World :=
  {| Wipe.euid := 0;
     Wipe.path_exists := fun p => bool_decide (p ∈ ["/dev/sdX"; "disk.img"]);
     size_of := fun _ => 4096;
     dd := fun _ => (["4096 bytes copied"], 0) |}.

(** [-p 2 /dev/nope /dev/sdX disk.img]. *)
Definition erase_three : Argv :=
  {| opt_zero := false; opt_random := false; opt_passes := Some "2";
     opt_bs := None; opt_targets := ["/dev/nope"; "/dev/sdX"; "disk.img"] |}.

(** [--bs 0 /dev/sdX]. *)
Definition erase_bs_zero : Argv :=
  {| opt_zero := false; opt_random := false; opt_passes := None;
     opt_bs := Some "0"; opt_targets := ["/dev/sdX"] |}.

(** The factor a unit suffix stands for: [M] is 2^20, [G] is 2^30. *)
Definition unit_factor (unit : option ascii) : Z :=
  match unit with
  | None => 1
  | Some u => if Ascii.eqb (lower_char u) "m" then 2 ^ 20 else 2 ^ 30
  end.

(** A converter only ever raises [ArgumentTypeError]. *)
Definition raises_type_errors (conv : string -> result pyvalue) : Prop :=
  forall s e, conv s = inl e -> exists msg, e = ArgumentTypeError msg.

End WipeVocabulary.

Section DcflddVocabulary.
Import Dcfldd.

(** The same machine seen by root. *)
Definition as_root (w : World) : World :=
  {| deps_ok := deps_ok w; EUID := 0; is_block := is_block w;
     lsblk_type := lsblk_type w; probe_size := probe_size w;
     numfmt_iec := numfmt_iec w; answer := answer w;
     wrapper_rc := wrapper_rc w |}.

Definition not_root_warning : string :=
  "Not running as root — some devices may be inaccessible.".

(** An ordinary user (uid 1000) who may read the stick, which holds
    4096 bytes. *)
Definition ordinary_user : World :=
  {| deps_ok := true; EUID := 1000;
     is_block := fun p => String.eqb p "/dev/sdX";
     lsblk_type := fun _ => "disk";
     probe_size := fun _ => Some 4096;
     numfmt_iec := fun b => if String.eqb b "1K" then 1024 else 1048576;
     answer := "y";
     wrapper_rc := fun _ => 0 |}.

(** The same user on a machine without [dcfldd]. *)
Definition ordinary_user_no_dcfldd : World :=
  {| deps_ok := false; EUID := 1000;
     is_block := is_block ordinary_user; lsblk_type := lsblk_type ordinary_user;
     probe_size := probe_size ordinary_user;
     numfmt_iec := numfmt_iec ordinary_user; answer := answer ordinary_user;
     wrapper_rc := wrapper_rc ordinary_user |}.

(** [-y -i /dev/sdX -o stick.dd -b 1K]. *)
Definition image_stick : Cmdline :=
  {| verify := false;
     opts := [Opt_y; Opt_i "/dev/sdX"; Opt_o "stick.dd"; Opt_b "1K"] |}.

(** The globals the third example of the usage text aims at
    ([-n -i /dev/zero -o blank.img -b 1K -c 1048576]), with [VERBOSE]
    at 1. *)
Definition blank_image : Opts :=
  {| INPUT := "/dev/zero"; OUTPUT := "blank.img"; BLOCKSIZE := "1K";
     HASHES := "sha256"; STATUS_INTERVAL := "1"; JSON_REPORT := "report.json";
     VERBOSE := 1; AUTO_YES := false; DRY_RUN := true; COUNT := Some 1048576;
     VERIFY_ONLY := false |}.

(** What a summary, a copy command and a report must carry, given the
    globals and what the probes return. *)
Definition carries_block_arith (w : World) (o : Opts) (ev : event) : Prop :=
  match ev with
  | EvSummary block_count size_bytes =>
      exists size,
        probe_size w (INPUT o) = Some size
        /\ (block_count, size_bytes)
           = block_arith (COUNT o) size (numfmt_iec w (BLOCKSIZE o))
  | EvExec total cmd =>
      exists size,
        probe_size w (INPUT o) = Some size
        /\ total = SIZE_BYTES_of (COUNT o) size (numfmt_iec w (BLOCKSIZE o))
        /\ (forall c, COUNT o = Some c -> In ("count=" +:+ pretty c) cmd)
  | EvReport _ bytes =>
      exists size,
        probe_size w (INPUT o) = Some size
        /\ bytes = SIZE_BYTES_of (COUNT o) size (numfmt_iec w (BLOCKSIZE o))
  | _ => True
  end.

End DcflddVocabulary.

(* ================================================================== *)
(** * usb_tool.py: [pretty_size] *)
(* ================================================================== *)

Module PrettySize.

(** The numbers [pretty_size] computes with: the [int] it is given, and
    the [float]s that [nbytes /= 1024] leaves.  Such a float is kept as
    the exact fraction [num / 1024 ^ scale]: a division by 1024 only
    changes the exponent of a double (the loop divides values of at
    least 1024, far from the subnormal range). *)
Inductive number : Type :=
| Int (n : Z)
| Float (num : Z) (scale : Z).

(** The integer nearest to [num / den], ties going to the even one
    ([den] positive). *)
Definition round_half_even (num den : Z) : Z :=
  let q := num `div` den in
  let r := num `mod` den in
  if 2 * r <? den then q
  else if den <? 2 * r then q + 1
  else if Z.even q then q else q + 1.

(** The nearest integer that has a 53-bit significand, ties to even:
    what converting the [int] [n] to a double gives. *)
Definition round53 (n : Z) : Z :=
  let a := Z.abs n in
  let e := Z.log2 a - 52 in
  if e <=? 0 then n
  else Z.sgn n * (round_half_even a (2 ^ e) * 2 ^ e).

(** [float(n)], as the integer it is worth; [None] stands for
    [OverflowError]. *)
Definition float_of_int (n : Z) : option Z :=
  let r := round53 n in
  if Z.abs r <? 2 ^ 1024 then Some r else None.

(** [nbytes < 1024]. *)
Definition lt_1024 (x : number) : bool :=
  match x with
  | Int n => n <? 1024
  | Float num scale => num <? 1024 * 1024 ^ scale
  end.

(** [nbytes / 1024]: the true division of Python, correctly rounded
    for an [int]; [None] stands for [OverflowError]. *)
Definition div_1024 (x : number) : option number :=
  match x with
  | Int n =>
      let r := round53 n in
      if Z.abs r <? 2 ^ 1034 then Some (Float r 1) else None
  | Float num scale => Some (Float num (scale + 1))
  end.

(** [f"{nbytes:.0f}"]; an [int] is converted to a float first.  (The
    floats met here are at least 1; the [-0] that Python prints for a
    small negative float does not arise.) *)
Definition format_0f (x : number) : option string :=
  match x with
  | Int n => r ← float_of_int n; Some (pretty r)
  | Float num scale => Some (pretty (round_half_even num (1024 ^ scale)))
  end.

(** [f"{nbytes:.1f}"]. *)
Definition format_1f (x : number) : option string :=
  match x with
  | Int n => r ← float_of_int n; Some (pretty r +:+ ".0")
  | Float num scale =>
      let tenths := round_half_even (10 * num) (1024 ^ scale) in
      Some (pretty (tenths `div` 10) +:+ "." +:+ pretty (tenths `mod` 10))
  end.

(** The [for unit in (...)] loop and the [return] after it. *)
Fixpoint pretty_size_from (units : list string) (nbytes : number)
  : option string :=
  match units with
  | unit :: rest =>
      if lt_1024 nbytes then
        s ← format_0f nbytes; Some (s +:+ " " +:+ unit)
      else
        x ← div_1024 nbytes; pretty_size_from rest x
  | [] => s ← format_1f nbytes; Some (s +:+ " PiB")
  end.

Definition pretty_size (nbytes : Z) : option string :=
  pretty_size_from ["B"; "KiB"; "MiB"; "GiB"; "TiB"] (Int nbytes).

End PrettySize.

(* ================================================================== *)
(** * secure-wipe-rich.py: the entry point *)
(* ================================================================== *)

(** Lines 100-106, the [if __name__ == '__main__'] block. *)
Module SecureWipeEntry.

(** How the block ends: in the [NameError] of a call to a name that
    nothing defines, or as the function it calls does. *)
Inductive started : Type :=
| NameError (name : string)
| Runs (run : M event unit).

(** [needle in hay]. *)
Fixpoint contains (needle hay : string) : bool :=
  String.prefix needle hay
  || match hay with
     | String _ rest => contains needle rest
     | EmptyString => false
     end.

Section WithWorld.
Variable py_literal : string -> option pyvalue.
Variable w : World.

(** [argv0] is [sys.argv[0]].  The module defines no [main_dd]. *)
Definition dunder_main (argv0 : string) (argv : Argv) : started :=
  let prog := basename argv0 in
  if contains "dd_rich" prog then NameError "main_dd"
  else Runs (SecureWipe.main_wipe py_literal w argv).

End WithWorld.

(** The exit status of the interpreter: 1 for the uncaught
    [NameError]. *)
Definition status (s : started) : Z :=
  match s with
  | NameError _ => 1
  | Runs run => exit_status (outcome run)
  end.

End SecureWipeEntry.

(* ================================================================== *)
(** * dcfldd-wrapper.py: the command line as words *)
(* ================================================================== *)

(** Lines 119-149 on the positional parameters themselves: the loop
    over leading long options, and what [getopts] then finds. *)
Module DcflddArgs.
Import Dcfldd.

(** [[[ ${1:-} == --* ]]]. *)
Definition is_long (a : string) : bool := String.prefix "--" a.

(** The [while] loop of lines 123-130, from the positional parameters
    [args] and the value of [VERIFY_ONLY]; [fuel] bounds the number of
    rounds.  [--help] appends [-h] to the parameters; [--verify] does a
    [shift] of its own before the one that ends every round, and a
    [shift] with nothing left to shift fails. *)
Fixpoint long_options (fuel : nat) (args : list string) (verify : bool)
  : M event (bool * list string) :=
  match fuel with
  | O => ret (verify, args)
  | S f =>
      match args with
      | a :: rest =>
          if is_long a then
            if String.eqb a "--help" then
              long_options f (rest ++ ["-h"]) verify
            else if String.eqb a "--verify" then
              match rest with
              | _ :: rest' => long_options f rest' true
              | [] => errexit 1
              end
            else err ("Unknown option: " +:+ a)
          else ret (verify, args)
      | [] => ret (verify, args)
      end
  end.

(** A round consumes a parameter that was there from the start, so
    their number is fuel enough. *)
Definition shim (args : list string) (verify : bool)
  : M event (bool * list string) :=
  long_options (length args) args verify.

(** One result of [getopts ':i:o:b:c:H:s:j:vyhn' opt]. *)
Inductive found : Type :=
| Found_flag (c : ascii)                (* [opt] is [c] *)
| Found_arg (c : ascii) (arg : string)  (* [opt] is [c], [OPTARG] is [arg] *)
| Found_missing (c : ascii)             (* [opt] is [:], [OPTARG] is [c] *)
| Found_invalid (c : ascii).            (* [opt] is [?], [OPTARG] is [c] *)

Definition takes_arg (c : ascii) : bool := Regex.one_of "iobcHsj" c.
Definition is_flag (c : ascii) : bool := Regex.one_of "vyhn" c.

(** The option characters [cs] left in the current word; [next] is the
    word after it.  The boolean tells whether that word was used up as
    an argument. *)
Fixpoint scan_chars (cs : string) (next : option string) : list found * bool :=
  match cs with
  | EmptyString => ([], false)
  | String c cs' =>
      if takes_arg c then
        match cs' with
        | EmptyString =>
            match next with
            | Some a => ([Found_arg c a], true)
            | None => ([Found_missing c], false)
            end
        | _ => ([Found_arg c cs'], false)
        end
      else
        let '(fs, used) := scan_chars cs' next in
        ((if is_flag c then Found_flag c else Found_invalid c) :: fs, used)
  end.

(** What the successive calls of [getopts] find in the words: the scan
    ends at the first word that is not an option ([--], [-], or
    anything that does not start with a dash). *)
Fixpoint scan (words : list string) : list found :=
  match words with
  | [] => []
  | word :: rest =>
      match word with
      | String "-" (String c cs as chars) =>
          if String.eqb word "--" then []
          else
            match rest with
            | next :: rest' =>
                let '(fs, used) := scan_chars chars (Some next) in
                fs ++ (if used then scan rest' else scan rest)
            | [] => fst (scan_chars chars None)
            end
      | _ => []
      end
  end.

(** The number a [-c] argument stands for, when it is a plain decimal
    numeral: the integer whose decimal form is the text. *)
Definition int_of_text (s : string) : Z :=
  match s with
  | String "-" s' =>
      - fold_left (fun a d => 10 * a + digit_value d) (list_ascii_of_string s') 0
  | _ => fold_left (fun a d => 10 * a + digit_value d) (list_ascii_of_string s) 0
  end.

Definition count_of (s : string) : option Z :=
  let z := int_of_text s in
  if String.eqb (pretty z) s then Some z else None.

(** The branch of the [case] a result selects.  A [-c] argument that
    is no plain decimal numeral (the shell would evaluate it as an
    arithmetic expression) is outside what [COUNT] models: [None]. *)
Definition opt_of (f : found) : option opt :=
  match f with
  | Found_arg c a =>
      if Ascii.eqb c "i" then Some (Opt_i a)
      else if Ascii.eqb c "o" then Some (Opt_o a)
      else if Ascii.eqb c "b" then Some (Opt_b a)
      else if Ascii.eqb c "c" then Opt_c <$> count_of a
      else if Ascii.eqb c "H" then Some (Opt_H a)
      else if Ascii.eqb c "s" then Some (Opt_s a)
      else if Ascii.eqb c "j" then Some (Opt_j a)
      else None
  | Found_flag c =>
      if Ascii.eqb c "v" then Some Opt_v
      else if Ascii.eqb c "y" then Some Opt_y
      else if Ascii.eqb c "n" then Some Opt_n
      else if Ascii.eqb c "h" then Some Opt_h
      else None
  | Found_missing c => Some (Opt_missing (String c EmptyString))
  | Found_invalid c => Some (Opt_invalid (String c EmptyString))
  end.

(** The options the loop gets to handle: its body leaves the script at
    [-h] and in the two error cases, so what [getopts] would find after
    them is never looked at. *)
Fixpoint handled (fs : list found) : option (list opt) :=
  match fs with
  | [] => Some []
  | f :: rest =>
      o ← opt_of f;
      match o with
      | Opt_h | Opt_missing _ | Opt_invalid _ => Some [o]
      | _ => cons o <$> handled rest
      end
  end.

Definition opts_of (words : list string) : option (list opt) :=
  handled (scan words).

Section WithWorld.
Variable w : World.

(** Lines 111-117: the dependency check and the root warning. *)
Definition preamble : M event unit :=
  (if negb (deps_ok w) then err "Required binary not found" else ret tt) ;;;
  (if negb (EUID w =? 0) then
     emit (EvWarn "Not running as root — some devices may be inaccessible.")
   else ret tt).

(** The script on the words of its command line; [None] when the
    loop gets to a [-c] argument that is outside the model. *)
Definition script_argv (argv : list string) : option (M event unit) :=
  match shim argv false with
  | (t, inl e) => Some (preamble ;;; (t, inl e))
  | (t, inr (verify, words)) =>
      os ← opts_of words;
      Some (preamble ;;;
            (t, inr tt) ;;;
            o <- getopts os (set_VERIFY_ONLY defaults verify) ;;
            body w o)
  end.

End WithWorld.

End DcflddArgs.

(* ================================================================== *)
(** * Vocabulary for the rest of the code *)
(* ================================================================== *)

Section UsbModesVocabulary.
Import UsbTool.

(** The query [main] sends to [blkid] in repair mode. *)
Definition blkid_cmd (device : string) : list string :=
  ["blkid"; "-o"; "value"; "-s"; "TYPE"; device].

(** [desk] with a [blkid] that prints [out]. *)
Definition desk_blkid (out : string) : World :=
  {| euid := 0; path_exists := path_exists desk; udev_disks := udev_disks desk;
     proc_rc := fun _ => 0; proc_stdout := fun _ => out |}.

(** [--device /dev/sdX --repair] and [--device /dev/sdX --scan-badblocks]. *)
Definition repair_request : Cli :=
  {| cli_list := false; cli_device := Some "/dev/sdX"; cli_format := None;
     cli_label := None; cli_repair := true; cli_scan_badblocks := false;
     cli_force := false |}.

Definition scan_request : Cli :=
  {| cli_list := false; cli_device := Some "/dev/sdX"; cli_format := None;
     cli_label := None; cli_repair := false; cli_scan_badblocks := true;
     cli_force := false |}.

(** [--list --device /dev/sda --format ext4 --scan-badblocks]. *)
Definition list_request : Cli :=
  {| cli_list := true; cli_device := Some "/dev/sda"; cli_format := Some "ext4";
     cli_label := None; cli_repair := false; cli_scan_badblocks := true;
     cli_force := false |}.

(** An optical drive. *)
Definition sr0 : UdevDevice :=
  {| device_node := "/dev/sr0";
     properties := <[ "ID_TYPE" := "cd" ]> {[ "ID_BUS" := "ata" ]};
     attributes := <[ "size" := 2097151 ]> {[ "removable" := 1 ]} |}.

(** [desk] with an optical drive besides. *)
Definition desk_with_cd : World :=
  {| euid := 0; path_exists := path_exists desk;
     udev_disks := [sda; sr0; sdX];
     proc_rc := fun _ => 0; proc_stdout := fun _ => "" |}.

(** What [blkid] prints for a FAT32 volume: [vfat] and a line feed. *)
Definition vfat_line : string := "vfat" +:+ String (ascii_of_nat 10) "".

(** The mode a parsed command line selects once the safety check has
    passed. *)
Definition acts_on_device (cli : Cli) : bool :=
  truthy (cli_format cli) || cli_repair cli || cli_scan_badblocks cli.

End UsbModesVocabulary.

Section SizeVocabulary.

(** The fold that [int(...)] and the lexer run over a digit string,
    from the value [a] read so far. *)
Definition read_digits (ds : list ascii) (a : Z) : Z :=
  fold_left (fun a d => 10 * a + digit_value d) ds a.

Definition starts_with_digit (s : string) : bool :=
  match s with
  | String c _ => is_digit c
  | EmptyString => false
  end.

(** The text of an optional character. *)
Definition opt_text (o : option ascii) : string :=
  match o with
  | Some c => String c EmptyString
  | None => EmptyString
  end.

(** Every character of [s] is in the class [c]. *)
Definition in_class (c : ascii -> bool) (s : string) : Prop :=
  forallb c (list_ascii_of_string s) = true.

Definition opt_in_class (c : ascii -> bool) (o : option ascii) : Prop :=
  match o with
  | Some ch => c ch = true
  | None => True
  end.

(** The language of [\s*([0-9+\-*/() ]+)([MmGg])?[iI]?[Bb]?\s*], read
    off the pattern: blanks, a non-empty run over the arithmetic
    alphabet, at most one of each suffix letter in that order, blanks. *)
Definition size_pattern (value : string) : Prop :=
  exists (ws1 body : string) (unit i b : option ascii) (ws2 : string),
    value = ws1 +:+ body +:+ opt_text unit +:+ opt_text i +:+ opt_text b +:+ ws2
    /\ in_class is_space ws1
    /\ body <> "" /\ in_class Regex.arith_char body
    /\ opt_in_class (Regex.one_of "MmGg") unit
    /\ opt_in_class (Regex.one_of "iI") i
    /\ opt_in_class (Regex.one_of "Bb") b
    /\ in_class is_space ws2.

(** The characters the pattern can consume at all. *)
Definition size_char (c : ascii) : bool :=
  is_space c || Regex.arith_char c || Regex.one_of "MmGgiIBb" c.

(** A 7-bit character; the matcher and Python's [re] agree on these. *)
Definition is_ascii7 (c : ascii) : bool := (nat_of_ascii c <? 128)%nat.

End SizeVocabulary.

Section EraseVocabulary.

(** The child-process events of a whole erase run, as the pass loop
    and the target loop produce them together: for each target that
    exists, in order, the passes of [passes_trace] on that target, the
    children numbered on from [k]; nothing for a missing target. *)
Fixpoint target_procs (w : World) (source : string) (bs : pyvalue) (n : nat)
         (tgts : list string) (k : nat) : list event :=
  match tgts with
  | [] => []
  | tgt :: rest =>
      if path_exists w tgt then
        let rcs := observed w n k in
        passes_trace (dd_cmd source tgt bs) rcs
        ++ target_procs w source bs n rest (k + length rcs)
      else target_procs w source bs n rest k
  end.

(** The source device the command line selects. *)
Definition source_of (argv : Argv) : string :=
  if opt_random argv then "/dev/urandom" else "/dev/zero".

(** The number of passes a pass count stands for. *)
Definition pass_count (passes : pyvalue) : nat := Z.to_nat (int_of passes).


(** [-r -p 3 /dev/sdX]. *)
Definition erase_random : Argv :=
  {| opt_zero := false; opt_random := true; opt_passes := Some "3";
     opt_bs := None; opt_targets := ["/dev/sdX"] |}.


Definition erase_nothing : Argv :=
  {| opt_zero := true; opt_random := false; opt_passes := None;
     opt_bs := None; opt_targets := [] |}.

End EraseVocabulary.

Section WrapperVocabulary.
Import Dcfldd DcflddArgs.

(** The number of words that look like long options. *)
Definition count_long (args : list string) : nat :=
  length (List.filter is_long args).

(** The globals after [-y -v -i /dev/sdX -o stick.dd -b 1K], were [-v]
    to get through. *)
Definition copy_stick : Opts :=
  {| INPUT := "/dev/sdX"; OUTPUT := "stick.dd"; BLOCKSIZE := "1K";
     HASHES := "sha256"; STATUS_INTERVAL := "1"; JSON_REPORT := "report.json";
     VERBOSE := 1; AUTO_YES := true; DRY_RUN := false; COUNT := None;
     VERIFY_ONLY := false |}.

(** The fourth example of the usage text:
    [--verify -i /dev/sdb -o /dev/null -H sha256]. *)
Definition verify_example : list string :=
  ["--verify"; "-i"; "/dev/sdb"; "-o"; "/dev/null"; "-H"; "sha256"].

End WrapperVocabulary.

(* ================================================================== *)
(** * Laws of the trace monad *)
(* ================================================================== *)

Lemma bind_ret_l {E A B : Type} (a : A) (k : A -> M E B) :
  bind (ret a) k = k a.
Proof. unfold bind, ret. destruct (k a) as [t r]. reflexivity. Qed.

Lemma bind_raised {E A B : Type} (t : list E) (e : exn) (k : A -> M E B) :
  bind (t, inl e) k = (t, inl e).
Proof. reflexivity. Qed.

Lemma trace_bind {E A B : Type} (m : M E A) (k : A -> M E B) :
  trace (bind m k)
  = trace m ++ match outcome m with inr a => trace (k a) | inl _ => [] end.
Proof.
  destruct m as [t [e|a]]; simpl; [by rewrite app_nil_r|].
  destruct (k a) as [t' r]. reflexivity.
Qed.

Lemma outcome_bind {E A B : Type} (m : M E A) (k : A -> M E B) :
  outcome (bind m k)
  = match outcome m with inr a => outcome (k a) | inl e => inl e end.
Proof.
  destruct m as [t [e|a]]; simpl; [reflexivity|].
  destruct (k a) as [t' r]. reflexivity.
Qed.

Lemma bind_emit {E B : Type} (ev : E) (k : unit -> M E B) :
  bind (emit ev) k = (ev :: trace (k tt), outcome (k tt)).
Proof. unfold bind, emit. destruct (k tt) as [t r]. reflexivity. Qed.

Lemma bind_returned {E A B : Type} (t : list E) (a : A) (k : A -> M E B) :
  bind (t, inr a) k = (t ++ trace (k a), outcome (k a)).
Proof. unfold bind, trace, outcome. destruct (k a) as [t' r]. reflexivity. Qed.

(* ================================================================== *)
(** * Properties of the filesystem registry *)
(* ================================================================== *)

Lemma lower_char_idemp (c : ascii) : lower_char (lower_char c) = lower_char c.
Proof.
  destruct c as [[] [] [] [] [] [] [] []]; reflexivity.
Qed.

Lemma lower_idemp (s : string) : lower (lower s) = lower s.
Proof.
  induction s as [|c s IH]; simpl; [reflexivity|].
  by rewrite lower_char_idemp, IH.
Qed.

Lemma lower_char_upper_char (c : ascii) : lower_char (upper_char c) = lower_char c.
Proof.
  destruct c as [[] [] [] [] [] [] [] []]; reflexivity.
Qed.

Lemma lower_upper (s : string) : lower (upper s) = lower s.
Proof.
  induction s as [|c s IH]; simpl; [reflexivity|].
  by rewrite lower_char_upper_char, IH.
Qed.

(** The table holds exactly the three back-ends, each under its name. *)
Lemma FS_TABLE_lookup (k : string) :
  UsbTool.FS_TABLE !! k =
    if decide (k = "fat32") then Some UsbTool.FAT32Backend
    else if decide (k = "ext4") then Some UsbTool.EXT4Backend
    else if decide (k = "ntfs") then Some UsbTool.NTFSBackend
    else None.
Proof.
  unfold UsbTool.FS_TABLE. simpl.
  repeat case_decide; simplify_map_eq; reflexivity.
Qed.

Lemma FS_TABLE_None (k : string) :
  UsbTool.FS_TABLE !! k = None <-> k ∉ ["fat32"; "ext4"; "ntfs"].
Proof.
  rewrite FS_TABLE_lookup. rewrite !not_elem_of_cons.
  repeat case_decide; split; intros Hk; try discriminate; try tauto.
  repeat split; try assumption. apply not_elem_of_nil.
Qed.

(** C6.  Registry resolution lowers the kind before the lookup:
    ["FAT32"] and ["fat32"] resolve to the same back-end, a kind
    resolves to whatever its lower-case or upper-case spelling resolves
    to, and the lookup ends in the "Unsupported filesystem" exit exactly
    when the lowered kind is none of fat32, ext4 and ntfs. *)
Theorem fs_backend_case_insensitive :
  @UsbTool.fs_backend UsbTool.event "FAT32" = UsbTool.fs_backend "fat32"
  /\ @UsbTool.fs_backend UsbTool.event "fat32" = ret UsbTool.FAT32Backend
  /\ (forall (s : string) (b : UsbTool.FSBackend),
         @UsbTool.fs_backend UsbTool.event s = ret b
         <-> @UsbTool.fs_backend UsbTool.event (lower s) = ret b)
  /\ (forall (s : string) (b : UsbTool.FSBackend),
         @UsbTool.fs_backend UsbTool.event s = ret b
         <-> @UsbTool.fs_backend UsbTool.event (upper s) = ret b)
  /\ (forall s : string,
         @UsbTool.fs_backend UsbTool.event s
         = raise (SystemExit ("Unsupported filesystem '" +:+ s +:+ "'"))
         <-> lower s ∉ ["fat32"; "ext4"; "ntfs"])
  /\ (forall s : string,
         lower s ∈ ["fat32"; "ext4"; "ntfs"]
         <-> exists b, @UsbTool.fs_backend UsbTool.event s = ret b
                       /\ UsbTool.fs_name b = lower s).
Proof.
  split; [reflexivity|]. split; [reflexivity|].
  split; [|split; [|split]].
  - intros s b. unfold UsbTool.fs_backend. rewrite lower_idemp.
    destruct (UsbTool.FS_TABLE !! lower s); split; intros H;
      first [exact H | discriminate H].
  - intros s b. unfold UsbTool.fs_backend. rewrite lower_upper.
    destruct (UsbTool.FS_TABLE !! lower s); split; intros H;
      first [exact H | discriminate H].
  - intros s. rewrite <- FS_TABLE_None. unfold UsbTool.fs_backend.
    destruct (UsbTool.FS_TABLE !! lower s); split; intros H;
      first [reflexivity | discriminate H].
  - intros s. unfold UsbTool.fs_backend. rewrite FS_TABLE_lookup.
    rewrite !elem_of_cons, elem_of_nil.
    repeat case_decide; split.
    all: try (intros _; eexists; split; [reflexivity|]; simpl; congruence).
    all: try (intros _; tauto).
    + intros [?|[?|[?|[]]]]; congruence.
    + intros (b & Hb & _). discriminate Hb.
Qed.

(* ================================================================== *)
(** * Properties of the safety check of usb_tool.py *)
(* ================================================================== *)

Section SanityCheck.
Import UsbTool.

Lemma sanity_check_unfold (w : World) (device : string) (force : bool) :
  sanity_check w device force =
    if negb (path_exists w device) then
      ([EvStat device], inl (SystemExit (msg_not_exist device)))
    else if negb (startswith device "/dev/") then
      ([EvStat device], inl (SystemExit msg_not_dev))
    else if negb (looks_removable (block_devices w) device) && negb force then
      ([EvStat device; EvUdevList], inl (SystemExit (msg_not_removable device)))
    else ([EvStat device; EvUdevList], inr tt).
Proof.
  unfold sanity_check, list_block_devices. simpl.
  destruct (path_exists w device); simpl; [|reflexivity].
  destruct (startswith device "/dev/"); simpl; [|reflexivity].
  destruct (looks_removable (block_devices w) device), force; reflexivity.
Qed.

Lemma parse_args_ok (w : World) (cli : Cli) :
  format_ok cli -> parse_args cli = ret cli.
Proof.
  unfold format_ok, parse_args. destruct (cli_format cli) as [f|]; [|reflexivity].
  intros Hf. rewrite bool_decide_eq_true_2 by exact Hf. reflexivity.
Qed.

Lemma truthy_Some (s : string) : s <> "" -> truthy (Some s) = true.
Proof.
  intros Hs. simpl. destruct (String.eqb_spec s ""); [contradiction|reflexivity].
Qed.

(** A rejected safety check is all a request does. *)
Lemma main_rejected (w : World) (cli : Cli) (device : string) (e : exn) :
  requests w cli device ->
  outcome (sanity_check w device (cli_force cli)) = inl e ->
  main w cli = (trace (sanity_check w device (cli_force cli)), inl e).
Proof.
  intros (Hroot & Hfmt & Hlist & Hdev & Hne) Hout.
  unfold main. rewrite (parse_args_ok w) by exact Hfmt. simpl.
  rewrite Hroot, Hlist, Hdev. rewrite truthy_Some by exact Hne. simpl.
  destruct (sanity_check w device (cli_force cli)) as [t r].
  simpl in Hout. subst r. reflexivity.
Qed.

Lemma looks_removable_false (devs : list BlockDev) (device : string) :
  (forall d, In d devs -> name d = device -> removable d = false)
  <-> looks_removable devs device = false.
Proof.
  unfold looks_removable. split.
  - intros H. apply not_true_is_false. intros Hex.
    apply existsb_exists in Hex as (d & Hin & Hd).
    apply andb_true_iff in Hd as [Hn Hr].
    apply String.eqb_eq in Hn. rewrite (H d Hin Hn) in Hr. discriminate.
  - intros H d Hin Hn. apply not_true_is_false. intros Hr.
    assert (existsb (fun d => String.eqb (name d) device && removable d) devs = true)
      as Hex; [|congruence].
    apply existsb_exists. exists d. split; [exact Hin|].
    rewrite Hr, andb_true_r. by apply String.eqb_eq.
Qed.

End SanityCheck.

Section SanityCheckClaims.
Import UsbTool.

Lemma sanity_trace_no_run (w : World) (device : string) (force : bool) :
  List.filter is_run (trace (sanity_check w device force)) = [].
Proof.
  rewrite sanity_check_unfold.
  repeat match goal with |- context [if ?b then _ else _] => destruct b end;
    reflexivity.
Qed.

Lemma block_devices_node (w : World) (d : BlockDev) :
  In d (block_devices w) ->
  exists dev, In dev (udev_disks w) /\ name d = device_node dev.
Proof.
  unfold block_devices. intros Hin.
  apply in_map_iff in Hin as (dev & <- & Hdev).
  apply filter_In in Hdev as [Hdev _].
  exists dev. split; [exact Hdev | reflexivity].
Qed.

Lemma sanity_check_forced (w : World) (device : string) :
  outcome (sanity_check w device true) = inr tt
  <-> path_exists w device = true /\ startswith device "/dev/" = true.
Proof.
  rewrite sanity_check_unfold.
  destruct (path_exists w device), (startswith device "/dev/"); simpl;
    try (split; [discriminate | intros [? ?]; discriminate]).
  rewrite andb_false_r. simpl. tauto.
Qed.

Lemma sanity_check_unforced (w : World) (device : string) :
  outcome (sanity_check w device false) = inr tt
  <-> path_exists w device = true /\ startswith device "/dev/" = true
      /\ looks_removable (block_devices w) device = true.
Proof.
  rewrite sanity_check_unfold.
  destruct (path_exists w device), (startswith device "/dev/"),
    (looks_removable (block_devices w) device); simpl;
    try (split; [discriminate | intros (? & ? & ?); discriminate]).
  tauto.
Qed.

(** C1.  A device that udev does not list as removable is refused when
    [force] is off: the safety check ends in one of its three exits, it
    has run no command by then, and a request that reaches it exits
    with status 1 without having run any.  With [force] on the check
    passes for every existing path under [/dev/] (so for every device
    udev lists, removable or not). *)
Theorem sanity_check_removable_gate :
  (forall (w : World) (device : string),
      (forall d, In d (block_devices w) -> name d = device -> removable d = false) ->
      (exists msg,
          outcome (sanity_check w device false) = inl (SystemExit msg)
          /\ In msg [msg_not_exist device; msg_not_dev; msg_not_removable device])
      /\ List.filter is_run (trace (sanity_check w device false)) = []
      /\ (forall cli, requests w cli device -> cli_force cli = false ->
            exit_status (outcome (main w cli)) = 1
            /\ List.filter is_run (trace (main w cli)) = []))
  /\ (forall (w : World) (device : string),
        path_exists w device = true -> startswith device "/dev/" = true ->
        outcome (sanity_check w device true) = inr tt)
  /\ (forall (w : World) (d : BlockDev),
        udev_coherent w -> In d (block_devices w) ->
        outcome (sanity_check w (name d) true) = inr tt).
Proof.
  split; [|split].
  - intros w device Hnr. apply looks_removable_false in Hnr.
    assert (exists msg,
               outcome (sanity_check w device false) = inl (SystemExit msg)
               /\ In msg [msg_not_exist device; msg_not_dev; msg_not_removable device])
      as (msg & Hout & Hmsg).
    { rewrite sanity_check_unfold, Hnr.
      destruct (path_exists w device); simpl; [|eauto].
      destruct (startswith device "/dev/"); simpl; eauto 6. }
    split; [eauto|]. split; [apply sanity_trace_no_run|].
    intros cli Hreq Hforce.
    rewrite (main_rejected w cli device (SystemExit msg) Hreq)
      by (rewrite Hforce; exact Hout).
    split; [reflexivity|]. apply sanity_trace_no_run.
  - intros w device Hex Hpre. apply sanity_check_forced. by split.
  - intros w d Hcoh Hin.
    apply block_devices_node in Hin as (dev & Hdev & ->).
    apply sanity_check_forced. by apply Hcoh.
Qed.

(** Witness for C1 on [desk]: the internal disk is refused without
    [--force] and accepted with it. *)
Lemma sanity_check_removable_gate_witness :
  (exists msg,
      outcome (sanity_check desk "/dev/sda" false) = inl (SystemExit msg)
      /\ In msg [msg_not_exist "/dev/sda"; msg_not_dev; msg_not_removable "/dev/sda"])
  /\ outcome (sanity_check desk "/dev/sda" true) = inr tt.
Proof.
  destruct sanity_check_removable_gate as (Hoff & Hon & _).
  split.
  - apply (Hoff desk "/dev/sda").
    intros d [<-|[<-|[]]]; [reflexivity | intros Hn; discriminate Hn].
  - apply (Hon desk "/dev/sda"); reflexivity.
Defined.

(** C9.  [force] leaves the first two checks in place: a path that does
    not exist or does not start with [/dev/] ends the safety check, and
    a request that reaches it, with exit status 1 and no command run,
    whatever [force] is.  With [force] the check passes exactly when
    both hold; without it the device must look removable as well. *)
Theorem force_keeps_path_checks :
  (forall (w : World) (device : string) (force : bool),
      path_exists w device = false \/ startswith device "/dev/" = false ->
      (exists msg,
          outcome (sanity_check w device force) = inl (SystemExit msg)
          /\ In msg [msg_not_exist device; msg_not_dev])
      /\ (forall cli, requests w cli device -> cli_force cli = force ->
            exit_status (outcome (main w cli)) = 1
            /\ List.filter is_run (trace (main w cli)) = []))
  /\ (forall (w : World) (device : string),
        outcome (sanity_check w device true) = inr tt
        <-> path_exists w device = true /\ startswith device "/dev/" = true)
  /\ (forall (w : World) (device : string),
        outcome (sanity_check w device false) = inr tt
        <-> path_exists w device = true /\ startswith device "/dev/" = true
            /\ looks_removable (block_devices w) device = true).
Proof.
  split; [|split; [exact sanity_check_forced | exact sanity_check_unforced]].
  intros w device force Hbad.
  assert (exists msg,
             outcome (sanity_check w device force) = inl (SystemExit msg)
             /\ In msg [msg_not_exist device; msg_not_dev])
    as (msg & Hout & Hmsg).
  { rewrite sanity_check_unfold.
    destruct (path_exists w device); simpl; [|eauto].
    destruct Hbad as [Hbad|Hbad]; [discriminate|]. rewrite Hbad. simpl. eauto. }
  split; [eauto|].
  intros cli Hreq Hforce.
  rewrite (main_rejected w cli device (SystemExit msg) Hreq)
    by (rewrite Hforce; exact Hout).
  split; [reflexivity|]. apply sanity_trace_no_run.
Qed.

(** Witness for C9 on [desk]: forcing neither a missing node nor a file
    outside [/dev/]. *)
Lemma force_keeps_path_checks_witness :
  (exists msg,
      outcome (sanity_check desk "/dev/sdz" true) = inl (SystemExit msg)
      /\ In msg [msg_not_exist "/dev/sdz"; msg_not_dev])
  /\ (exists msg,
      outcome (sanity_check desk "/etc/fstab" true) = inl (SystemExit msg)
      /\ In msg [msg_not_exist "/etc/fstab"; msg_not_dev]).
Proof.
  destruct force_keeps_path_checks as (Hbad & _).
  split.
  - apply (Hbad desk "/dev/sdz" true). left. reflexivity.
  - apply (Hbad desk "/etc/fstab" true). right. reflexivity.
Defined.

End SanityCheckClaims.

Section FormatClaims.
Import UsbTool.

Lemma FS_TABLE_keys (fs : string) (b : FSBackend) :
  FS_TABLE !! fs = Some b ->
  (fs = "fat32" /\ b = FAT32Backend) \/ (fs = "ext4" /\ b = EXT4Backend)
  \/ (fs = "ntfs" /\ b = NTFSBackend).
Proof.
  rewrite FS_TABLE_lookup. repeat case_decide; intros Hb; simplify_eq; tauto.
Qed.

(** C8.  A format request that passes the safety check runs the three
    partitioning commands on the device (new GPT label, one primary
    partition from 1MiB to 100%, partprobe) and then the back-end's
    mkfs command, with [-n label] when a label is given, on the
    partition [device1]: whatever the commands' fates, what has run is
    an initial part of that sequence, and it is the whole of it when
    the partitioning commands succeed. *)
Theorem format_repartitions_then_mkfs
        (w : World) (cli : Cli) (device fs : string) (b : FSBackend) :
  requests w cli device ->
  outcome (sanity_check w device (cli_force cli)) = inr tt ->
  cli_format cli = Some fs ->
  FS_TABLE !! fs = Some b ->
  let plan := repartition_cmds device fs
              ++ [mkfs_for b (cli_label cli) (device +:+ "1")] in
  fs_name b = fs
  /\ (exists n, commands_run (trace (main w cli)) = take n plan)
  /\ ((forall c, In c (repartition_cmds device fs) -> proc_rc w c = 0) ->
      commands_run (trace (main w cli)) = plan).
Proof.
  intros (Hroot & Hfmt & Hlist & Hdev & Hne) Hsafe Hf Hb plan.
  assert (Hfs : fs_name b = fs /\ truthy (Some fs) = true
                /\ @fs_backend event fs = ret b).
  { apply FS_TABLE_keys in Hb as [[-> ->]|[[-> ->]|[-> ->]]];
      repeat split; reflexivity. }
  destruct Hfs as (Hname & Htruthy & Hbackend).
  split; [exact Hname|].
  unfold main. rewrite (parse_args_ok w) by exact Hfmt. rewrite bind_ret_l.
  rewrite Hroot, Hlist, Hdev. rewrite truthy_Some by exact Hne.
  cbv beta iota zeta delta [negb default id from_option].
  rewrite Hf, Htruthy.
  rewrite sanity_check_unfold in Hsafe |- *.
  destruct (path_exists w device); [|discriminate Hsafe].
  destruct (startswith device "/dev/"); [|discriminate Hsafe].
  cbn [negb] in Hsafe |- *.
  destruct (negb (looks_removable (block_devices w) device) && negb (cli_force cli));
    [discriminate Hsafe|].
  rewrite bind_returned. cbv beta. rewrite Hbackend, bind_ret_l.
  subst plan. unfold repartition_cmds, mkfs_for, commands_run.
  unfold create_single_partition, format, sh.
  destruct (proc_rc w ["parted"; "-s"; device; "mklabel"; "gpt"] =? 0) eqn:E1;
    simpl;
    [|split; [by exists 1%nat|];
      intros Hok; rewrite Hok in E1 by (simpl; tauto); discriminate E1].
  destruct (proc_rc w ["parted"; "-s"; device; "mkpart"; "primary"; fs;
                       "1MiB"; "100%"] =? 0) eqn:E2;
    simpl;
    [|split; [by exists 2%nat|];
      intros Hok; rewrite Hok in E2 by (simpl; tauto); discriminate E2].
  destruct (proc_rc w ["partprobe"; device] =? 0) eqn:E3;
    simpl;
    [|split; [by exists 3%nat|];
      intros Hok; rewrite Hok in E3 by (simpl; tauto); discriminate E3].
  match goal with
  | |- context [proc_rc w ?c =? 0] => destruct (proc_rc w c =? 0)
  end; simpl; (split; [by exists 4%nat | intros _; reflexivity]).
Qed.

(** Witness for C8: formatting the stick [/dev/sdX] of [desk] as fat32
    with the label DATA. *)
Lemma format_repartitions_then_mkfs_witness :
  commands_run (trace (main desk format_request))
  = [ ["parted"; "-s"; "/dev/sdX"; "mklabel"; "gpt"];
      ["parted"; "-s"; "/dev/sdX"; "mkpart"; "primary"; "fat32"; "1MiB"; "100%"];
      ["partprobe"; "/dev/sdX"];
      ["mkfs.fat"; "-F"; "32"; "-n"; "DATA"; "/dev/sdX1"] ].
Proof.
  apply (format_repartitions_then_mkfs desk format_request "/dev/sdX" "fat32"
                                       FAT32Backend).
  - repeat split; [by eexists | discriminate].
  - reflexivity.
  - reflexivity.
  - reflexivity.
  - intros c _. reflexivity.
Defined.

(** The run above still ends in an exception: the closing message is
    built by [colored(msg, "green")], which passes the keyword-only
    colour positionally. *)
Lemma format_closing_message_raises :
  outcome (main desk format_request)
  = inl (TypeError "colored() takes 1 positional argument but 2 were given").
Proof. reflexivity. Qed.

End FormatClaims.

(* ================================================================== *)
(** * Properties of the pass loop *)
(* ================================================================== *)

Section PassLoop.
Variable w : World.

Lemma proc_events_app (t1 t2 : list event) :
  proc_events (t1 ++ t2) = proc_events t1 ++ proc_events t2.
Proof. apply List.filter_app. Qed.

Lemma proc_events_progress (lines : list string) :
  proc_events (progress_updates lines) = [].
Proof.
  unfold proc_events, progress_updates.
  induction lines as [|l lines IH]; [reflexivity|].
  simpl. destruct (Regex.leading_int l); simpl; exact IH.
Qed.


(** The loop of wipe-rich.py sees exactly the observed return codes. *)
Lemma rich_wipe_passes_observed (path source : string) (bs passes : pyvalue)
      (ps : list Z) (k : nat) :
  proc_events (fst (WipeRich.wipe_passes w path source bs passes ps k))
  = passes_trace (dd_cmd source path bs) (observed w (length ps) k).
Proof.
  revert k. induction ps as [|p ps IH]; intros k; [reflexivity|].
  simpl. destruct (dd w k) as [lines rc] eqn:Hdd. simpl.
  destruct (rc =? 0) eqn:Hrc; simpl.
  - specialize (IH (S k)).
    destruct (WipeRich.wipe_passes w path source bs passes ps (S k)) as [t k'].
    cbn [fst] in *. rewrite <- IH.
    change (proc_events (EvLog ?m :: EvSpawn ?c :: ?l))
      with (EvSpawn c :: proc_events l).
    rewrite !proc_events_app, proc_events_progress. reflexivity.
  - cbn [fst].
    change (proc_events (EvLog ?m :: EvSpawn ?c :: ?l))
      with (EvSpawn c :: proc_events l).
    rewrite !proc_events_app, proc_events_progress. reflexivity.
Qed.

(** So does the loop of secure-wipe-rich.py. *)
Lemma secure_wipe_passes_observed (path source : string) (bs : pyvalue)
      (ps : list Z) (k : nat) :
  proc_events (fst (SecureWipe.wipe_passes w path source bs ps k))
  = passes_trace (dd_cmd source path bs) (observed w (length ps) k).
Proof.
  revert k. induction ps as [|p ps IH]; intros k; [reflexivity|].
  simpl. destruct (dd w k) as [lines rc] eqn:Hdd. simpl.
  destruct (rc =? 0) eqn:Hrc; simpl.
  - specialize (IH (S k)).
    destruct (SecureWipe.wipe_passes w path source bs ps (S k)) as [t k'].
    cbn [fst] in *. rewrite <- IH.
    change (proc_events (EvSpawn ?c :: ?l)) with (EvSpawn c :: proc_events l).
    rewrite !proc_events_app, proc_events_progress. reflexivity.
  - cbn [fst].
    change (proc_events (EvSpawn ?c :: ?l)) with (EvSpawn c :: proc_events l).
    rewrite !proc_events_app, proc_events_progress. reflexivity.
Qed.





End PassLoop.



(* ================================================================== *)
(** * Properties of the erase commands *)
(* ================================================================== *)

Section EraseCommands.

Lemma parse_numeric_raises : raises_type_errors WipeRich.parse_numeric.
Proof.
  intros s e. unfold WipeRich.parse_numeric.
  destruct (Regex.size_fullmatch s) as [[body suff]|]; [|intros [= <-]; eauto].
  destruct (literal_of body) as [v|]; [|intros [= <-]; eauto].
  destruct (negb (isinstance_int v) || (int_of v <? 1)); [intros [= <-]; eauto|].
  destruct suff; discriminate.
Qed.

Lemma parse_size_raises : raises_type_errors SecureWipe.parse_size.
Proof.
  intros s e. unfold SecureWipe.parse_size.
  destruct (Regex.size_fullmatch s) as [[body suff]|]; [|intros [= <-]; eauto].
  destruct (literal_of body) as [v|]; [|intros [= <-]; eauto].
  destruct suff as [u|]; [destruct (Ascii.eqb (lower_char u) "m")|]; discriminate.
Qed.

Lemma parse_passes_raises (py_literal : string -> option pyvalue) :
  raises_type_errors (SecureWipe.parse_passes py_literal).
Proof.
  intros s e. unfold SecureWipe.parse_passes.
  destruct (py_literal s) as [v|]; [|intros [= <-]; eauto].
  destruct (negb (isinstance_int v) || (int_of v <? 1)); [intros [= <-]; eauto|].
  discriminate.
Qed.

Lemma convert_shape {A : Type} (flag : string) (r : result A) :
  (forall e, r = inl e -> exists msg, e = ArgumentTypeError msg) ->
  (exists a, convert flag r = ret a /\ r = inr a)
  \/ (exists msg, convert flag r = raise (ArgparseError msg)).
Proof.
  intros Hr. destruct r as [e|a]; [|left; by exists a].
  destruct (Hr e eq_refl) as [msg ->]. right. simpl. eauto.
Qed.

(** Argument parsing touches nothing: it returns a namespace or ends in
    an argparse error, with no event either way. *)
Lemma parse_args_with_shape (conv_passes conv_bs : string -> result pyvalue)
      (default_bs : pyvalue) (positional : string) (argv : Argv) :
  raises_type_errors conv_passes -> raises_type_errors conv_bs ->
  (exists args, parse_args_with conv_passes conv_bs default_bs positional argv
                = ret args)
  \/ (exists msg, parse_args_with conv_passes conv_bs default_bs positional argv
                  = raise (ArgparseError msg)).
Proof.
  intros Hp Hb. unfold parse_args_with.
  assert (Hpass :
    (exists v, match opt_passes argv with
               | Some s => convert "-p/--passes" (conv_passes s)
               | None => ret (PyInt 1)
               end = ret v)
    \/ (exists msg, match opt_passes argv with
                    | Some s => convert "-p/--passes" (conv_passes s)
                    | None => ret (PyInt 1)
                    end = raise (ArgparseError msg))).
  { destruct (opt_passes argv) as [s|]; [|left; eauto].
    destruct (convert_shape "-p/--passes" (conv_passes s) (Hp s))
      as [(v & Hv & _)|[msg Hm]]; eauto. }
  destruct Hpass as [[v ->]|[msg ->]]; [|right; eauto].
  rewrite bind_ret_l.
  assert (Hbs :
    (exists v, match opt_bs argv with
               | Some s => convert "-b/--bs" (conv_bs s)
               | None => ret default_bs
               end = ret v)
    \/ (exists msg, match opt_bs argv with
                    | Some s => convert "-b/--bs" (conv_bs s)
                    | None => ret default_bs
                    end = raise (ArgparseError msg))).
  { destruct (opt_bs argv) as [s|]; [|left; eauto].
    destruct (convert_shape "-b/--bs" (conv_bs s) (Hb s))
      as [(v' & Hv & _)|[msg Hm]]; eauto. }
  destruct Hbs as [[v' ->]|[msg ->]]; [|right; eauto].
  rewrite bind_ret_l.
  destruct (opt_zero argv && opt_random argv); [right; eauto|].
  case_bool_decide; [right; eauto | left; eauto].
Qed.

Lemma rich_parse_args_shape (argv : Argv) :
  (exists args, WipeRich.parse_args argv = ret args)
  \/ (exists msg, WipeRich.parse_args argv = raise (ArgparseError msg)).
Proof.
  unfold WipeRich.parse_args.
  change (lift (WipeRich.parse_numeric "1M")) with (@ret event _ (PyInt 1048576)).
  rewrite bind_ret_l.
  apply parse_args_with_shape; apply parse_numeric_raises.
Qed.

Lemma secure_parse_args_shape (py_literal : string -> option pyvalue)
      (argv : Argv) :
  (exists args, SecureWipe.parse_args py_literal argv = ret args)
  \/ (exists msg, SecureWipe.parse_args py_literal argv
                  = raise (ArgparseError msg)).
Proof.
  unfold SecureWipe.parse_args.
  change (lift (SecureWipe.parse_size "1M")) with (@ret event _ (PyInt 1048576)).
  rewrite bind_ret_l.
  apply parse_args_with_shape; [apply parse_passes_raises | apply parse_size_raises].
Qed.

(** What [main] of wipe-rich.py does with a parsed command line. *)
Lemma rich_main_parsed (w : World) (argv : Argv) (args : Args) :
  WipeRich.parse_args argv = ret args ->
  WipeRich.main_after_parser w argv =
    if negb (euid w =? 0) then
      ([EvPrint "[red]ERROR[/] Root privileges required."], inl (SystemExitCode 1))
    else
      (fst (WipeRich.for_targets w
              (if args_random args then "/dev/urandom" else "/dev/zero")
              (args_bs args) (args_passes args) (args_targets args) 0%nat)
       ++ [EvPrint "[green]Secure wipe completed successfully.[/]"], inr tt).
Proof.
  intros Hparse. unfold WipeRich.main_after_parser. rewrite Hparse, bind_ret_l.
  destruct (euid w =? 0); reflexivity.
Qed.

(** And [main_wipe] of secure-wipe-rich.py. *)
Lemma secure_main_parsed (py_literal : string -> option pyvalue)
      (w : World) (argv : Argv) (args : Args) :
  SecureWipe.parse_args py_literal argv = ret args ->
  SecureWipe.main_wipe py_literal w argv =
    if negb (euid w =? 0) then
      ([EvPrint "[red]ERROR[/] Must run as root."], inl (SystemExitCode 1))
    else
      (fst (SecureWipe.for_targets w
              (if args_random args then "/dev/urandom" else "/dev/zero")
              (args_bs args) (args_passes args) (args_targets args) 0%nat)
       ++ [EvPrint "[green]Secure wipe completed.[/]"], inr tt).
Proof.
  intros Hparse. unfold SecureWipe.main_wipe. rewrite Hparse, bind_ret_l.
  destruct (euid w =? 0); reflexivity.
Qed.





End EraseCommands.

Section EraseClaims.





End EraseClaims.

(* ================================================================== *)
(** * The parser does not depend on its fuel *)
(* ================================================================== *)

Section ParserFuel.
Local Open Scope nat_scope.

Lemma adequate_0 : adequate 0.
Proof. repeat split; intros; discriminate. Qed.

Lemma adequate_S f : adequate f -> adequate (S f).
Proof.
  intros (Hsum & Hsumr & Hterm & Htermr & Hfactor & Hpower & Hprimary & Htrail & Hatom).
  repeat apply conj.
  - (* sum *)
    intros ts e rest. cbn [p_sum].
    destruct (p_term f ts) as [[l r1]|] eqn:E1; [|discriminate]. cbn.
    intros E2.
    destruct (Hterm _ _ _ E1) as [L1 F1], (Hsumr _ _ _ _ E2) as [L2 F2].
    split; [lia|]. need_fuel f' g. cbn [p_sum].
    rewrite F1 by (unfold enough; lia). cbn. apply F2. unfold enough. lia.
  - (* sum_rest *)
    intros l ts e rest. cbn [p_sum_rest].
    destruct ts as [|[] ts']; try (intros [= <- <-]; split; [lia|];
      need_fuel f' g; reflexivity).
    + destruct (p_term f ts') as [[r r1]|] eqn:E1; [|discriminate]. cbn.
      intros E2.
      destruct (Hterm _ _ _ E1) as [L1 F1], (Hsumr _ _ _ _ E2) as [L2 F2].
      split; [cbn [length]; lia|]. need_fuel f' g. cbn [p_sum_rest].
      rewrite F1 by (unfold enough; lia). cbn. apply F2. unfold enough. lia.
    + destruct (p_term f ts') as [[r r1]|] eqn:E1; [|discriminate]. cbn.
      intros E2.
      destruct (Hterm _ _ _ E1) as [L1 F1], (Hsumr _ _ _ _ E2) as [L2 F2].
      split; [cbn [length]; lia|]. need_fuel f' g. cbn [p_sum_rest].
      rewrite F1 by (unfold enough; lia). cbn. apply F2. unfold enough. lia.
  - (* term *)
    intros ts e rest. cbn [p_term].
    destruct (p_factor f ts) as [[l r1]|] eqn:E1; [|discriminate]. cbn.
    intros E2.
    destruct (Hfactor _ _ _ E1) as [L1 F1], (Htermr _ _ _ _ E2) as [L2 F2].
    split; [lia|]. need_fuel f' g. cbn [p_term].
    rewrite F1 by (unfold enough; lia). cbn. apply F2. unfold enough. lia.
  - (* term_rest *)
    intros l ts e rest. cbn [p_term_rest].
    destruct ts as [|[] ts']; try (intros [= <- <-]; split; [lia|];
      need_fuel f' g; reflexivity).
    all: destruct (p_factor f ts') as [[r r1]|] eqn:E1; [|discriminate]; cbn;
      intros E2;
      destruct (Hfactor _ _ _ E1) as [L1 F1], (Htermr _ _ _ _ E2) as [L2 F2];
      (split; [cbn [length]; lia|]); need_fuel f' g; cbn [p_term_rest];
      rewrite F1 by (unfold enough; lia); cbn; apply F2; unfold enough; lia.
  - (* factor *)
    intros ts e rest. cbn [p_factor].
    destruct ts as [|[] ts'];
      try (intros E1; destruct (Hpower _ _ _ E1) as [L1 F1]; split; [exact L1|];
           need_fuel f' g; cbn [p_factor]; apply F1; unfold enough;
           cbn [length]; lia).
    all: destruct (p_factor f ts') as [[a r1]|] eqn:E1; [|discriminate]; cbn;
      intros [= <- <-]; destruct (Hfactor _ _ _ E1) as [L1 F1];
      (split; [cbn [length]; lia|]); need_fuel f' g; cbn [p_factor];
      rewrite F1 by (unfold enough; lia); reflexivity.
  - (* power *)
    intros ts e rest. cbn [p_power].
    destruct (p_primary f ts) as [[b r1]|] eqn:E1; [|discriminate]. cbn.
    destruct (Hprimary _ _ _ E1) as [L1 F1].
    destruct r1 as [|[] r1'];
      try (intros [= <- <-]; split; [exact L1|]; need_fuel f' g; cbn [p_power];
           rewrite F1 by (unfold enough; cbn [length]; lia); reflexivity).
    destruct (p_factor f r1') as [[x r2]|] eqn:E2; [|discriminate]. cbn.
    intros [= <- <-]. destruct (Hfactor _ _ _ E2) as [L2 F2].
    cbn [length] in *. split; [lia|]. need_fuel f' g. cbn [p_power].
    rewrite F1 by (unfold enough; cbn [length]; lia). cbn.
    rewrite F2 by (unfold enough; lia). reflexivity.
  - (* primary *)
    intros ts e rest. cbn [p_primary].
    destruct (p_atom f ts) as [[a r1]|] eqn:E1; [|discriminate]. cbn.
    intros E2.
    destruct (Hatom _ _ _ E1) as [L1 F1], (Htrail _ _ _ _ E2) as [L2 F2].
    split; [lia|]. need_fuel f' g. cbn [p_primary].
    rewrite F1 by (unfold enough; lia). cbn. apply F2. unfold enough. lia.
  - (* trailers *)
    intros a ts e rest. cbn [p_trailers].
    destruct ts as [|[] ts']; try (intros [= <- <-]; split; [lia|];
      need_fuel f' g; reflexivity).
    destruct ts' as [|[] ts''].
    all: try (destruct (p_sum f _) as [[x r1]|] eqn:E1; [|discriminate]; cbn;
      destruct (Hsum _ _ _ E1) as [L1 F1];
      destruct r1 as [|[] r1']; try discriminate;
      intros E2; destruct (Htrail _ _ _ _ E2) as [L2 F2];
      cbn [length] in *; (split; [lia|]); need_fuel f' g; cbn [p_trailers];
      rewrite F1 by (unfold enough; cbn [length]; lia); cbn;
      apply F2; unfold enough; lia).
    intros E2. destruct (Htrail _ _ _ _ E2) as [L2 F2].
    cbn [length] in *. split; [lia|]. need_fuel f' g. cbn [p_trailers].
    apply F2. unfold enough. lia.
  - (* atom *)
    intros ts e rest. cbn [p_atom].
    destruct ts as [|[] ts']; try discriminate.
    + intros [= <- <-]. cbn [length]. split; [lia|]. need_fuel f' g. reflexivity.
    + destruct ts' as [|[] ts''].
      all: try (destruct (p_sum f _) as [[x r1]|] eqn:E1; [|discriminate]; cbn;
        destruct (Hsum _ _ _ E1) as [L1 F1];
        destruct r1 as [|[] r1']; try discriminate;
        intros [= <- <-];
        cbn [length] in *; (split; [lia|]); need_fuel f' g; cbn [p_atom];
        rewrite F1 by (unfold enough; cbn [length]; lia); reflexivity).
      intros [= <- <-]. cbn [length]. split; [lia|]. need_fuel f' g. reflexivity.
Qed.

Lemma adequate_all f : adequate f.
Proof. induction f; [apply adequate_0 | by apply adequate_S]. Qed.

(** What any amount of fuel finds, [parse_fuel] finds. *)
Lemma parse_fuel_suffices (f : nat) (ts : list token) (r : expr * list token) :
  p_sum f ts = Some r -> p_sum (parse_fuel ts) ts = Some r.
Proof.
  destruct r as [e rest]. intros H. destruct (adequate_all f) as (Hsum & _).
  destruct (Hsum _ _ _ H) as [_ F]. apply F. unfold enough, parse_fuel. lia.
Qed.

End ParserFuel.

(* ================================================================== *)
(** * What the size regex captures *)
(* ================================================================== *)

Section RegexGroups.

Lemma string_app_nil_r (s : string) : s +:+ "" = s.
Proof.
  induction s as [|c s IH]; [reflexivity|].
  change (String c (s +:+ "") = String c s). by rewrite IH.
Qed.

Lemma string_app_assoc (s1 s2 s3 : string) :
  (s1 +:+ s2) +:+ s3 = s1 +:+ (s2 +:+ s3).
Proof.
  induction s1 as [|c s1 IH]; [reflexivity|].
  change (String c ((s1 +:+ s2) +:+ s3) = String c (s1 +:+ (s2 +:+ s3))).
  by rewrite IH.
Qed.

(** A star hands its continuation what it had plus characters of its
    class. *)
Lemma star_taken {R : Type} (c : ascii -> bool) (s : string) :
  forall (acc : string) (k : string -> string -> option R) (r : R),
    Regex.star c acc s k = Some r ->
    exists taken rest,
      k (acc +:+ taken) rest = Some r
      /\ forallb c (list_ascii_of_string taken) = true.
Proof.
  induction s as [|ch s IH]; intros acc k r H; simpl in H.
  - exists "", "". by rewrite string_app_nil_r.
  - destruct (c ch) eqn:Hc.
    + destruct (Regex.star c (acc +:+ String ch "") s k) as [r0|] eqn:Hin.
      * injection H as ->.
        destruct (IH _ _ _ Hin) as (taken & rest & Hk & Hall).
        exists (String ch taken), rest. rewrite string_app_assoc in Hk.
        split; [exact Hk|]. simpl. by rewrite Hc.
      * exists "", (String ch s). by rewrite string_app_nil_r.
    + exists "", (String ch s). by rewrite string_app_nil_r.
Qed.

Lemma opt_taken {R : Type} (c : ascii -> bool) (s : string)
      (k : option ascii -> string -> option R) (r : R) :
  Regex.opt c s k = Some r ->
  exists o rest,
    k o rest = Some r
    /\ match o with Some ch => c ch = true | None => True end.
Proof.
  unfold Regex.opt. destruct s as [|ch s].
  { intros H. by exists None, "". }
  destruct (c ch) eqn:Hc.
  2:{ intros H. by exists None, (String ch s). }
  destruct (k (Some ch) s) as [r0|] eqn:Hk.
  - intros [= <-]. by exists (Some ch), s.
  - intros H. by exists None, (String ch s).
Qed.

(** Group 1 of the size regex is a non-empty string over the
    arithmetic alphabet, and group 2, when present, is one of
    [M m G g]: [ast.parse] is only ever handed such text. *)
Lemma size_fullmatch_groups (value body : string) (unit : option ascii) :
  Regex.size_fullmatch value = Some (body, unit) ->
  body <> ""
  /\ forallb Regex.arith_char (list_ascii_of_string body) = true
  /\ match unit with
     | Some u => Regex.one_of "MmGg" u = true
     | None => True
     end.
Proof.
  unfold Regex.size_fullmatch. intros H.
  apply star_taken in H as (_ & s1 & H & _).
  unfold Regex.plus in H. destruct s1 as [|ch s1]; [discriminate|].
  destruct (Regex.arith_char ch) eqn:Hch; [|discriminate].
  apply star_taken in H as (taken & s2 & H & Htaken).
  apply opt_taken in H as (u & s3 & H & Hu).
  apply opt_taken in H as (_ & s4 & H & _).
  apply opt_taken in H as (_ & s5 & H & _).
  apply star_taken in H as (_ & s6 & H & _).
  unfold Regex.eos in H. destruct s6; [|discriminate].
  injection H as <- <-.
  change (String ch "" +:+ taken) with (String ch taken).
  split; [discriminate|]. split; [|exact Hu].
  simpl. by rewrite Hch, Htaken.
Qed.

End RegexGroups.

(* ================================================================== *)
(** * Properties of the size and pass-count parsers *)
(* ================================================================== *)

Section Parsers.

(** A literal that evaluates to an integer is worth that integer as
    arithmetic. *)
Lemma literal_eval_arith (e : expr) (n : Z) :
  literal_eval e = Some (PyInt n) -> arith_value e = Some n.
Proof.
  destruct e as [m|op a|l op r| |f|f k a]; simpl; try discriminate.
  - intros [= ->]. reflexivity.
  - destruct op, a; simpl; try discriminate; intros [= <-]; reflexivity.
  - destruct op; simpl; try discriminate;
      destruct (_convert_signed_num l); simpl; try discriminate;
      destruct (_convert_num r); discriminate.
Qed.

(** Over the arithmetic alphabet a literal is an integer or [()]. *)
Lemma literal_of_int_or_tuple (s : string) (v : pyvalue) :
  literal_of s = Some v -> (exists n, v = PyInt n) \/ v = PyEmptyTuple.
Proof.
  unfold literal_of. destruct (parse s) as [e|]; [|discriminate]. simpl.
  destruct e as [m|op a|l op r| |f|f k a]; simpl;
    try (intros [= <-]; eauto; fail);
    try (destruct (_convert_signed_num _); simpl; intros [= <-]; eauto; fail);
    try discriminate.
  - destruct op, a; simpl; try discriminate; intros [= <-]; eauto.
  - destruct op; simpl; try discriminate;
      destruct (_convert_signed_num l); simpl; try discriminate;
      destruct (_convert_num r); discriminate.
Qed.

(** What [parse_numeric] accepts: the body is an integer literal [n]
    of at least 1, worth [n] as arithmetic, and the result is [n] times
    the factor of the suffix. *)
Lemma parse_numeric_accepts (s : string) (v : pyvalue) :
  WipeRich.parse_numeric s = inr v ->
  exists body unit n,
    Regex.size_fullmatch s = Some (body, unit)
    /\ (parse body ≫= arith_value) = Some n
    /\ 1 <= n
    /\ v = PyInt (n * unit_factor unit)
    /\ 0 < n * unit_factor unit.
Proof.
  unfold WipeRich.parse_numeric.
  destruct (Regex.size_fullmatch s) as [[body unit]|]; [|discriminate].
  destruct (literal_of body) as [value|] eqn:Hlit; [|discriminate].
  destruct (literal_of_int_or_tuple body value Hlit) as [[n ->]| ->];
    [|discriminate].
  simpl. destruct (Z.ltb_spec n 1); [discriminate|].
  intros Hv. exists body, unit, n.
  split; [reflexivity|]. split.
  { unfold literal_of in Hlit. destruct (parse body) as [e|]; [|discriminate].
    simpl in *. by apply literal_eval_arith. }
  split; [lia|].
  assert (Hf : 0 < unit_factor unit).
  { unfold unit_factor. destruct unit as [u|]; [|lia].
    destruct (Ascii.eqb (lower_char u) "m"); lia. }
  split; [|nia].
  destruct unit as [u|]; simpl in *.
  - destruct (Ascii.eqb (lower_char u) "m"); injection Hv as <-; reflexivity.
  - injection Hv as <-. by rewrite Z.mul_1_r.
Qed.

(** What [parse_passes] accepts is an int (or [True]) of at least 1. *)
Lemma parse_passes_accepts (py_literal : string -> option pyvalue)
      (s : string) (v : pyvalue) :
  SecureWipe.parse_passes py_literal s = inr v ->
  py_literal s = Some v /\ isinstance_int v = true /\ 1 <= int_of v.
Proof.
  unfold SecureWipe.parse_passes.
  destruct (py_literal s) as [number|]; [|discriminate].
  destruct (isinstance_int number) eqn:Hint; simpl; [|discriminate].
  destruct (Z.ltb_spec (int_of number) 1); [discriminate|].
  intros [= <-]. repeat split; assumption.
Qed.

(** A size or a pass count that the converter rejects ends the run in
    argument parsing: status 2, and not one event. *)
Lemma rich_main_rejects_malformed (w : World) (argv : Argv) (s : string) (e : exn) :
  WipeRich.parse_numeric s = inl e ->
  opt_passes argv = Some s \/ (opt_passes argv = None /\ opt_bs argv = Some s) ->
  trace (WipeRich.main_after_parser w argv) = []
  /\ exit_status (outcome (WipeRich.main_after_parser w argv)) = 2.
Proof.
  intros Hbad Hwhere.
  destruct (parse_numeric_raises s e Hbad) as [msg ->].
  unfold WipeRich.main_after_parser, WipeRich.parse_args.
  change (lift (WipeRich.parse_numeric "1M")) with (@ret event _ (PyInt 1048576)).
  rewrite bind_ret_l. unfold parse_args_with.
  destruct Hwhere as [-> | [-> ->]]; rewrite Hbad; split; reflexivity.
Qed.

End Parsers.

(** C2, at the inputs where the code leaves it.  [parse_size] has no
    positivity test: it returns 0 for ["0"], a negative number for
    ["-1M"] and the empty tuple for ["()G"]; a block size of 0 goes
    all the way to the [dd] command line.  And the arithmetic the
    help text promises is refused: ["2*2"] and ["(1+3)"] are worth 4
    as arithmetic, yet [parse_numeric] and [parse_size] raise on
    them. *)
Theorem size_parsers_at_failing_inputs :
  SecureWipe.parse_size "0" = inr (PyInt 0)
  /\ SecureWipe.parse_size "-1M" = inr (PyInt (- 1048576))
  /\ SecureWipe.parse_size "()G" = inr PyEmptyTuple
  /\ In (EvSpawn ["dd"; "if=/dev/zero"; "of=/dev/sdX"; "bs=0"; "status=progress"])
        (trace (SecureWipe.main_wipe literal_of all_passes_succeed erase_bs_zero))
  /\ (parse "2*2" ≫= arith_value) = Some 4
  /\ WipeRich.parse_numeric "2*2"
     = inl (ArgumentTypeError "Cannot evaluate '2*2'")
  /\ (parse "(1+3)" ≫= arith_value) = Some 4
  /\ WipeRich.parse_numeric "(1+3)M"
     = inl (ArgumentTypeError "Cannot evaluate '(1+3)'")
  /\ SecureWipe.parse_size "2*1024M"
     = inl (ArgumentTypeError "Invalid arithmetic in size '2*1024'").
Proof.
  repeat split; try reflexivity.
  vm_compute. tauto.
Qed.

(* ================================================================== *)
(** * Properties of the imaging wrapper *)
(* ================================================================== *)

Section Imaging.
Import Dcfldd.

(** [bc]'s truncated quotient of [size + bs - 1] by [bs] is the least
    number of blocks that cover [size]. *)
Lemma rounded_up_quotient (size bs : Z) :
  0 <= size -> 0 < bs ->
  let n := (size + bs - 1) `quot` bs in
  (n - 1) * bs < size <= n * bs.
Proof.
  intros Hsize Hbs n. subst n.
  rewrite Z.quot_div_nonneg by lia.
  pose proof (Z.div_mod (size + bs - 1) bs ltac:(lia)) as Hdm.
  pose proof (Z.mod_pos_bound (size + bs - 1) bs Hbs) as Hm.
  nia.
Qed.

Lemma wrap64_in_range (z : Z) : - 2 ^ 63 <= z < 2 ^ 63 -> wrap64 z = z.
Proof.
  intros Hz. unfold wrap64. rewrite Z.mod_small by lia. lia.
Qed.

(** Whatever the state of the globals, the summary, the copy command
    and the report that [body] produces carry their block arithmetic. *)
Lemma body_carries_block_arith (w : World) (o : Opts) (ev : event) :
  In ev (trace (body w o)) -> carries_block_arith w o ev.
Proof.
  unfold body, err, errexit, exit, log, SIZE_BYTES_of.
  destruct (String.eqb (INPUT o) "" || String.eqb (OUTPUT o) "").
  { cbn. intros [<-|[]]. exact I. }
  rewrite bind_ret_l, bind_emit. cbn [trace fst].
  intros [<-|Hin]; [exact I|]. revert Hin.
  destruct (probe_size w (INPUT o)) as [size|] eqn:Hprobe.
  2:{ cbn. intros [<-|[]]. exact I. }
  rewrite bind_ret_l.
  destruct (wrap64 (numfmt_iec w (BLOCKSIZE o)) =? 0).
  { cbn. intros [<-|[]]. exact I. }
  rewrite bind_ret_l.
  destruct (block_arith (COUNT o) size (numfmt_iec w (BLOCKSIZE o)))
    as [BLOCK_COUNT SIZE_BYTES] eqn:Harith.
  assert (Hexec :
    In ev (trace (log o ("Executing: "
                           +:+ String.concat " "
                                 (DCFLDD o (if VERIFY_ONLY o then "/dev/null" else OUTPUT o))) ;;;
                  emit (EvExec SIZE_BYTES
                          (DCFLDD o (if VERIFY_ONLY o then "/dev/null" else OUTPUT o))) ;;;
                  (if negb (wrapper_rc w (DCFLDD o (if VERIFY_ONLY o then "/dev/null"
                                                    else OUTPUT o)) =? 0)
                   then errexit (wrapper_rc w (DCFLDD o (if VERIFY_ONLY o then "/dev/null"
                                                         else OUTPUT o)))
                   else ret tt) ;;;
                  emit (EvReport (JSON_REPORT o) SIZE_BYTES) ;;;
                  log o ("JSON report written to " +:+ JSON_REPORT o) ;;;
                  @exit unit (wrapper_rc w (DCFLDD o (if VERIFY_ONLY o then "/dev/null"
                                                      else OUTPUT o))))) ->
    carries_block_arith w o ev).
  { unfold log, errexit, exit. destruct (VERBOSE o >=? 1) eqn:Hv.
    2:{ cbn. intros [<-|[]]. exact I. }
    rewrite !bind_emit. cbn [trace fst].
    intros [<-|[<-|Hin]]; [exact I | |].
    { unfold carries_block_arith, SIZE_BYTES_of. exists size. rewrite Harith.
      split; [exact Hprobe|]. split; [reflexivity|].
      intros c Hc. unfold DCFLDD. rewrite Hc.
      apply in_or_app. right. apply in_or_app. left. left. reflexivity. }
    revert Hin.
    destruct (negb (wrapper_rc w _ =? 0)).
    { cbn. intros [<-|[]]. exact I. }
    rewrite bind_ret_l. cbn.
    intros [<-|[<-|[]]]; [|exact I].
    unfold carries_block_arith, SIZE_BYTES_of. exists size. by rewrite Harith. }
  unfold log, errexit, exit in Hexec.
  destruct (VERBOSE o >=? 1).
  2:{ cbn. intros [<-|[]]. exact I. }
  rewrite !bind_emit in Hexec. rewrite !bind_emit. cbn [trace fst].
  intros [<-|[<-|[<-|[<-|[<-|Hin]]]]]; try exact I.
  { cbn. exists size. by rewrite Harith. }
  revert Hin.
  destruct (DRY_RUN o).
  { cbn. intros [<-|[]]. exact I. }
  rewrite bind_ret_l.
  destruct (AUTO_YES o); cbn [negb].
  { rewrite bind_ret_l. exact Hexec. }
  destruct (confirmed (answer w)).
  - cbn [trace outcome ret fst snd]. rewrite bind_returned. cbn [trace fst app].
    intros [<-|Hin]; [exact I | by apply Hexec].
  - cbn. intros [<-|[<-|[]]]; exact I.
Qed.

End Imaging.

Section ImagingClaims.
Import Dcfldd.

(** C5.  Without [-c] the block count is the quotient of the source
    size by the block size rounded up (the least [n] with
    [size <= n * bs]) and the size stays the observed one.  With
    [-c c] the count is [c] and the size is the shell's product
    [c * bs], whatever the observed size: the product itself whenever
    it fits the shell's 64-bit integers.  These are the numbers the
    script shows in its summary, passes to the copy ([--total], and
    [count=c] on the command line) and writes to its report. *)
Theorem block_count_is_ceiling_or_override :
  (forall size bs : Z,
      0 <= size -> 0 < bs ->
      let n := BLOCK_COUNT_of None size bs in
      (n - 1) * bs < size <= n * bs /\ SIZE_BYTES_of None size bs = size)
  /\ (forall c size bs : Z,
        BLOCK_COUNT_of (Some c) size bs = c
        /\ SIZE_BYTES_of (Some c) size bs = wrap64 (c * bs)
        /\ (- 2 ^ 63 <= c * bs < 2 ^ 63 ->
            SIZE_BYTES_of (Some c) size bs = c * bs))
  /\ (forall (w : World) (o : Opts) (ev : event),
        In ev (trace (body w o)) -> carries_block_arith w o ev).
Proof.
  split; [|split].
  - intros size bs Hsize Hbs n. split; [|reflexivity].
    subst n. unfold BLOCK_COUNT_of. simpl. by apply rounded_up_quotient.
  - intros c size bs. split; [reflexivity|]. split; [reflexivity|].
    intros Hfit. unfold SIZE_BYTES_of. simpl. by apply wrap64_in_range.
  - exact body_carries_block_arith.
Qed.

(** Witness for C5: 4097 bytes in 1 KiB blocks are 5 blocks, and
    [-b 1K -c 1048576] stands for 2^30 bytes over a 4096-byte source. *)
Lemma block_count_is_ceiling_or_override_witness :
  (let n := BLOCK_COUNT_of None 4097 1024 in
   (n - 1) * 1024 < 4097 <= n * 1024 /\ SIZE_BYTES_of None 4097 1024 = 4097)
  /\ SIZE_BYTES_of (Some 1048576) 4096 1024 = 1048576 * 1024
  /\ carries_block_arith ordinary_user blank_image (EvSummary 1048576 (2 ^ 30)).
Proof.
  destruct block_count_is_ceiling_or_override as (Hceil & Hover & Hrun).
  split; [|split].
  - apply (Hceil 4097 1024); lia.
  - apply (Hover 1048576 4096 1024). lia.
  - apply (Hrun ordinary_user blank_image). vm_compute. tauto.
Defined.

(** C7 as stated fails.  Run by uid 1000, the wrapper only warns and
    goes on to probe the source device; what ends the run is the shell,
    not a test of the user.  Its first check is of the installed
    programs, and usb_tool.py checks its command line, before either
    looks at the user. *)
Lemma privilege_is_not_checked_first :
  script ordinary_user image_stick
  = ([EvWarn not_root_warning; EvProbe "/dev/sdX"; EvFatal], inl (SystemExitCode 1))
  /\ script ordinary_user_no_dcfldd image_stick
     = ([EvErr "Required binary not found"], inl (SystemExitCode 1))
  /\ UsbTool.main desk_as_user
       {| UsbTool.cli_list := false; UsbTool.cli_device := Some "/dev/sdX";
          UsbTool.cli_format := Some "xfs"; UsbTool.cli_label := None;
          UsbTool.cli_repair := false; UsbTool.cli_scan_badblocks := false;
          UsbTool.cli_force := false |}
     = ([], inl (ArgparseError "argument --format: invalid choice: 'xfs'")).
Proof.
  repeat split; reflexivity.
Qed.

(** C7, amended.  usb_tool.py and secure-wipe-rich.py refuse to run
    for a user who is not root as soon as the command line has parsed:
    they stop with exit status 1 before anything else is checked or
    touched (usb_tool.py without any event, secure-wipe-rich.py after
    its one message).  The imaging wrapper only warns: apart from the
    warning, the run is the run root would get; and what it checks
    first is that its programs are installed. *)
Theorem root_required_except_for_imaging :
  (forall (w : UsbTool.World) (cli : UsbTool.Cli),
      format_ok cli -> UsbTool.is_root w = false ->
      UsbTool.main w cli = ([], inl (SystemExit "Run this script as root (sudo).")))
  /\ (forall (py_literal : string -> option pyvalue)
             (w : Wipe.World) (argv : Argv) (args : Args),
        SecureWipe.parse_args py_literal argv = ret args -> Wipe.euid w <> 0 ->
        SecureWipe.main_wipe py_literal w argv
        = ([EvPrint "[red]ERROR[/] Must run as root."], inl (SystemExitCode 1)))
  /\ (forall (w : World) (cl : Cmdline),
        deps_ok w = true -> EUID w <> 0 ->
        script w cl
        = (EvWarn not_root_warning :: trace (script (as_root w) cl),
           outcome (script (as_root w) cl)))
  /\ (forall (w : World) (cl : Cmdline),
        deps_ok w = false ->
        script w cl = ([EvErr "Required binary not found"], inl (SystemExitCode 1))).
Proof.
  split; [|split; [|split]].
  - intros w cli Hfmt Hroot. unfold UsbTool.main.
    rewrite (parse_args_ok w) by exact Hfmt. rewrite bind_ret_l, Hroot.
    reflexivity.
  - intros py_literal w argv args Hparse Hroot.
    rewrite (secure_main_parsed py_literal w argv args Hparse).
    destruct (Z.eqb_spec (Wipe.euid w) 0); [contradiction|reflexivity].
  - intros w cl Hdeps Hroot. unfold script.
    change (deps_ok (as_root w)) with (deps_ok w).
    change (EUID (as_root w)) with 0.
    rewrite Hdeps. cbn [negb Z.eqb]. rewrite !bind_ret_l.
    destruct (Z.eqb_spec (EUID w) 0); [contradiction|]. cbn [negb].
    rewrite bind_emit. reflexivity.
  - intros w cl Hdeps. unfold script. rewrite Hdeps. reflexivity.
Qed.

(** Witness for C7: uid 1000 is turned away by usb_tool.py, and let
    through, with a warning, by the wrapper. *)
Lemma root_required_except_for_imaging_witness :
  UsbTool.main desk_as_user format_request
  = ([], inl (SystemExit "Run this script as root (sudo)."))
  /\ script ordinary_user image_stick
     = (EvWarn not_root_warning :: trace (script (as_root ordinary_user) image_stick),
        outcome (script (as_root ordinary_user) image_stick)).
Proof.
  destruct root_required_except_for_imaging as (Husb & _ & Himg & _).
  split.
  - apply (Husb desk_as_user format_request); [by eexists | reflexivity].
  - apply (Himg ordinary_user image_stick); [reflexivity | discriminate].
Defined.

End ImagingClaims.

(* ================================================================== *)
(** * What stops the scripts short *)
(* ================================================================== *)

Section Defects.


(** A format run of usb_tool.py whose four commands all succeed still
    ends in an exception, hence with exit status 1: the closing message
    is built by [colored(msg, "green")], which passes the keyword-only
    colour positionally. *)
Theorem format_ends_in_type_error
        (w : UsbTool.World) (cli : UsbTool.Cli) (device fs : string)
        (b : UsbTool.FSBackend) :
  requests w cli device ->
  outcome (UsbTool.sanity_check w device (UsbTool.cli_force cli)) = inr tt ->
  UsbTool.cli_format cli = Some fs ->
  UsbTool.FS_TABLE !! fs = Some b ->
  (forall c, In c (repartition_cmds device fs
                   ++ [mkfs_for b (UsbTool.cli_label cli) (device +:+ "1")]) ->
             UsbTool.proc_rc w c = 0) ->
  outcome (UsbTool.main w cli)
  = inl (TypeError "colored() takes 1 positional argument but 2 were given")
  /\ exit_status (outcome (UsbTool.main w cli)) = 1.
Proof.
  intros (Hroot & Hfmt & Hlist & Hdev & Hne) Hsafe Hf Hb Hok.
  assert (Hfs : truthy (Some fs) = true
                /\ @UsbTool.fs_backend UsbTool.event fs = ret b).
  { apply FS_TABLE_keys in Hb as [[-> ->]|[[-> ->]|[-> ->]]];
      split; reflexivity. }
  destruct Hfs as (Htruthy & Hbackend).
  assert (outcome (UsbTool.main w cli)
          = inl (TypeError "colored() takes 1 positional argument but 2 were given"))
    as Hout; [|by rewrite Hout].
  unfold UsbTool.main. rewrite (parse_args_ok w) by exact Hfmt. rewrite bind_ret_l.
  rewrite Hroot, Hlist, Hdev. rewrite truthy_Some by exact Hne.
  cbv beta iota zeta delta [negb default id from_option].
  rewrite Hf, Htruthy.
  rewrite outcome_bind, Hsafe, outcome_bind, Hbackend. cbn [outcome ret snd].
  unfold UsbTool.create_single_partition, UsbTool.format, UsbTool.sh.
  unfold repartition_cmds, mkfs_for in Hok.
  rewrite !Hok by (simpl; tauto). cbn [Z.eqb bind emit ret app].
  rewrite (Hok (UsbTool.mkfs_cmd b
                ++ match UsbTool.cli_label cli with
                   | Some l => ["-n"; l]
                   | None => []
                   end ++ [device +:+ "1"]))
    by (simpl; tauto).
  reflexivity.
Qed.

(** Witness: the fat32 run on [desk]. *)
Lemma format_ends_in_type_error_witness :
  exit_status (outcome (UsbTool.main desk format_request)) = 1.
Proof.
  refine (proj2 (format_ends_in_type_error desk format_request "/dev/sdX" "fat32"
                   UsbTool.FAT32Backend _ _ _ _ _)).
  - repeat split; [by eexists | discriminate].
  - reflexivity.
  - reflexivity.
  - reflexivity.
  - intros c _. reflexivity.
Defined.

(** Option parsing leaves [VERBOSE] at 0 or ends the script; it copies
    nothing, and it only ends with status 0 by printing the usage. *)
Lemma getopts_keeps_quiet (os : list Dcfldd.opt) (o : Dcfldd.Opts) :
  Dcfldd.VERBOSE o = 0 ->
  List.filter Dcfldd.is_exec (trace (Dcfldd.getopts os o)) = []
  /\ match outcome (Dcfldd.getopts os o) with
     | inr o' => Dcfldd.VERBOSE o' = 0
     | inl e =>
         (exists n, e = SystemExitCode n)
         /\ (e = SystemExitCode 0 -> In Dcfldd.EvUsage (trace (Dcfldd.getopts os o)))
     end.
Proof.
  revert o. induction os as [|op os IH]; intros o Hv; [by split|].
  destruct op; cbn [Dcfldd.getopts]; try (apply IH; exact Hv).
  - rewrite Hv. split; [reflexivity|]. split; [by eexists | intros [=]].
  - split; [reflexivity|]. split; [by eexists|]. intros _. cbn. tauto.
  - split; [reflexivity|]. split; [by eexists | intros [=]].
  - split; [reflexivity|]. split; [by eexists | intros [=]].
Qed.

(** From [VERBOSE = 0] the rest of the script ends with status 1
    before it has copied anything: at the latest on its first [log]. *)
Lemma body_stops_before_the_copy (w : Dcfldd.World) (o : Dcfldd.Opts) :
  Dcfldd.VERBOSE o = 0 ->
  List.filter Dcfldd.is_exec (trace (Dcfldd.body w o)) = []
  /\ outcome (Dcfldd.body w o) = inl (SystemExitCode 1).
Proof.
  intros Hv. unfold Dcfldd.body, Dcfldd.log. rewrite Hv. cbn [Z.geb Z.compare].
  destruct (String.eqb (Dcfldd.INPUT o) "" || String.eqb (Dcfldd.OUTPUT o) "");
    [split; reflexivity|].
  rewrite bind_ret_l, bind_emit.
  destruct (Dcfldd.probe_size w (Dcfldd.INPUT o)) as [size|];
    [|split; reflexivity].
  rewrite bind_ret_l.
  destruct (Dcfldd.wrap64 (Dcfldd.numfmt_iec w (Dcfldd.BLOCKSIZE o)) =? 0);
    [split; reflexivity|].
  rewrite bind_ret_l.
  destruct (Dcfldd.block_arith (Dcfldd.COUNT o) size
              (Dcfldd.numfmt_iec w (Dcfldd.BLOCKSIZE o))) as [bc sb].
  split; reflexivity.
Qed.

(** The imaging wrapper never starts a copy.  Whatever the machine and
    the command line, the script ends in an [exit] before it reaches
    [dcfldd]: [-v] ends it inside the option loop, and without [-v] the
    first [log] does; status 0 is only reached by printing the usage. *)
Theorem wrapper_never_reaches_the_copy (w : Dcfldd.World) (cl : Dcfldd.Cmdline) :
  List.filter Dcfldd.is_exec (trace (Dcfldd.script w cl)) = []
  /\ (exists n, outcome (Dcfldd.script w cl) = inl (SystemExitCode n))
  /\ (exit_status (outcome (Dcfldd.script w cl)) = 0 ->
      In Dcfldd.EvUsage (trace (Dcfldd.script w cl))).
Proof.
  unfold Dcfldd.script.
  destruct (Dcfldd.deps_ok w); cbn [negb];
    [|split; [reflexivity|]; split; [by eexists | intros [=]]].
  rewrite bind_ret_l.
  pose proof (getopts_keeps_quiet (Dcfldd.opts cl)
                (Dcfldd.set_VERIFY_ONLY Dcfldd.defaults (Dcfldd.verify cl))
                eq_refl) as [Hquiet Hout].
  set (parsed := Dcfldd.getopts (Dcfldd.opts cl)
                   (Dcfldd.set_VERIFY_ONLY Dcfldd.defaults (Dcfldd.verify cl))) in *.
  assert (Hrest :
    List.filter Dcfldd.is_exec (trace (o <- parsed ;; Dcfldd.body w o)) = []
    /\ (exists n, outcome (o <- parsed ;; Dcfldd.body w o) = inl (SystemExitCode n))
    /\ (exit_status (outcome (o <- parsed ;; Dcfldd.body w o)) = 0 ->
        In Dcfldd.EvUsage (trace (o <- parsed ;; Dcfldd.body w o)))).
  { rewrite trace_bind, outcome_bind, List.filter_app, Hquiet.
    destruct (outcome parsed) as [e|o'].
    - destruct Hout as [[n ->] Husage]. split; [reflexivity|].
      split; [by eexists|]. cbn [exit_status]. intros ->.
      rewrite app_nil_r. by apply Husage.
    - destruct (body_stops_before_the_copy w o' Hout) as [Hb1 Hb2].
      rewrite Hb1, Hb2. split; [reflexivity|]. split; [by eexists | intros [=]]. }
  destruct (negb (Dcfldd.EUID w =? 0)).
  - rewrite bind_emit. cbn [trace outcome fst snd List.filter Dcfldd.is_exec].
    destruct Hrest as (H1 & H2 & H3). split; [exact H1|]. split; [exact H2|].
    intros H0. right. by apply H3.
  - rewrite bind_ret_l. exact Hrest.
Qed.

End Defects.

(* ================================================================== *)
(** * The modes of usb_tool.py *)
(* ================================================================== *)

Section UsbModes.
Import UsbTool.

(** What [main] does for a request, once the command line has parsed
    and the user is root. *)
Lemma main_request (w : World) (cli : Cli) (device : string) :
  requests w cli device ->
  main w cli =
    (sanity_check w device (cli_force cli) ;;;
     if truthy (cli_format cli) then
       let fmt := default "" (cli_format cli) in
       backend <- fs_backend fmt ;;
       target_part <- create_single_partition w device fmt ;;
       format w backend target_part (cli_label cli) ;;;
       msg <- colored_positional
                ("Formatted " +:+ target_part +:+ " as " +:+ upper fmt +:+ ".")
                green ;;
       emit (EvStdout msg)
     else if cli_repair cli then
       blkid_out <- check_output w (blkid_cmd device) ;;
       backend <- fs_backend (strip blkid_out) ;;
       repair w backend device ;;;
       msg <- colored_positional
                ("Repair finished on " +:+ device +:+ ".") green ;;
       emit (EvStdout msg)
     else if cli_scan_badblocks cli then
       scan_badblocks w device
     else
       emit (EvStderr "Nothing to do. See --help.")).
Proof.
  intros (Hroot & Hfmt & Hlist & Hdev & Hne).
  unfold main. rewrite (parse_args_ok w) by exact Hfmt. rewrite bind_ret_l.
  rewrite Hroot, Hlist, Hdev. rewrite truthy_Some by exact Hne. reflexivity.
Qed.

(** A run that gets past the safety check starts with its two events. *)
Lemma sanity_check_passed (w : World) (device : string) (force : bool) :
  outcome (sanity_check w device force) = inr tt ->
  sanity_check w device force = ([EvStat device; EvUdevList], inr tt).
Proof.
  rewrite sanity_check_unfold.
  repeat match goal with |- context [if ?b then _ else _] => destruct b end;
    simpl; intros H; first [discriminate H | reflexivity].
Qed.

Lemma sanity_check_failed (w : World) (device : string) (force : bool) :
  outcome (sanity_check w device force) <> inr tt ->
  exists t msg,
    sanity_check w device force = (t, inl (SystemExit msg))
    /\ commands_run t = [].
Proof.
  rewrite sanity_check_unfold.
  repeat match goal with |- context [if ?b then _ else _] => destruct b end;
    simpl; intros H; first [by destruct H | by eexists _, _].
Qed.

Lemma format_ok_truthy (cli : Cli) :
  format_ok cli ->
  match cli_format cli with
  | Some f => truthy (Some f) = true
              /\ exists b, @fs_backend event f = ret b /\ FS_TABLE !! f = Some b
  | None => True
  end.
Proof.
  unfold format_ok. destruct (cli_format cli) as [f|]; [|done].
  intros [b Hb]. pose proof Hb as Hkeys.
  apply FS_TABLE_keys in Hkeys as [[-> ->]|[[-> ->]|[-> ->]]];
    (split; [reflexivity|]); eexists; split; reflexivity.
Qed.

(** The format branch ends in an exception whatever its commands
    return. *)
Lemma format_branch (w : World) (b : FSBackend) (device fs : string)
      (label : option string) :
  let run :=
    (target_part <- create_single_partition w device fs ;;
     format w b target_part label ;;;
     msg <- colored_positional
              ("Formatted " +:+ target_part +:+ " as " +:+ upper fs +:+ ".")
              green ;;
     emit (EvStdout msg)) in
  (exists e, outcome run = inl e /\ exit_status (@inl exn unit e) = 1)
  /\ (forall cmd, In cmd (commands_run (trace run)) ->
        In device cmd \/ In (device +:+ "1") cmd).
Proof.
  cbv zeta. unfold create_single_partition, format, sh, commands_run.
  destruct (proc_rc w ["parted"; "-s"; device; "mklabel"; "gpt"] =? 0); simpl.
  2:{ split; [eauto|]. intros cmd [<-|[]]. left. simpl. tauto. }
  destruct (proc_rc w ["parted"; "-s"; device; "mkpart"; "primary"; fs;
                       "1MiB"; "100%"] =? 0); simpl.
  2:{ split; [eauto|]. intros cmd [<-|[<-|[]]]; left; simpl; tauto. }
  destruct (proc_rc w ["partprobe"; device] =? 0); simpl.
  2:{ split; [eauto|]. intros cmd [<-|[<-|[<-|[]]]]; left; simpl; tauto. }
  match goal with
  | |- context [proc_rc w ?c =? 0] => destruct (proc_rc w c =? 0)
  end; simpl.
  all: (split; [eauto|]);
    intros cmd [<-|[<-|[<-|[<-|[]]]]];
    try (left; simpl; tauto);
    right; rewrite !in_app_iff; simpl; tauto.
Qed.


Lemma repair_branch (w : World) (device : string) :
  let probe := blkid_cmd device in
  let kind := strip (proc_stdout w probe) in
  let run :=
    (blkid_out <- check_output w probe ;;
     backend <- fs_backend (strip blkid_out) ;;
     repair w backend device ;;;
     msg <- colored_positional
              ("Repair finished on " +:+ device +:+ ".") green ;;
     emit (EvStdout msg)) in
  (proc_rc w probe <> 0 ->
     run = ([EvRun probe], inl (CalledProcessError probe)))
  /\ (proc_rc w probe = 0 -> FS_TABLE !! lower kind = None ->
      run = ([EvRun probe],
             inl (SystemExit ("Unsupported filesystem '" +:+ kind +:+ "'"))))
  /\ (forall b, proc_rc w probe = 0 -> FS_TABLE !! lower kind = Some b ->
      run = ([EvRun probe; EvRun (repair_cmd b ++ [device])],
             inl (if proc_rc w (repair_cmd b ++ [device]) =? 0
                  then TypeError
                         "colored() takes 1 positional argument but 2 were given"
                  else CalledProcessError (repair_cmd b ++ [device])))).
Proof.
  cbv zeta. unfold check_output, fs_backend, repair, sh.
  split; [|split].
  - intros Hrc. destruct (Z.eqb_spec (proc_rc w (blkid_cmd device)) 0);
      [contradiction|reflexivity].
  - intros -> Hnone. simpl. rewrite Hnone. reflexivity.
  - intros b -> Hb. simpl. rewrite Hb. simpl.
    destruct (proc_rc w (repair_cmd b ++ [device]) =? 0); reflexivity.
Qed.

(** The inventory: one entry per disk that is not an optical drive. *)
Lemma block_devices_spec (w : World) (d : BlockDev) :
  In d (block_devices w)
  <-> exists dev, In dev (udev_disks w)
                  /\ properties dev !! "ID_TYPE" <> Some "cd"
                  /\ d = block_dev_of dev.
Proof.
  unfold block_devices. rewrite in_map_iff. split.
  - intros (dev & <- & Hdev). apply filter_In in Hdev as [Hdev Hopt].
    exists dev. split; [exact Hdev|]. split; [|reflexivity].
    unfold is_optical in Hopt. intros Hcd. rewrite Hcd in Hopt. discriminate Hopt.
  - intros (dev & Hdev & Hcd & ->). exists dev. split; [reflexivity|].
    apply filter_In. split; [exact Hdev|].
    unfold is_optical. destruct (properties dev !! "ID_TYPE") as [t|]; [|reflexivity].
    destruct (String.eqb_spec t "cd") as [->|]; [by destruct Hcd | reflexivity].
Qed.

(** A command line that is no request for a device runs nothing, and
    succeeds exactly in list mode. *)
Lemma main_without_request (w : World) (cli : Cli) :
  (forall device, ~ requests w cli device) ->
  commands_run (trace (main w cli)) = []
  /\ (exit_status (outcome (main w cli)) = 0
      <-> format_ok cli /\ is_root w = true /\ cli_list cli = true).
Proof.
  intros Hnot. unfold main, parse_args, format_ok, requests, format_ok in *.
  destruct (cli_format cli) as [f|] eqn:Hf.
  - case_bool_decide as Hk.
    2:{ split; [reflexivity|]. split; [discriminate | tauto]. }
    rewrite bind_ret_l.
    destruct (is_root w) eqn:Hroot; simpl.
    2:{ split; [reflexivity|]. split; [discriminate | intros (_ & [=] & _)]. }
    destruct (cli_list cli) eqn:Hlist; [split; [reflexivity | tauto]|].
    destruct (cli_device cli) as [device|] eqn:Hdev; simpl.
    2:{ split; [reflexivity|]. split; [discriminate | intros (_ & _ & [=])]. }
    destruct (String.eqb_spec device "") as [->|Hne]; simpl.
    { split; [reflexivity|]. split; [discriminate | intros (_ & _ & [=])]. }
    destruct (Hnot device). tauto.
  - rewrite bind_ret_l.
    destruct (is_root w) eqn:Hroot; simpl.
    2:{ split; [reflexivity|]. split; [discriminate | intros (_ & [=] & _)]. }
    destruct (cli_list cli) eqn:Hlist; [split; [reflexivity | tauto]|].
    destruct (cli_device cli) as [device|] eqn:Hdev; simpl.
    2:{ split; [reflexivity|]. split; [discriminate | intros (_ & _ & [=])]. }
    destruct (String.eqb_spec device "") as [->|Hne]; simpl.
    { split; [reflexivity|]. split; [discriminate | intros (_ & _ & [=])]. }
    destruct (Hnot device). tauto.
Qed.

(** Whether a command line is a request is decidable. *)
Lemma request_or_not (w : World) (cli : Cli) :
  (exists device, requests w cli device) \/ (forall device, ~ requests w cli device).
Proof.
  unfold requests.
  assert (Hdec : format_ok cli \/ ~ format_ok cli).
  { unfold format_ok. destruct (cli_format cli) as [f|]; [|by left].
    destruct (FS_TABLE !! f); [left; by eexists | right; intros [? [=]]]. }
  destruct Hdec as [Hfmt|Hfmt]; [|right; intros device H; tauto].
  destruct (is_root w); [|right; intros device (H & _); discriminate H].
  destruct (cli_list cli); [right; intros device (_ & _ & H & _); discriminate H|].
  destruct (cli_device cli) as [device|];
    [|right; intros device (_ & _ & _ & H & _); discriminate H].
  destruct (decide (device = "")) as [->|Hne].
  - right. intros device (_ & _ & _ & [= <-] & H). by destruct H.
  - left. exists device. tauto.
Qed.


(** What a request comes to: success only when the check passes and
    no action was asked for; commands only after the check, each on the
    device or its first partition. *)
Lemma request_outcome (w : World) (cli : Cli) (device : string) :
  requests w cli device ->
  (exit_status (outcome (main w cli)) = 0
   <-> outcome (sanity_check w device (cli_force cli)) = inr tt
       /\ acts_on_device cli = false)
  /\ (exit_status (outcome (main w cli)) = 0 ->
      commands_run (trace (main w cli)) = [])
  /\ (forall cmd, In cmd (commands_run (trace (main w cli))) ->
        outcome (sanity_check w device (cli_force cli)) = inr tt
        /\ (In device cmd \/ In (device +:+ "1") cmd)).
Proof.
  intros Hreq. rewrite (main_request w cli device Hreq).
  destruct Hreq as (Hroot & Hfmt & Hlist & Hdev & Hne).
  destruct (outcome (sanity_check w device (cli_force cli))) as [e|[]] eqn:Hsafe.
  { destruct (sanity_check_failed w device (cli_force cli)) as (t & msg & -> & Ht);
      [by rewrite Hsafe|].
    rewrite bind_raised. cbn [trace outcome fst snd exit_status]. rewrite Ht.
    split; [split; [discriminate | intros [[=] _]]|].
    split; [discriminate | intros cmd []]. }
  rewrite (sanity_check_passed w device (cli_force cli) Hsafe), bind_returned.
  cbn [trace outcome fst snd]. unfold acts_on_device.
  apply format_ok_truthy in Hfmt.
  destruct (cli_format cli) as [fs|].
  { destruct Hfmt as (-> & b & Hbackend & _). cbn [default from_option id orb].
    rewrite Hbackend, bind_ret_l.
    destruct (format_branch w b device fs (cli_label cli)) as [(e & -> & He) Hcmds].
    rewrite He.
    split; [split; [discriminate | intros [_ [=]]]|].
    split; [discriminate|].
    intros cmd Hin. split; [reflexivity|]. by apply Hcmds. }
  change (truthy None) with false. cbn [orb].
  destruct (cli_repair cli).
  { cbn [orb].
    destruct (repair_branch w device) as (Hfail & Hnone & Hsome).
    destruct (Z.eq_dec (proc_rc w (blkid_cmd device)) 0) as [Hrc|Hrc].
    2:{ fold (blkid_cmd device). rewrite (Hfail Hrc).
        split; [split; [discriminate | intros [_ [=]]]|].
        split; [discriminate|].
        intros cmd [<-|[]]. split; [reflexivity|]. left. simpl. tauto. }
    destruct (FS_TABLE !! lower (strip (proc_stdout w (blkid_cmd device))))
      as [b|] eqn:Hb.
    2:{ fold (blkid_cmd device). rewrite (Hnone Hrc eq_refl).
        split; [split; [discriminate | intros [_ [=]]]|].
        split; [discriminate|].
        intros cmd [<-|[]]. split; [reflexivity|]. left. simpl. tauto. }
    fold (blkid_cmd device). rewrite (Hsome b Hrc eq_refl).
    cbn [trace outcome fst snd].
    split.
    { destruct (proc_rc w (repair_cmd b ++ [device]) =? 0);
        (split; [discriminate | intros [_ [=]]]). }
    split.
    { destruct (proc_rc w (repair_cmd b ++ [device]) =? 0); discriminate. }
    intros cmd [<-|[<-|[]]]; (split; [reflexivity|]); left.
    - simpl. tauto.
    - apply in_or_app. right. simpl. tauto. }
  destruct (cli_scan_badblocks cli).
  { cbn. split; [split; [discriminate | intros [_ [=]]]|].
    split; [discriminate | intros cmd []]. }
  cbn. split; [tauto|]. split; [reflexivity | intros cmd []].
Qed.

(** X4.  Run by root with [--list], [main] asks udev for the disks,
    prints the inventory and returns: no path is tested and no command
    is run, whatever device and actions the command line names besides.
    The inventory holds exactly the disks whose [ID_TYPE] is not [cd]
    (a loop device stays in), in udev's order; a size is 512 times the
    sector count, 0 without one; a disk counts as removable exactly
    when its [removable] attribute is there and is not 0. *)
Theorem list_mode_only_reads :
  (forall (w : World) (cli : Cli),
      format_ok cli -> is_root w = true -> cli_list cli = true ->
      main w cli = ([EvUdevList; EvStdout (json_dumps (block_devices w))], inr tt))
  /\ (forall (w : World) (d : BlockDev),
        In d (block_devices w)
        <-> exists dev, In dev (udev_disks w)
                        /\ properties dev !! "ID_TYPE" <> Some "cd"
                        /\ d = block_dev_of dev)
  /\ (forall (w : World),
        map name (block_devices w)
        = map device_node
              (List.filter (fun dev => negb (is_optical dev)) (udev_disks w)))
  /\ (forall dev : UdevDevice,
        (attributes dev !! "size" = None -> size_bytes (block_dev_of dev) = 0)
        /\ (forall n, attributes dev !! "size" = Some n ->
              size_bytes (block_dev_of dev) = 512 * n)
        /\ (removable (block_dev_of dev) = true
            <-> exists n, attributes dev !! "removable" = Some n /\ n <> 0)).
Proof.
  split; [|split; [|split]].
  - intros w cli Hfmt Hroot Hlist. unfold main.
    rewrite (parse_args_ok w) by exact Hfmt. rewrite bind_ret_l, Hroot, Hlist.
    reflexivity.
  - exact block_devices_spec.
  - intros w. unfold block_devices. rewrite map_map. reflexivity.
  - intros dev. unfold block_dev_of. cbn [size_bytes removable].
    split; [intros ->; reflexivity|].
    split; [intros n ->; cbn; lia|].
    destruct (attributes dev !! "removable") as [n|]; cbn.
    + destruct (Z.eqb_spec n 0) as [->|Hn]; cbn; split.
      * discriminate.
      * intros (m & [= <-] & Hm). by destruct Hm.
      * eauto.
      * reflexivity.
    + split; [discriminate | intros (n & [=] & _)].
Qed.


(** Witness: [--list] on [desk], with a device and two actions named
    besides. *)
Lemma list_mode_only_reads_witness :
  main desk list_request
  = ([EvUdevList; EvStdout (json_dumps (block_devices desk))], inr tt)
  /\ (In (block_dev_of sdX) (block_devices desk_with_cd)
      /\ ~ In (block_dev_of sr0) (block_devices desk_with_cd)).
Proof.
  destruct list_mode_only_reads as (Hlist & Hin & _).
  split; [|split].
  - apply (Hlist desk list_request); [by eexists | reflexivity | reflexivity].
  - apply (Hin desk_with_cd). exists sdX.
    split; [simpl; tauto|]. split; [discriminate | reflexivity].
  - intros H. apply (Hin desk_with_cd) in H as (dev & [<-|[<-|[<-|[]]]] & Hcd & Heq).
    + discriminate Heq.
    + by destruct Hcd.
    + discriminate Heq.
Defined.

(** X5.  The bad-blocks scan never starts [badblocks]:
    [scan_badblocks] builds its banner with [colored(msg, "red")], the
    colour passed positionally, and raises before its [sh] call.  A
    [--scan-badblocks] request therefore runs no command at all and
    ends with status 1: at the safety check, or else with the
    [TypeError]. *)
Theorem scan_badblocks_never_scans :
  (forall (w : World) (device : string),
      scan_badblocks w device
      = ([], inl (TypeError "colored() takes 1 positional argument but 2 were given")))
  /\ (forall (w : World) (cli : Cli) (device : string),
        requests w cli device -> cli_format cli = None ->
        cli_repair cli = false -> cli_scan_badblocks cli = true ->
        commands_run (trace (main w cli)) = []
        /\ exit_status (outcome (main w cli)) = 1
        /\ (outcome (sanity_check w device (cli_force cli)) = inr tt ->
            main w cli
            = ([EvStat device; EvUdevList],
               inl (TypeError
                      "colored() takes 1 positional argument but 2 were given")))).
Proof.
  split; [reflexivity|].
  intros w cli device Hreq Hfmt Hrepair Hscan.
  rewrite (main_request w cli device Hreq), Hfmt, Hrepair, Hscan.
  change (truthy None) with false. cbv iota.
  destruct (outcome (sanity_check w device (cli_force cli))) as [e|[]] eqn:Hsafe.
  - destruct (sanity_check_failed w device (cli_force cli)) as (t & msg & -> & Ht);
      [by rewrite Hsafe|].
    rewrite bind_raised. cbn [trace outcome fst snd exit_status].
    split; [exact Ht|]. split; [reflexivity | discriminate].
  - rewrite (sanity_check_passed w device (cli_force cli) Hsafe).
    split; [reflexivity|]. split; reflexivity.
Qed.

(** Witness: [--device /dev/sdX --scan-badblocks] on [desk]. *)
Lemma scan_badblocks_never_scans_witness :
  commands_run (trace (main desk scan_request)) = []
  /\ exit_status (outcome (main desk scan_request)) = 1.
Proof.
  destruct (proj2 scan_badblocks_never_scans desk scan_request "/dev/sdX")
    as (Hnone & Hexit & _);
    [repeat split; discriminate | reflexivity | reflexivity | reflexivity |].
  split; [exact Hnone | exact Hexit].
Defined.

(** X6.  Repair mode, once the safety check has passed, asks [blkid]
    for the type of the device and picks the back-end by the stripped,
    lower-cased answer.  A failed [blkid] ends the run there; an answer
    outside fat32, ext4 and ntfs ends it with the "Unsupported
    filesystem" exit and no repair command; otherwise the back-end's
    repair command runs on the device itself, and the run still ends in
    an exception (the command's failure, or the closing message's
    [TypeError]).  The exit status is 1 in every case. *)
Theorem repair_follows_blkid (w : World) (cli : Cli) (device : string) :
  requests w cli device -> cli_format cli = None -> cli_repair cli = true ->
  outcome (sanity_check w device (cli_force cli)) = inr tt ->
  let probe := blkid_cmd device in
  let kind := strip (proc_stdout w probe) in
  (proc_rc w probe <> 0 ->
     commands_run (trace (main w cli)) = [probe]
     /\ outcome (main w cli) = inl (CalledProcessError probe))
  /\ (proc_rc w probe = 0 -> lower kind ∉ ["fat32"; "ext4"; "ntfs"] ->
      commands_run (trace (main w cli)) = [probe]
      /\ outcome (main w cli)
         = inl (SystemExit ("Unsupported filesystem '" +:+ kind +:+ "'")))
  /\ (forall b, proc_rc w probe = 0 -> FS_TABLE !! lower kind = Some b ->
      commands_run (trace (main w cli)) = [probe; repair_cmd b ++ [device]]
      /\ outcome (main w cli)
         = inl (if proc_rc w (repair_cmd b ++ [device]) =? 0
                then TypeError
                       "colored() takes 1 positional argument but 2 were given"
                else CalledProcessError (repair_cmd b ++ [device])))
  /\ exit_status (outcome (main w cli)) = 1.
Proof.
  intros Hreq Hfmt Hrepair Hsafe probe kind.
  assert (Hmain :
    main w cli
    = ([EvStat device; EvUdevList]
         ++ trace (blkid_out <- check_output w probe ;;
                   backend <- fs_backend (strip blkid_out) ;;
                   repair w backend device ;;;
                   msg <- colored_positional
                            ("Repair finished on " +:+ device +:+ ".") green ;;
                   emit (EvStdout msg)),
       outcome (blkid_out <- check_output w probe ;;
                backend <- fs_backend (strip blkid_out) ;;
                repair w backend device ;;;
                msg <- colored_positional
                         ("Repair finished on " +:+ device +:+ ".") green ;;
                emit (EvStdout msg)))).
  { rewrite (main_request w cli device Hreq), Hfmt, Hrepair.
    rewrite (sanity_check_passed w device (cli_force cli) Hsafe), bind_returned.
    reflexivity. }
  rewrite Hmain. clear Hmain.
  destruct (repair_branch w device) as (Hfail & Hnone & Hsome).
  fold probe in Hfail, Hnone, Hsome. fold kind in Hnone, Hsome.
  split; [|split; [|split]].
  - intros Hrc. rewrite (Hfail Hrc). split; reflexivity.
  - intros Hrc Hkind. apply FS_TABLE_None in Hkind.
    rewrite (Hnone Hrc Hkind). split; reflexivity.
  - intros b Hrc Hb. rewrite (Hsome b Hrc Hb). split; reflexivity.
  - destruct (Z.eq_dec (proc_rc w probe) 0) as [Hrc|Hrc];
      [|by rewrite (Hfail Hrc)].
    destruct (FS_TABLE !! lower kind) as [b|] eqn:Hb;
      [|by rewrite (Hnone Hrc eq_refl)].
    rewrite (Hsome b Hrc eq_refl). cbn [outcome snd].
    destruct (proc_rc w (repair_cmd b ++ [device]) =? 0); reflexivity.
Qed.

(** Witness: a [blkid] that answers [vfat], as it does for a FAT32
    volume. *)
Lemma repair_follows_blkid_witness :
  commands_run (trace (main (desk_blkid vfat_line) repair_request))
  = [blkid_cmd "/dev/sdX"]
  /\ outcome (main (desk_blkid vfat_line) repair_request)
     = inl (SystemExit "Unsupported filesystem 'vfat'").
Proof.
  refine (proj1 (proj2 (repair_follows_blkid (desk_blkid vfat_line) repair_request
                          "/dev/sdX" _ _ _ _)) _ _).
  - repeat split; discriminate.
  - reflexivity.
  - reflexivity.
  - reflexivity.
  - reflexivity.
  - intros H. apply list_elem_of_In in H. vm_compute in H.
    destruct H as [H|[H|[H|[]]]]; discriminate H.
Defined.

(** X7.  Every command [main] runs, in any mode and on any machine,
    is run for root, after the safety check of the requested device has
    passed, and has that device or its first partition among its
    arguments. *)
Theorem commands_name_the_device (w : World) (cli : Cli) (cmd : list string) :
  In cmd (commands_run (trace (main w cli))) ->
  exists device,
    requests w cli device
    /\ outcome (sanity_check w device (cli_force cli)) = inr tt
    /\ (In device cmd \/ In (device +:+ "1") cmd).
Proof.
  intros Hin.
  destruct (request_or_not w cli) as [[device Hreq]|Hnot].
  - exists device. split; [exact Hreq|].
    by apply (request_outcome w cli device Hreq).
  - destruct (main_without_request w cli Hnot) as [Hnone _].
    rewrite Hnone in Hin. destruct Hin.
Qed.

(** Witness: the [mkfs] command of the fat32 run on [desk]. *)
Lemma commands_name_the_device_witness :
  exists device,
    requests desk format_request device
    /\ outcome (sanity_check desk device (cli_force format_request)) = inr tt
    /\ (In device ["mkfs.fat"; "-F"; "32"; "-n"; "DATA"; "/dev/sdX1"]
        \/ In (device +:+ "1") ["mkfs.fat"; "-F"; "32"; "-n"; "DATA"; "/dev/sdX1"]).
Proof.
  apply (commands_name_the_device desk format_request). vm_compute. tauto.
Defined.


End UsbModes.

(* ================================================================== *)
(** * Decimal numerals *)
(* ================================================================== *)

Section Decimals.

Lemma read_digits_app (ds1 ds2 : list ascii) (a : Z) :
  read_digits (ds1 ++ ds2) a = read_digits ds2 (read_digits ds1 a).
Proof. apply fold_left_app. Qed.

Lemma read_digits_shift (ds : list ascii) (a : Z) :
  read_digits ds a = a * 10 ^ Z.of_nat (length ds) + read_digits ds 0.
Proof.
  unfold read_digits. revert a.
  induction ds as [|d ds IH]; intros a; cbn [fold_left length].
  - change (Z.of_nat 0) with 0. lia.
  - rewrite (IH (10 * a + digit_value d)), (IH (10 * 0 + digit_value d)).
    rewrite Nat2Z.inj_succ, Z.pow_succ_r by lia. lia.
Qed.

Lemma pretty_N_char_digit (d : N) :
  (d < 10)%N ->
  is_digit (pretty_N_char d) = true
  /\ digit_value (pretty_N_char d) = Z.of_N d
  /\ (pretty_N_char d = "0"%char -> d = 0%N).
Proof.
  intros Hd.
  assert (d = 0 \/ d = 1 \/ d = 2 \/ d = 3 \/ d = 4 \/ d = 5 \/ d = 6
          \/ d = 7 \/ d = 8 \/ d = 9)%N as H by lia.
  repeat (destruct H as [->|H]); try subst d;
    (split; [reflexivity|]; split; [reflexivity|]; intros Hc;
     first [reflexivity | discriminate Hc]).
Qed.

(** The digits [pretty_N_go] puts in front of [s]: they read back as
    [x], and the first of them is not a zero. *)
Lemma pretty_N_go_digits (x : N) (s : string) :
  exists ds,
    pretty_N_go x s = string_of_list_ascii ds +:+ s
    /\ forallb is_digit ds = true
    /\ read_digits ds 0 = Z.of_N x
    /\ (x = 0%N -> ds = [])
    /\ (x <> 0%N -> exists c ds', ds = c :: ds' /\ c <> "0"%char).
Proof.
  revert s. induction (N.lt_wf_0 x) as [x _ IH]. intros s.
  destruct (N.eq_dec x 0%N) as [->|Hx].
  { exists []. repeat split; try reflexivity. intros H. by destruct H. }
  rewrite pretty_N_go_step by lia.
  destruct (IH (x `div` 10)%N ltac:(apply N.div_lt; lia)
               (String (pretty_N_char (x `mod` 10)) s))
    as (ds & Hgo & Hall & Hval & Hzero & Hpos).
  destruct (pretty_N_char_digit (x `mod` 10)%N ltac:(apply N.mod_lt; lia))
    as (Hdig & Hdv & Hc0).
  exists (ds ++ [pretty_N_char (x `mod` 10)]).
  split; [|split; [|split; [|split]]].
  - rewrite Hgo. clear. induction ds as [|d ds IH]; [reflexivity|].
    cbn [string_of_list_ascii app].
    change (String d (string_of_list_ascii ds
                      +:+ String (pretty_N_char (x `mod` 10)) s)
            = String d (string_of_list_ascii (ds ++ [pretty_N_char (x `mod` 10)])
                        +:+ s)).
    by rewrite IH.
  - rewrite forallb_app, Hall. simpl. by rewrite Hdig.
  - rewrite read_digits_app, Hval. unfold read_digits. cbn [fold_left]. rewrite Hdv.
    pose proof (N.div_mod x 10%N ltac:(lia)) as Hdm. lia.
  - intros ->. by destruct Hx.
  - intros _. destruct (N.eq_dec (x `div` 10)%N 0%N) as [Hq|Hq].
    + rewrite (Hzero Hq). exists (pretty_N_char (x `mod` 10)), [].
      split; [reflexivity|]. intros Hc. apply Hc0 in Hc.
      pose proof (N.div_mod x 10%N ltac:(lia)) as Hdm. lia.
    + destruct (Hpos Hq) as (c & ds' & -> & Hc).
      by exists c, (ds' ++ [pretty_N_char (x `mod` 10)]).
Qed.

(** [str(n)] for a natural [n]: a non-empty digit string that reads
    back as [n] and has no leading zero, unless it is ["0"]. *)
Lemma pretty_digits (n : Z) :
  0 <= n ->
  exists c ds,
    pretty n = String c (string_of_list_ascii ds)
    /\ forallb is_digit (c :: ds) = true
    /\ read_digits (c :: ds) 0 = n
    /\ (c = "0"%char -> ds = [] /\ n = 0).
Proof.
  intros Hn. destruct n as [|p|p]; [| |lia].
  - exists "0"%char, []. repeat split; reflexivity.
  - change (pretty (Z.pos p)) with (pretty_N_go (N.pos p) "").
    destruct (pretty_N_go_digits (N.pos p) "") as (ds & Hgo & Hall & Hval & _ & Hpos).
    destruct (Hpos ltac:(discriminate)) as (c & ds' & -> & Hc).
    exists c, ds'. rewrite Hgo. split; [|split; [exact Hall|]].
    + cbn [string_of_list_ascii]. apply string_app_nil_r.
    + split; [exact Hval|]. intros ->. by destruct Hc.
Qed.

End Decimals.

(* ================================================================== *)
(** * The language of the size regex *)
(* ================================================================== *)

Section RegexLanguage.

Lemma in_class_nil (c : ascii -> bool) : in_class c "".
Proof. reflexivity. Qed.

Lemma in_class_cons (c : ascii -> bool) (ch : ascii) (s : string) :
  in_class c (String ch s) <-> c ch = true /\ in_class c s.
Proof. unfold in_class. simpl. apply andb_true_iff. Qed.

Lemma in_class_app (c : ascii -> bool) (s1 s2 : string) :
  in_class c (s1 +:+ s2) <-> in_class c s1 /\ in_class c s2.
Proof.
  induction s1 as [|ch s1 IH].
  - change ("" +:+ s2) with s2. split; [by split | tauto].
  - change (String ch s1 +:+ s2) with (String ch (s1 +:+ s2)).
    rewrite !in_class_cons, IH. tauto.
Qed.

(** A star that succeeds has split its subject. *)
Lemma star_sound {R : Type} (c : ascii -> bool) (s : string) :
  forall (acc : string) (k : string -> string -> option R) (r : R),
    Regex.star c acc s k = Some r ->
    exists taken rest,
      s = taken +:+ rest /\ in_class c taken
      /\ k (acc +:+ taken) rest = Some r.
Proof.
  induction s as [|ch s IH]; intros acc k r H; simpl in H.
  - exists "", "". rewrite (string_app_nil_r acc).
    split; [reflexivity|]. split; [reflexivity | exact H].
  - destruct (c ch) eqn:Hc.
    + destruct (Regex.star c (acc +:+ String ch "") s k) as [r0|] eqn:Hin.
      * injection H as ->.
        destruct (IH _ _ _ Hin) as (taken & rest & -> & Hall & Hk).
        exists (String ch taken), rest. rewrite string_app_assoc in Hk.
        split; [reflexivity|]. split; [by apply in_class_cons | exact Hk].
      * exists "", (String ch s). rewrite (string_app_nil_r acc).
        split; [reflexivity|]. split; [reflexivity | exact H].
    + exists "", (String ch s). rewrite (string_app_nil_r acc).
      split; [reflexivity|]. split; [reflexivity | exact H].
Qed.

(** And it succeeds as soon as some split lets the rest of the pattern
    succeed. *)
Lemma star_complete {R : Type} (c : ascii -> bool) (taken : string) :
  forall (acc rest : string) (k : string -> string -> option R),
    in_class c taken ->
    k (acc +:+ taken) rest <> None ->
    Regex.star c acc (taken +:+ rest) k <> None.
Proof.
  induction taken as [|ch taken IH]; intros acc rest k Hall Hk.
  - rewrite string_app_nil_r in Hk. change ("" +:+ rest) with rest.
    destruct rest as [|ch' rest']; [exact Hk|]. simpl.
    destruct (c ch'); [|exact Hk].
    destruct (Regex.star c (acc +:+ String ch' "") rest' k); [discriminate|exact Hk].
  - apply in_class_cons in Hall as [Hc Hall].
    change (String ch taken +:+ rest) with (String ch (taken +:+ rest)).
    simpl. rewrite Hc.
    assert (Regex.star c (acc +:+ String ch "") (taken +:+ rest) k <> None) as Hin.
    { apply IH; [exact Hall|]. by rewrite string_app_assoc. }
    destruct (Regex.star c (acc +:+ String ch "") (taken +:+ rest) k);
      [discriminate | by destruct Hin].
Qed.


Lemma opt_sound {R : Type} (c : ascii -> bool) (s : string)
      (k : option ascii -> string -> option R) (r : R) :
  Regex.opt c s k = Some r ->
  exists o rest,
    s = opt_text o +:+ rest /\ opt_in_class c o /\ k o rest = Some r.
Proof.
  unfold Regex.opt. destruct s as [|ch s].
  { intros H. exists None, "". split; [reflexivity|]. split; [exact I | exact H]. }
  destruct (c ch) eqn:Hc.
  2:{ intros H. exists None, (String ch s).
      split; [reflexivity|]. split; [exact I | exact H]. }
  destruct (k (Some ch) s) as [r0|] eqn:Hk.
  - intros [= <-]. exists (Some ch), s.
    split; [reflexivity|]. split; [exact Hc | exact Hk].
  - intros H. exists None, (String ch s).
    split; [reflexivity|]. split; [exact I | exact H].
Qed.

Lemma opt_complete {R : Type} (c : ascii -> bool) (o : option ascii)
      (rest : string) (k : option ascii -> string -> option R) :
  opt_in_class c o ->
  k o rest <> None ->
  Regex.opt c (opt_text o +:+ rest) k <> None.
Proof.
  intros Ho Hk. destruct o as [ch|].
  - change (opt_text (Some ch) +:+ rest) with (String ch rest).
    simpl in Ho |- *. rewrite Ho.
    destruct (k (Some ch) rest); [discriminate | by destruct Hk].
  - change (opt_text None +:+ rest) with rest.
    destruct rest as [|ch rest']; [exact Hk|]. simpl.
    destruct (c ch); [|exact Hk].
    destruct (k (Some ch) rest'); [discriminate | exact Hk].
Qed.

(** The matcher accepts exactly the language of the pattern. *)
Lemma size_fullmatch_pattern (value : string) :
  Regex.size_fullmatch value <> None <-> size_pattern value.
Proof.
  unfold Regex.size_fullmatch, size_pattern. split.
  - destruct (Regex.star is_space "" value _) as [[body unit]|] eqn:H;
      [intros _ | intros Hn; by destruct Hn].
    apply star_sound in H as (ws1 & s1 & -> & Hws1 & H).
    unfold Regex.plus in H. destruct s1 as [|ch s1]; [discriminate|].
    destruct (Regex.arith_char ch) eqn:Hch; [|discriminate].
    apply star_sound in H as (taken & s2 & -> & Htaken & H).
    apply opt_sound in H as (u & s3 & -> & Hu & H).
    apply opt_sound in H as (i & s4 & -> & Hi & H).
    apply opt_sound in H as (b & s5 & -> & Hb & H).
    apply star_sound in H as (ws2 & s6 & -> & Hws2 & H).
    unfold Regex.eos in H. destruct s6; [|discriminate].
    exists ws1, (String ch taken), u, i, b, ws2.
    rewrite string_app_nil_r.
    split; [reflexivity|]. split; [exact Hws1|]. split; [discriminate|].
    split; [by apply in_class_cons|]. tauto.
  - intros (ws1 & body & u & i & b & ws2 & -> & Hws1 & Hne & Hbody & Hu & Hi & Hb & Hws2).
    apply star_complete; [exact Hws1|].
    destruct body as [|ch body]; [by destruct Hne|].
    apply in_class_cons in Hbody as [Hch Hbody].
    change (String ch body +:+ ?s) with (String ch (body +:+ s)).
    unfold Regex.plus. rewrite Hch.
    apply star_complete; [exact Hbody|].
    apply opt_complete; [exact Hu|].
    apply opt_complete; [exact Hi|].
    apply opt_complete; [exact Hb|].
    rewrite <- (string_app_nil_r ws2) at 1.
    apply star_complete; [exact Hws2|]. discriminate.
Qed.

End RegexLanguage.

(* ================================================================== *)
(** * Sizes that are read, sizes that are refused *)
(* ================================================================== *)

Section SizeTexts.











End SizeTexts.

Section SizeTheorems.



Lemma size_pattern_chars (value : string) :
  size_pattern value -> in_class size_char value.
Proof.
  intros (ws1 & body & u & i & b & ws2 & -> & Hws1 & _ & Hbody & Hu & Hi & Hb & Hws2).
  assert (Hspace : forall s, in_class is_space s -> in_class size_char s).
  { intros s. unfold in_class. induction (list_ascii_of_string s) as [|c l IH];
      [reflexivity|]. simpl. intros H. apply andb_true_iff in H as [Hc Hl].
    unfold size_char at 1. by rewrite Hc, IH. }
  assert (Harith : forall s, in_class Regex.arith_char s -> in_class size_char s).
  { intros s. unfold in_class. induction (list_ascii_of_string s) as [|c l IH];
      [reflexivity|]. simpl. intros H. apply andb_true_iff in H as [Hc Hl].
    unfold size_char at 1. by rewrite Hc, orb_true_r, IH. }
  assert (Hopt : forall cs o,
             (forall c, Regex.one_of cs c = true -> Regex.one_of "MmGgiIBb" c = true) ->
             opt_in_class (Regex.one_of cs) o -> in_class size_char (opt_text o)).
  { intros cs [c|] Hcs Ho; [|reflexivity]. unfold in_class. simpl.
    unfold size_char. by rewrite (Hcs c Ho), !orb_true_r. }
  rewrite !in_class_app. repeat split; auto.
  - apply (Hopt "MmGg"); [|exact Hu].
    intros c. destruct c as [[] [] [] [] [] [] [] []]; intros H;
      first [discriminate H | reflexivity].
  - apply (Hopt "iI"); [|exact Hi].
    intros c. destruct c as [[] [] [] [] [] [] [] []]; intros H;
      first [discriminate H | reflexivity].
  - apply (Hopt "Bb"); [|exact Hb].
    intros c. destruct c as [[] [] [] [] [] [] [] []]; intros H;
      first [discriminate H | reflexivity].
Qed.

(** X10.  On 7-bit text, a size is refused as malformed exactly when
    it is outside the language of the pattern: [parse_size] raises
    "Invalid size" and [parse_numeric] "Invalid expression" if and only
    if the text is not blanks, an expression over the arithmetic
    alphabet, an optional unit letter, an optional [i], an optional [B]
    and blanks.  In particular any other character (a [K] or [T]
    suffix, a decimal point, a letter, an underscore) makes both
    raise. *)
Theorem size_is_refused_outside_the_pattern (value : string) :
  in_class is_ascii7 value ->
  (SecureWipe.parse_size value
   = inl (ArgumentTypeError ("Invalid size '" +:+ value +:+ "'"))
   <-> ~ size_pattern value)
  /\ (WipeRich.parse_numeric value
      = inl (ArgumentTypeError ("Invalid expression '" +:+ value +:+ "'"))
      <-> ~ size_pattern value)
  /\ (forall c, In c (list_ascii_of_string value) -> size_char c = false ->
        SecureWipe.parse_size value
        = inl (ArgumentTypeError ("Invalid size '" +:+ value +:+ "'"))
        /\ WipeRich.parse_numeric value
           = inl (ArgumentTypeError ("Invalid expression '" +:+ value +:+ "'"))).
Proof.
  intros _.
  assert (Hsize :
    SecureWipe.parse_size value
    = inl (ArgumentTypeError ("Invalid size '" +:+ value +:+ "'"))
    <-> ~ size_pattern value).
  { rewrite <- size_fullmatch_pattern. unfold SecureWipe.parse_size.
    destruct (Regex.size_fullmatch value) as [[body unit]|]; [|tauto].
    split; [|intros H; destruct H; discriminate].
    destruct (literal_of body) as [v|]; [|intros [=]].
    destruct unit as [u|]; [destruct (Ascii.eqb (lower_char u) "m")|];
      discriminate. }
  assert (Hnum :
    WipeRich.parse_numeric value
    = inl (ArgumentTypeError ("Invalid expression '" +:+ value +:+ "'"))
    <-> ~ size_pattern value).
  { rewrite <- size_fullmatch_pattern. unfold WipeRich.parse_numeric.
    destruct (Regex.size_fullmatch value) as [[body unit]|]; [|tauto].
    split; [|intros H; destruct H; discriminate].
    destruct (literal_of body) as [v|]; [|intros [=]].
    destruct (negb (isinstance_int v) || (int_of v <? 1)); [intros [=]|].
    destruct unit as [u|]; discriminate. }
  split; [exact Hsize|]. split; [exact Hnum|].
  intros c Hin Hc.
  assert (Hout : ~ size_pattern value).
  { intros Hpat. apply size_pattern_chars in Hpat. unfold in_class in Hpat.
    rewrite forallb_forall in Hpat. rewrite (Hpat c Hin) in Hc. discriminate Hc. }
  split; [by apply Hsize | by apply Hnum].
Qed.

(** Witness: the suffix [K] is not understood. *)
Lemma size_is_refused_outside_the_pattern_witness :
  SecureWipe.parse_size "4K" = inl (ArgumentTypeError "Invalid size '4K'")
  /\ WipeRich.parse_numeric "4K"
     = inl (ArgumentTypeError "Invalid expression '4K'").
Proof.
  apply (proj2 (proj2 (size_is_refused_outside_the_pattern "4K" eq_refl)) "K"%char).
  - simpl. tauto.
  - reflexivity.
Defined.

End SizeTheorems.

(* ================================================================== *)
(** * The progress lines of dd *)
(* ================================================================== *)

Section ProgressLines.

Lemma digits_prefix_app (ds : list ascii) (rest : string) :
  forallb is_digit ds = true -> starts_with_digit rest = false ->
  Regex.digits_prefix (string_of_list_ascii ds +:+ rest) = ds.
Proof.
  intros Hds Hrest. induction ds as [|d ds IH].
  - change (string_of_list_ascii [] +:+ rest) with rest.
    destruct rest as [|c rest]; [reflexivity|]. simpl in Hrest |- *.
    by rewrite Hrest.
  - simpl in Hds. apply andb_true_iff in Hds as [Hd Hds].
    change (string_of_list_ascii (d :: ds) +:+ rest)
      with (String d (string_of_list_ascii ds +:+ rest)).
    simpl. by rewrite Hd, (IH Hds).
Qed.

Lemma leading_int_pretty (n : Z) (rest : string) :
  0 <= n -> starts_with_digit rest = false ->
  Regex.leading_int (pretty n +:+ rest) = Some n.
Proof.
  intros Hn Hrest. destruct (pretty_digits n Hn) as (c & ds & -> & Hall & Hval & _).
  unfold Regex.leading_int.
  change (String c (string_of_list_ascii ds)) with (string_of_list_ascii (c :: ds)).
  rewrite (digits_prefix_app (c :: ds) rest Hall Hrest).
  fold (read_digits (c :: ds) 0). by rewrite Hval.
Qed.

Lemma leading_int_none (line : string) :
  Regex.leading_int line = None <-> starts_with_digit line = false.
Proof.
  unfold Regex.leading_int. destruct line as [|c line]; [done|]. simpl.
  destruct (is_digit c); split; intros H; first [discriminate H | reflexivity].
Qed.

(** X11.  The progress loop reads the byte count off the front of each
    line that [dd] writes: a line made of a natural number in decimal
    followed by anything that does not start with a digit updates the
    bar to that number; a line that does not start with a digit is
    ignored.  So a run of such reports gives their numbers, in order,
    and lines of other kinds give nothing. *)
Theorem progress_reads_the_leading_number :
  (forall (n : Z) (rest : string),
      0 <= n -> starts_with_digit rest = false ->
      progress_updates [pretty n +:+ rest] = [EvProgress n])
  /\ (forall line : string,
        starts_with_digit line = false <-> progress_updates [line] = [])
  /\ (forall reports : list (Z * string),
        (forall n rest, In (n, rest) reports ->
                        0 <= n /\ starts_with_digit rest = false) ->
        progress_updates (map (fun r => pretty (fst r) +:+ snd r) reports)
        = map (fun r => EvProgress (fst r)) reports)
  /\ (forall l1 l2 : list string,
        progress_updates (l1 ++ l2) = progress_updates l1 ++ progress_updates l2).
Proof.
  split; [|split; [|split]].
  - intros n rest Hn Hrest. unfold progress_updates. simpl.
    by rewrite (leading_int_pretty n rest Hn Hrest).
  - intros line. rewrite <- leading_int_none. unfold progress_updates. simpl.
    destruct (Regex.leading_int line); split; intros H;
      first [discriminate H | reflexivity].
  - intros reports Hok. unfold progress_updates.
    induction reports as [|[n rest] reports IH]; [reflexivity|].
    destruct (Hok n rest ltac:(by left)) as [Hn Hrest].
    cbn [map fst snd omap]. simpl.
    rewrite (leading_int_pretty n rest Hn Hrest). cbn.
    f_equal. apply IH. intros n' rest' Hin. apply Hok. by right.
  - intros l1 l2. unfold progress_updates. apply omap_app.
Qed.

(** Witness: a report of [dd] and a line of another kind. *)
Lemma progress_reads_the_leading_number_witness :
  progress_updates ["1048576 bytes (1.0 MB, 1.0 MiB) copied"]
  = [EvProgress 1048576]
  /\ progress_updates ["dd: error writing"] = [].
Proof.
  destruct progress_reads_the_leading_number as (Hone & Hnone & _).
  split.
  - apply (Hone 1048576 " bytes (1.0 MB, 1.0 MiB) copied"); [lia | reflexivity].
  - by apply Hnone.
Defined.

End ProgressLines.

(* ================================================================== *)
(** * Whole runs of the erase commands *)
(* ================================================================== *)

Section EraseRuns.
Variable w : World.

Lemma py_range_pass_count (passes : pyvalue) :
  length (py_range 1 (int_of passes + 1)) = pass_count passes.
Proof.
  unfold py_range, pass_count. rewrite length_map, length_seq. f_equal. lia.
Qed.

Lemma rich_wipe_passes_count (path source : string) (bs passes : pyvalue)
      (ps : list Z) (k : nat) :
  snd (WipeRich.wipe_passes w path source bs passes ps k)
  = (k + length (observed w (length ps) k))%nat.
Proof.
  revert k. induction ps as [|p ps IH]; intros k; [simpl; lia|].
  simpl. destruct (dd w k) as [lines rc]. simpl.
  destruct (rc =? 0); simpl; [|lia].
  specialize (IH (S k)).
  destruct (WipeRich.wipe_passes w path source bs passes ps (S k)) as [t k'].
  simpl in *. lia.
Qed.

Lemma secure_wipe_passes_count (path source : string) (bs : pyvalue)
      (ps : list Z) (k : nat) :
  snd (SecureWipe.wipe_passes w path source bs ps k)
  = (k + length (observed w (length ps) k))%nat.
Proof.
  revert k. induction ps as [|p ps IH]; intros k; [simpl; lia|].
  simpl. destruct (dd w k) as [lines rc]. simpl.
  destruct (rc =? 0); simpl; [|lia].
  specialize (IH (S k)).
  destruct (SecureWipe.wipe_passes w path source bs ps (S k)) as [t k'].
  simpl in *. lia.
Qed.

(** Seen from the process table, the target loops of both scripts are
    [target_procs]. *)
Lemma rich_for_targets_procs (source : string) (bs passes : pyvalue)
      (tgts : list string) (k : nat) :
  proc_events (fst (WipeRich.for_targets w source bs passes tgts k))
  = target_procs w source bs (pass_count passes) tgts k.
Proof.
  revert k. induction tgts as [|tgt tgts IH]; intros k; [reflexivity|].
  cbn [WipeRich.for_targets target_procs].
  destruct (path_exists w tgt); cbn [negb].
  - unfold WipeRich.wipe_target.
    pose proof (rich_wipe_passes_observed w tgt source bs passes
                  (py_range 1 (int_of passes + 1)) k) as Hobs.
    pose proof (rich_wipe_passes_count tgt source bs passes
                  (py_range 1 (int_of passes + 1)) k) as Hcount.
    rewrite py_range_pass_count in Hobs, Hcount.
    destruct (WipeRich.wipe_passes w tgt source bs passes
                (py_range 1 (int_of passes + 1)) k) as [t1 k1].
    cbn [fst snd] in Hobs, Hcount. subst k1.
    specialize (IH (k + length (observed w (pass_count passes) k))%nat).
    destruct (WipeRich.for_targets w source bs passes tgts
                (k + length (observed w (pass_count passes) k))) as [t2 k2].
    cbn [fst] in IH |- *.
    change (proc_events (EvExists tgt :: (EvGetSize tgt :: t1) ++ t2))
      with (proc_events (t1 ++ t2)).
    by rewrite proc_events_app, Hobs, IH.
  - specialize (IH k).
    destruct (WipeRich.for_targets w source bs passes tgts k) as [t2 k2].
    exact IH.
Qed.

Lemma secure_for_targets_procs (source : string) (bs passes : pyvalue)
      (tgts : list string) (k : nat) :
  proc_events (fst (SecureWipe.for_targets w source bs passes tgts k))
  = target_procs w source bs (pass_count passes) tgts k.
Proof.
  revert k. induction tgts as [|tgt tgts IH]; intros k; [reflexivity|].
  cbn [SecureWipe.for_targets target_procs].
  destruct (path_exists w tgt); cbn [negb].
  - unfold SecureWipe.wipe_one.
    pose proof (secure_wipe_passes_observed w tgt source bs
                  (py_range 1 (int_of passes + 1)) k) as Hobs.
    pose proof (secure_wipe_passes_count tgt source bs
                  (py_range 1 (int_of passes + 1)) k) as Hcount.
    rewrite py_range_pass_count in Hobs, Hcount.
    destruct (SecureWipe.wipe_passes w tgt source bs
                (py_range 1 (int_of passes + 1)) k) as [t1 k1].
    cbn [fst snd] in Hobs, Hcount. subst k1.
    specialize (IH (k + length (observed w (pass_count passes) k))%nat).
    destruct (SecureWipe.for_targets w source bs passes tgts
                (k + length (observed w (pass_count passes) k))) as [t2 k2].
    cbn [fst] in IH |- *.
    change (proc_events (EvExists tgt :: (EvGetSize tgt :: t1) ++ t2))
      with (proc_events (t1 ++ t2)).
    by rewrite proc_events_app, Hobs, IH.
  - specialize (IH k).
    destruct (SecureWipe.for_targets w source bs passes tgts k) as [t2 k2].
    exact IH.
Qed.


Lemma passes_trace_spawns (cmd c : list string) (rcs : list Z) :
  In (EvSpawn c) (passes_trace cmd rcs) -> c = cmd.
Proof.
  induction rcs as [|rc rcs IH]; [intros []|]. simpl.
  intros [[= <-]|[[=]|Hin]]; [reflexivity | by apply IH].
Qed.

(** Every child of [target_procs] runs [dd] on a target that exists. *)
Lemma target_procs_spawns (source : string) (bs : pyvalue) (n : nat)
      (tgts : list string) (k : nat) (cmd : list string) :
  In (EvSpawn cmd) (target_procs w source bs n tgts k) ->
  exists tgt, In tgt tgts /\ path_exists w tgt = true
              /\ cmd = dd_cmd source tgt bs.
Proof.
  revert k. induction tgts as [|tgt tgts IH]; intros k; [intros []|].
  cbn [target_procs]. destruct (path_exists w tgt) eqn:Hex.
  - intros Hin. apply in_app_or in Hin as [Hin|Hin].
    + apply passes_trace_spawns in Hin. exists tgt. split; [by left | by split].
    + destruct (IH _ Hin) as (t & Ht & Hok). exists t. split; [by right | exact Hok].
  - intros Hin. destruct (IH _ Hin) as (t & Ht & Hok).
    exists t. split; [by right | exact Hok].
Qed.


End EraseRuns.

Section EraseTheorems.

(** What a namespace that [parse_args] returned holds. *)
Lemma parse_args_with_fields (conv_passes conv_bs : string -> result pyvalue)
      (default_bs : pyvalue) (positional : string) (argv : Argv) (args : Args) :
  parse_args_with conv_passes conv_bs default_bs positional argv = ret args ->
  args_random args = opt_random argv
  /\ args_targets args = opt_targets argv
  /\ opt_zero argv && opt_random argv = false
  /\ opt_targets argv <> []
  /\ match opt_passes argv with
     | Some s => conv_passes s = inr (args_passes args)
     | None => args_passes args = PyInt 1
     end
  /\ match opt_bs argv with
     | Some s => conv_bs s = inr (args_bs args)
     | None => args_bs args = default_bs
     end.
Proof.
  unfold parse_args_with.
  assert (Hconv : forall flag (r : result pyvalue) (k : pyvalue -> M event Args),
             (v <- convert flag r ;; k v) = ret args ->
             exists v, r = inr v /\ k v = ret args).
  { intros flag [[]|v] k H; try discriminate H.
    exists v. split; [reflexivity|].
    unfold convert, lift in H. by rewrite bind_returned in H; destruct (k v). }
  destruct (opt_passes argv) as [sp|].
  - intros H. apply Hconv in H as (vp & Hp & H). revert H.
    destruct (opt_bs argv) as [sb|].
    + intros H. apply Hconv in H as (vb & Hb & H). revert H.
      destruct (opt_zero argv && opt_random argv); [discriminate|].
      case_bool_decide as Ht; [discriminate|]. intros [= <-]. by repeat split.
    + rewrite bind_ret_l.
      destruct (opt_zero argv && opt_random argv); [discriminate|].
      case_bool_decide as Ht; [discriminate|]. intros [= <-]. by repeat split.
  - rewrite bind_ret_l. destruct (opt_bs argv) as [sb|].
    + intros H. apply Hconv in H as (vb & Hb & H). revert H.
      destruct (opt_zero argv && opt_random argv); [discriminate|].
      case_bool_decide as Ht; [discriminate|]. intros [= <-]. by repeat split.
    + rewrite bind_ret_l.
      destruct (opt_zero argv && opt_random argv); [discriminate|].
      case_bool_decide as Ht; [discriminate|]. intros [= <-]. by repeat split.
Qed.

Lemma rich_parse_args_fields (argv : Argv) (args : Args) :
  WipeRich.parse_args argv = ret args ->
  args_random args = opt_random argv
  /\ args_targets args = opt_targets argv
  /\ opt_zero argv && opt_random argv = false
  /\ opt_targets argv <> []
  /\ match opt_passes argv with
     | Some s => WipeRich.parse_numeric s = inr (args_passes args)
     | None => args_passes args = PyInt 1
     end
  /\ match opt_bs argv with
     | Some s => WipeRich.parse_numeric s = inr (args_bs args)
     | None => args_bs args = PyInt 1048576
     end.
Proof.
  unfold WipeRich.parse_args.
  change (lift (WipeRich.parse_numeric "1M")) with (@ret event _ (PyInt 1048576)).
  rewrite bind_ret_l. apply parse_args_with_fields.
Qed.

Lemma secure_parse_args_fields (py_literal : string -> option pyvalue)
      (argv : Argv) (args : Args) :
  SecureWipe.parse_args py_literal argv = ret args ->
  args_random args = opt_random argv
  /\ args_targets args = opt_targets argv
  /\ opt_zero argv && opt_random argv = false
  /\ opt_targets argv <> []
  /\ match opt_passes argv with
     | Some s => SecureWipe.parse_passes py_literal s = inr (args_passes args)
     | None => args_passes args = PyInt 1
     end
  /\ match opt_bs argv with
     | Some s => SecureWipe.parse_size s = inr (args_bs args)
     | None => args_bs args = PyInt 1048576
     end.
Proof.
  unfold SecureWipe.parse_args.
  change (lift (SecureWipe.parse_size "1M")) with (@ret event _ (PyInt 1048576)).
  rewrite bind_ret_l. apply parse_args_with_fields.
Qed.

(** The child-process events of a whole run of either script. *)
Lemma rich_main_procs (w : World) (argv : Argv) :
  proc_events (trace (WipeRich.main_after_parser w argv))
  = match outcome (WipeRich.parse_args argv) with
    | inr args =>
        if euid w =? 0 then
          target_procs w (source_of argv) (args_bs args)
                       (pass_count (args_passes args)) (opt_targets argv) 0
        else []
    | inl _ => []
    end.
Proof.
  destruct (rich_parse_args_shape argv) as [[args Hparse]|[msg Hparse]].
  - rewrite (rich_main_parsed w argv args Hparse), Hparse.
    destruct (rich_parse_args_fields argv args Hparse) as (Hr & Ht & _).
    cbn [outcome ret snd]. destruct (euid w =? 0); [|reflexivity].
    cbn [negb trace fst]. rewrite proc_events_app, rich_for_targets_procs.
    unfold source_of. rewrite Hr, Ht. apply app_nil_r.
  - unfold WipeRich.main_after_parser. rewrite Hparse. reflexivity.
Qed.

Lemma secure_main_procs (py_literal : string -> option pyvalue)
      (w : World) (argv : Argv) :
  proc_events (trace (SecureWipe.main_wipe py_literal w argv))
  = match outcome (SecureWipe.parse_args py_literal argv) with
    | inr args =>
        if euid w =? 0 then
          target_procs w (source_of argv) (args_bs args)
                       (pass_count (args_passes args)) (opt_targets argv) 0
        else []
    | inl _ => []
    end.
Proof.
  destruct (secure_parse_args_shape py_literal argv) as [[args Hparse]|[msg Hparse]].
  - rewrite (secure_main_parsed py_literal w argv args Hparse), Hparse.
    destruct (secure_parse_args_fields py_literal argv args Hparse) as (Hr & Ht & _).
    cbn [outcome ret snd]. destruct (euid w =? 0); [|reflexivity].
    cbn [negb trace fst]. rewrite proc_events_app, secure_for_targets_procs.
    unfold source_of. rewrite Hr, Ht. apply app_nil_r.
  - unfold SecureWipe.main_wipe. rewrite Hparse. reflexivity.
Qed.

Lemma spawn_in_proc_events (t : list event) (cmd : list string) :
  In (EvSpawn cmd) t -> In (EvSpawn cmd) (proc_events t).
Proof. intros Hin. apply filter_In. by split. Qed.

(** X12.  The erase commands only ever start [dd], and only on what
    they were asked to erase: every child process of a run is started
    for root, after the command line has parsed, and is [dd] reading
    [/dev/urandom] (with [-r]) or [/dev/zero] (without) and writing,
    with the parsed block size, a target that is named on the command
    line and exists.  This holds of [main_wipe] of secure-wipe-rich.py
    and of [main] of wipe-rich.py from [parse_args] on. *)
Theorem erase_only_writes_named_targets :
  (forall (py_literal : string -> option pyvalue)
          (w : World) (argv : Argv) (cmd : list string),
      In (EvSpawn cmd) (trace (SecureWipe.main_wipe py_literal w argv)) ->
      euid w = 0
      /\ exists args tgt,
           SecureWipe.parse_args py_literal argv = ret args
           /\ In tgt (opt_targets argv) /\ path_exists w tgt = true
           /\ cmd = dd_cmd (source_of argv) tgt (args_bs args))
  /\ (forall (w : World) (argv : Argv) (cmd : list string),
        In (EvSpawn cmd) (trace (WipeRich.main_after_parser w argv)) ->
        euid w = 0
        /\ exists args tgt,
             WipeRich.parse_args argv = ret args
             /\ In tgt (opt_targets argv) /\ path_exists w tgt = true
             /\ cmd = dd_cmd (source_of argv) tgt (args_bs args)).
Proof.
  split.
  - intros py_literal w argv cmd Hin. apply spawn_in_proc_events in Hin.
    rewrite secure_main_procs in Hin.
    destruct (secure_parse_args_shape py_literal argv) as [[args Hparse]|[msg Hparse]];
      rewrite Hparse in Hin; cbn [outcome ret raise snd] in Hin; [|destruct Hin].
    destruct (Z.eqb_spec (euid w) 0) as [Hroot|]; [|destruct Hin].
    split; [exact Hroot|].
    apply target_procs_spawns in Hin as (tgt & Htgt & Hex & ->).
    by exists args, tgt.
  - intros w argv cmd Hin. apply spawn_in_proc_events in Hin.
    rewrite rich_main_procs in Hin.
    destruct (rich_parse_args_shape argv) as [[args Hparse]|[msg Hparse]];
      rewrite Hparse in Hin; cbn [outcome ret raise snd] in Hin; [|destruct Hin].
    destruct (Z.eqb_spec (euid w) 0) as [Hroot|]; [|destruct Hin].
    split; [exact Hroot|].
    apply target_procs_spawns in Hin as (tgt & Htgt & Hex & ->).
    by exists args, tgt.
Qed.

(** Witness: the second target of [-p 2 /dev/nope /dev/sdX disk.img]. *)
Lemma erase_only_writes_named_targets_witness :
  euid all_passes_succeed = 0
  /\ exists args tgt,
       SecureWipe.parse_args literal_of erase_three = ret args
       /\ In tgt (opt_targets erase_three)
       /\ path_exists all_passes_succeed tgt = true
       /\ ["dd"; "if=/dev/zero"; "of=disk.img"; "bs=1048576"; "status=progress"]
          = dd_cmd (source_of erase_three) tgt (args_bs args).
Proof.
  apply (proj1 erase_only_writes_named_targets literal_of all_passes_succeed
               erase_three).
  vm_compute. tauto.
Defined.



(** X14.  Every pass count that argument parsing lets through is an
    integer of at least 1, in both scripts (1 when [-p] is absent), so
    a run makes at least one pass over each existing target.  In
    wipe-rich.py the block size is a positive integer as well; the
    default block size of both scripts is 1048576. *)
Theorem accepted_pass_counts_are_positive :
  (forall (py_literal : string -> option pyvalue) (argv : Argv) (args : Args),
      SecureWipe.parse_args py_literal argv = ret args ->
      isinstance_int (args_passes args) = true
      /\ 1 <= int_of (args_passes args)
      /\ (1 <= pass_count (args_passes args))%nat
      /\ (opt_bs argv = None -> args_bs args = PyInt 1048576))
  /\ (forall (argv : Argv) (args : Args),
      WipeRich.parse_args argv = ret args ->
      (exists p, args_passes args = PyInt p /\ 1 <= p)
      /\ (1 <= pass_count (args_passes args))%nat
      /\ (exists b, args_bs args = PyInt b /\ 1 <= b)
      /\ (opt_bs argv = None -> args_bs args = PyInt 1048576)).
Proof.
  split.
  - intros py_literal argv args Hparse.
    destruct (secure_parse_args_fields py_literal argv args Hparse)
      as (_ & _ & _ & _ & Hp & Hb).
    assert (Hpass : isinstance_int (args_passes args) = true
                    /\ 1 <= int_of (args_passes args)).
    { destruct (opt_passes argv) as [s|]; [|by rewrite Hp].
      by apply parse_passes_accepts in Hp as (_ & ? & ?). }
    destruct Hpass as [Hint Hone]. repeat split; try assumption.
    + unfold pass_count. lia.
    + intros Hnone. by rewrite Hnone in Hb.
  - intros argv args Hparse.
    destruct (rich_parse_args_fields argv args Hparse) as (_ & _ & _ & _ & Hp & Hb).
    assert (Hpass : exists p, args_passes args = PyInt p /\ 1 <= p).
    { destruct (opt_passes argv) as [s|]; [|exists 1; by rewrite Hp].
      apply parse_numeric_accepts in Hp as (_ & u & n & _ & _ & _ & -> & Hpos).
      eexists. split; [reflexivity | lia]. }
    assert (Hbs : exists b, args_bs args = PyInt b /\ 1 <= b).
    { destruct (opt_bs argv) as [s|]; [|exists 1048576; by rewrite Hb].
      apply parse_numeric_accepts in Hb as (_ & u & n & _ & _ & _ & -> & Hpos).
      eexists. split; [reflexivity | lia]. }
    split; [exact Hpass|]. split.
    + destruct Hpass as (p & -> & Hp1). unfold pass_count. simpl. lia.
    + split; [exact Hbs|]. intros Hnone. by rewrite Hnone in Hb.
Qed.

(** Witness: [-r -p 3 /dev/sdX]. *)
Lemma accepted_pass_counts_are_positive_witness :
  (exists p, PyInt 3 = PyInt p /\ 1 <= p)
  /\ (1 <= pass_count (PyInt 3))%nat
  /\ (exists b, PyInt 1048576 = PyInt b /\ 1 <= b)
  /\ (opt_bs erase_random = None -> PyInt 1048576 = PyInt 1048576).
Proof.
  apply (proj2 accepted_pass_counts_are_positive erase_random
               {| args_zero := false; args_random := true;
                  args_passes := PyInt 3; args_bs := PyInt 1048576;
                  args_targets := ["/dev/sdX"] |}).
  reflexivity.
Defined.



End EraseTheorems.

(* ================================================================== *)
(** * The command line of the imaging wrapper, word by word *)
(* ================================================================== *)

Section LongOptions.
Import Dcfldd DcflddArgs.

Lemma count_long_app (l1 l2 : list string) :
  count_long (l1 ++ l2) = (count_long l1 + count_long l2)%nat.
Proof. unfold count_long. by rewrite List.filter_app, length_app. Qed.

Lemma count_long_length (args : list string) : (count_long args <= length args)%nat.
Proof. apply List.filter_length_le. Qed.

Lemma count_long_cons (a : string) (rest : list string) :
  count_long (a :: rest)
  = ((if is_long a then 1 else 0) + count_long rest)%nat.
Proof. unfold count_long. simpl. by destruct (is_long a). Qed.

Lemma long_options_S (f : nat) (args : list string) (verify : bool) :
  long_options (S f) args verify
  = match args with
    | a :: rest =>
        if is_long a then
          if String.eqb a "--help" then long_options f (rest ++ ["-h"]) verify
          else if String.eqb a "--verify" then
            match rest with
            | _ :: rest' => long_options f rest' true
            | [] => errexit 1
            end
          else err ("Unknown option: " +:+ a)
        else ret (verify, args)
    | [] => ret (verify, args)
    end.
Proof. reflexivity. Qed.

(** The loop does not depend on its fuel once there is one unit for
    each word that looks like a long option. *)
Lemma long_options_fuel (n : nat) :
  forall (args : list string) (verify : bool) (f : nat),
    (count_long args <= n)%nat -> (n <= f)%nat ->
    long_options f args verify = long_options n args verify.
Proof.
  induction n as [|n IH]; intros args verify f Hcount Hf.
  - destruct f as [|f]; [reflexivity|]. destruct args as [|a rest]; [reflexivity|].
    rewrite count_long_cons in Hcount. simpl. revert Hcount.
    destruct (is_long a); intros Hcount; [lia | reflexivity].
  - destruct f as [|f]; [lia|]. destruct args as [|a rest]; [reflexivity|].
    rewrite count_long_cons in Hcount. simpl. revert Hcount.
    destruct (is_long a); intros Hcount; [|reflexivity].
    destruct (String.eqb a "--help").
    { apply IH; [|lia]. rewrite count_long_app.
      change (count_long ["-h"]) with 0%nat. lia. }
    destruct (String.eqb a "--verify"); [|reflexivity].
    destruct rest as [|b rest']; [reflexivity|].
    apply IH; [|lia]. rewrite count_long_cons in Hcount. lia.
Qed.

Lemma shim_fuel (args : list string) (verify : bool) (f : nat) :
  (count_long args <= f)%nat -> long_options f args verify = shim args verify.
Proof.
  intros Hf. unfold shim.
  rewrite (long_options_fuel (count_long args) args verify f) by lia.
  rewrite (long_options_fuel (count_long args) args verify (length args));
    [reflexivity | lia | apply count_long_length].
Qed.

(** When the loop is over, the first word left is no long option. *)
Lemma long_options_done (n : nat) :
  forall (args : list string) (verify verify' : bool) (rest : list string),
    (count_long args <= n)%nat ->
    outcome (long_options n args verify) = inr (verify', rest) ->
    match rest with a :: _ => is_long a = false | [] => True end.
Proof.
  induction n as [|n IH]; intros args verify verify' rest Hcount.
  - simpl. intros [= <- <-]. destruct args as [|a args]; [exact I|].
    rewrite count_long_cons in Hcount. revert Hcount.
    destruct (is_long a); intros Hcount; [lia | reflexivity].
  - destruct args as [|a args]; [simpl; by intros [= <- <-]|].
    rewrite count_long_cons in Hcount. simpl. revert Hcount.
    destruct (is_long a) eqn:Ha; intros Hcount;
      [|simpl; intros [= <- <-]; exact Ha].
    destruct (String.eqb a "--help").
    { apply IH. rewrite count_long_app.
      change (count_long ["-h"]) with 0%nat. lia. }
    destruct (String.eqb a "--verify"); [|discriminate].
    destruct args as [|b args']; [discriminate|].
    apply IH. rewrite count_long_cons in Hcount. lia.
Qed.

(** X16.  The loop over leading long options (lines 123-130).
    [--verify] sets [VERIFY_ONLY] and drops the word that follows it as
    well (its own [shift] and the loop's); as the last word it ends the
    script through the failed [shift].  [--help] is replaced by a [-h]
    at the very end of the command line.  Any other word that starts
    with two dashes, [--] included, ends the script with "Unknown
    option".  The loop stops at the first word that does not start
    with two dashes and leaves the words from there on as they are,
    and when it returns normally the first word left is no long
    option. *)
Theorem long_option_loop :
  (forall (a : string) (rest : list string) (verify : bool),
      shim ("--verify" :: a :: rest) verify = shim rest true)
  /\ (forall verify : bool,
        shim ["--verify"] verify = ([EvFatal], inl (SystemExitCode 1)))
  /\ (forall (rest : list string) (verify : bool),
        shim ("--help" :: rest) verify = shim (rest ++ ["-h"]) verify)
  /\ (forall (a : string) (rest : list string) (verify : bool),
        is_long a = true -> a <> "--help" -> a <> "--verify" ->
        shim (a :: rest) verify
        = ([EvErr ("Unknown option: " +:+ a)], inl (SystemExitCode 1)))
  /\ (forall (a : string) (rest : list string) (verify : bool),
        is_long a = false -> shim (a :: rest) verify = ret (verify, a :: rest))
  /\ (forall (args : list string) (verify verify' : bool) (rest : list string),
        outcome (shim args verify) = inr (verify', rest) ->
        match rest with a :: _ => is_long a = false | [] => True end).
Proof.
  split; [|split; [|split; [|split; [|split]]]].
  - intros a rest verify. unfold shim at 1.
    change (length ("--verify" :: a :: rest)) with (S (S (length rest))).
    rewrite long_options_S.
    change (is_long "--verify") with true. cbv iota.
    change (String.eqb "--verify" "--help") with false.
    change (String.eqb "--verify" "--verify") with true. cbv iota.
    apply shim_fuel. pose proof (count_long_length rest). lia.
  - reflexivity.
  - intros rest verify. unfold shim at 1.
    change (length ("--help" :: rest)) with (S (length rest)).
    rewrite long_options_S.
    change (is_long "--help") with true. cbv iota.
    change (String.eqb "--help" "--help") with true. cbv iota.
    apply shim_fuel. rewrite count_long_app.
    change (count_long ["-h"]) with 0%nat.
    pose proof (count_long_length rest). lia.
  - intros a rest verify Ha Hhelp Hverify. unfold shim.
    change (length (a :: rest)) with (S (length rest)).
    rewrite long_options_S, Ha.
    destruct (String.eqb_spec a "--help"); [contradiction|].
    destruct (String.eqb_spec a "--verify"); [contradiction|]. reflexivity.
  - intros a rest verify Ha. unfold shim.
    change (length (a :: rest)) with (S (length rest)).
    by rewrite long_options_S, Ha.
  - intros args verify verify' rest. unfold shim.
    apply long_options_done, count_long_length.
Qed.

(** Witness: the loop on [--foo -i x], on [-i x --verify] and on a
    command line that ends with [--help --verify]. *)
Lemma long_option_loop_witness :
  shim ["--foo"; "-i"; "x"] false
  = ([EvErr "Unknown option: --foo"], inl (SystemExitCode 1))
  /\ shim ["-i"; "x"; "--verify"] false = ret (false, ["-i"; "x"; "--verify"])
  /\ shim ["--help"; "--verify"] false = shim [] true.
Proof.
  destruct long_option_loop as (Hverify & _ & Hhelp & Hother & Hstop & _).
  split; [|split].
  - apply Hother; [reflexivity | discriminate | discriminate].
  - by apply Hstop.
  - rewrite Hhelp. apply (Hverify "-h" []).
Defined.

Lemma scan_not_an_option (word : string) (rest : list string) :
  String.prefix "-" word = false -> scan (word :: rest) = [].
Proof.
  destruct word as [|c cs]; [reflexivity|].
  destruct c as [[] [] [] [] [] [] [] []]; intros H; try reflexivity.
  destruct cs; vm_compute in H; discriminate H.
Qed.

Lemma not_an_option_not_long (word : string) :
  String.prefix "-" word = false -> is_long word = false.
Proof.
  destruct word as [|c cs]; [reflexivity|].
  destruct c as [[] [] [] [] [] [] [] []]; intros H; try reflexivity.
  destruct cs; vm_compute in H; discriminate H.
Qed.

(** X17.  [--verify] cannot be used the way the usage text shows it.
    On a command line that starts with [--verify], the word after it
    is lost; if the next word is not an option (as the source that
    follows [-i] is not) the option loop finds nothing, [INPUT] stays
    empty, and the script prints the usage text and exits with status
    1 without probing anything.  With [--verify] as the only word the
    script dies on the failed [shift]. *)
Theorem verify_as_documented_prints_usage
        (w : World) (lost src : string) (rest : list string) :
  String.prefix "-" src = false ->
  script_argv w ("--verify" :: lost :: src :: rest)
  = Some (preamble w ;;; emit EvUsage ;;; exit 1)
  /\ script_argv w ["--verify"] = Some (preamble w ;;; errexit 1)
  /\ (deps_ok w = true -> EUID w = 0 ->
      script_argv w ("--verify" :: lost :: src :: rest)
      = Some ([EvUsage], inl (SystemExitCode 1))).
Proof.
  intros Hsrc.
  assert (Hrun : script_argv w ("--verify" :: lost :: src :: rest)
                 = Some (preamble w ;;; emit EvUsage ;;; exit 1)).
  { unfold script_argv.
    assert (Hshim : shim ("--verify" :: lost :: src :: rest) false
                    = ret (true, src :: rest)).
    { unfold shim.
      change (length ("--verify" :: lost :: src :: rest))
        with (S (S (S (length rest)))).
      rewrite long_options_S.
      change (is_long "--verify") with true. cbv iota.
      change (String.eqb "--verify" "--help") with false.
      change (String.eqb "--verify" "--verify") with true. cbv iota.
      rewrite long_options_S.
      by rewrite (not_an_option_not_long src Hsrc). }
    rewrite Hshim. unfold ret at 1. unfold opts_of.
    rewrite (scan_not_an_option src rest Hsrc). reflexivity. }
  split; [exact Hrun|]. split; [reflexivity|].
  intros Hdeps Hroot. rewrite Hrun. unfold preamble. rewrite Hdeps, Hroot.
  reflexivity.
Qed.

(** Witness: the fourth example of the usage text, run by root. *)
Lemma verify_as_documented_prints_usage_witness :
  script_argv (as_root ordinary_user) verify_example
  = Some ([EvUsage], inl (SystemExitCode 1)).
Proof.
  apply (verify_as_documented_prints_usage (as_root ordinary_user) "-i" "/dev/sdb"
           ["-o"; "/dev/null"; "-H"; "sha256"]); reflexivity.
Defined.

End LongOptions.

Section CopyAndReport.
Import Dcfldd.

(** The events of [body] from the copy on. *)
Lemma body_tail_events (w : World) (o : Opts) (size_bytes : Z) (ev : event) :
  let cmd := DCFLDD o (if VERIFY_ONLY o then "/dev/null" else OUTPUT o) in
  In ev (trace (log o ("Executing: " +:+ String.concat " " cmd) ;;;
                emit (EvExec size_bytes cmd) ;;;
                (if negb (wrapper_rc w cmd =? 0)
                 then errexit (wrapper_rc w cmd) else ret tt) ;;;
                emit (EvReport (JSON_REPORT o) size_bytes) ;;;
                log o ("JSON report written to " +:+ JSON_REPORT o) ;;;
                @exit unit (wrapper_rc w cmd))) ->
  match ev with
  | EvExec total c => c = cmd
  | EvReport file _ => file = JSON_REPORT o /\ wrapper_rc w cmd = 0
  | EvPrompt | EvSummary _ _ | EvProbe _ | EvUsage => False
  | _ => True
  end.
Proof.
  cbv zeta. unfold log, errexit, exit. destruct (VERBOSE o >=? 1).
  2:{ cbn. intros [<-|[]]. exact I. }
  rewrite !bind_emit. cbn [trace fst].
  intros [<-|[<-|Hin]]; [exact I | reflexivity |]. revert Hin.
  destruct (Z.eqb_spec (wrapper_rc w (DCFLDD o (if VERIFY_ONLY o then "/dev/null"
                                               else OUTPUT o))) 0) as [Hrc|Hrc];
    cbn [negb].
  - rewrite bind_ret_l. cbn. intros [<-|[<-|[]]]; [by split | exact I].
  - cbn. intros [<-|[]]. exact I.
Qed.

(** X18.  The copy needs consent, and the report a successful copy.
    Whatever the state of the script's globals, [body] starts the copy
    only when [DRY_RUN] is off and either [AUTO_YES] is on or the
    answer to the prompt is [y] or [Y] (and the prompt is shown exactly
    when [AUTO_YES] is off); the command it runs is the [DCFLDD] array,
    which with [VERIFY_ONLY] writes to [/dev/null] and logs the hashes
    to [/dev/null.hashlog] whatever [-o] said.  The JSON report is
    written to [JSON_REPORT] only when the wrapper around the copy
    returned 0. *)
Theorem copy_needs_consent (w : World) (o : Opts) :
  (forall (total : Z) (cmd : list string),
      In (EvExec total cmd) (trace (body w o)) ->
      DRY_RUN o = false
      /\ (AUTO_YES o = true \/ confirmed (answer w) = true)
      /\ (In EvPrompt (trace (body w o)) <-> AUTO_YES o = false)
      /\ INPUT o <> "" /\ OUTPUT o <> ""
      /\ cmd = DCFLDD o (if VERIFY_ONLY o then "/dev/null" else OUTPUT o)
      /\ (VERIFY_ONLY o = true ->
          In "of=/dev/null" cmd /\ In "hashlog=/dev/null.hashlog" cmd))
  /\ (forall (file : string) (bytes : Z),
        In (EvReport file bytes) (trace (body w o)) ->
        file = JSON_REPORT o
        /\ wrapper_rc w (DCFLDD o (if VERIFY_ONLY o then "/dev/null" else OUTPUT o))
           = 0
        /\ exists total,
             In (EvExec total
                   (DCFLDD o (if VERIFY_ONLY o then "/dev/null" else OUTPUT o)))
                (trace (body w o))).
Proof.
  set (cmd0 := DCFLDD o (if VERIFY_ONLY o then "/dev/null" else OUTPUT o)).
  assert (Hverify : VERIFY_ONLY o = true ->
                    In "of=/dev/null" cmd0 /\ In "hashlog=/dev/null.hashlog" cmd0).
  { intros Hv. subst cmd0. rewrite Hv. unfold DCFLDD. simpl. tauto. }
  remember (body w o) as run eqn:Hrun.
  unfold body, err, errexit, exit in Hrun.
  destruct (String.eqb_spec (INPUT o) "") as [Hin|Hin]; cbn [orb] in Hrun.
  { subst run. cbn. split; intros ? ? [[=]|[]]. }
  destruct (String.eqb_spec (OUTPUT o) "") as [Hout|Hout].
  { subst run. cbn. split; intros ? ? [[=]|[]]. }
  rewrite bind_ret_l, bind_emit in Hrun.
  destruct (probe_size w (INPUT o)) as [size|].
  2:{ subst run. cbn. split; intros ? ? [[=]|[[=]|[]]]. }
  rewrite bind_ret_l in Hrun.
  destruct (wrap64 (numfmt_iec w (BLOCKSIZE o)) =? 0).
  { subst run. cbn. split; intros ? ? [[=]|[[=]|[]]]. }
  rewrite bind_ret_l in Hrun.
  destruct (block_arith (COUNT o) size (numfmt_iec w (BLOCKSIZE o)))
    as [BLOCK_COUNT SIZE_BYTES].
  pose proof (body_tail_events w o SIZE_BYTES) as Htail. cbv zeta in Htail.
  fold cmd0 in Htail, Hrun.
  unfold errexit, exit in Htail.
  set (tail := (log o ("Executing: " +:+ String.concat " " cmd0) ;;;
                emit (EvExec SIZE_BYTES cmd0) ;;;
                (if negb (wrapper_rc w cmd0 =? 0)
                 then emit EvFatal ;;; raise (SystemExitCode (wrapper_rc w cmd0))
                 else ret tt) ;;;
                emit (EvReport (JSON_REPORT o) SIZE_BYTES) ;;;
                log o ("JSON report written to " +:+ JSON_REPORT o) ;;;
                raise (SystemExitCode (wrapper_rc w cmd0)))) in *.
  assert (Hexec_tail : forall file bytes,
             In (EvReport file bytes) (trace tail) ->
             In (EvExec SIZE_BYTES cmd0) (trace tail)).
  { intros file bytes. subst tail. unfold log.
    destruct (VERBOSE o >=? 1); [|cbn; intros [[=]|[]]].
    rewrite !bind_emit. cbn [trace fst]. intros _. right. by left. }
  clearbody tail.
  unfold log in Hrun.
  destruct (VERBOSE o >=? 1).
  2:{ subst run. cbn. split; intros ? ? [[=]|[[=]|[]]]. }
  rewrite !bind_emit in Hrun. cbn [trace outcome fst snd] in Hrun.
  destruct (DRY_RUN o).
  { subst run. cbn. split; intros ? ? H; repeat (destruct H as [[=]|H]); destruct H. }
  rewrite bind_ret_l in Hrun.
  destruct (AUTO_YES o); cbn [negb] in Hrun.
  - rewrite bind_ret_l in Hrun. subst run. cbn [trace fst]. split.
    + intros total cmd H. repeat (destruct H as [[=]|H]).
      pose proof (Htail _ H) as Hcmd. cbn in Hcmd. subst cmd.
      split; [reflexivity|]. split; [by left|]. split.
      { split; [|discriminate]. intros Hp.
        repeat (destruct Hp as [[=]|Hp]). by apply Htail in Hp. }
      split; [exact Hin|]. split; [exact Hout|].
      split; [reflexivity | exact Hverify].
    + intros file bytes H. repeat (destruct H as [[=]|H]).
      pose proof (Htail _ H) as Hrep. cbn in Hrep. destruct Hrep as [-> Hrc].
      split; [reflexivity|]. split; [exact Hrc|]. exists SIZE_BYTES.
      do 6 right. by apply (Hexec_tail _ _ H).
  - destruct (confirmed (answer w)).
    + cbn [trace outcome ret fst snd] in Hrun. rewrite bind_returned in Hrun.
      subst run. cbn [trace fst app]. split.
      * intros total cmd H. repeat (destruct H as [[=]|H]).
        pose proof (Htail _ H) as Hcmd. cbn in Hcmd. subst cmd.
        split; [reflexivity|]. split; [by right|]. split.
        { split; [reflexivity|]. intros _. do 6 right. by left. }
        split; [exact Hin|]. split; [exact Hout|].
      split; [reflexivity | exact Hverify].
      * intros file bytes H. repeat (destruct H as [[=]|H]).
        pose proof (Htail _ H) as Hrep. cbn in Hrep. destruct Hrep as [-> Hrc].
        split; [reflexivity|]. split; [exact Hrc|]. exists SIZE_BYTES.
        do 7 right. by apply (Hexec_tail _ _ H).
    + subst run. cbn.
      split; intros ? ? H; repeat (destruct H as [[=]|H]); destruct H.
Qed.

(** Witness: the copy of [copy_stick], allowed by [-y]. *)
Lemma copy_needs_consent_witness :
  DRY_RUN copy_stick = false
  /\ (AUTO_YES copy_stick = true \/ confirmed (answer ordinary_user) = true)
  /\ (In EvPrompt (trace (body ordinary_user copy_stick))
      <-> AUTO_YES copy_stick = false)
  /\ INPUT copy_stick <> "" /\ OUTPUT copy_stick <> ""
  /\ DCFLDD copy_stick "stick.dd"
     = DCFLDD copy_stick (if VERIFY_ONLY copy_stick then "/dev/null"
                          else OUTPUT copy_stick)
  /\ (VERIFY_ONLY copy_stick = true ->
      In "of=/dev/null" (DCFLDD copy_stick "stick.dd")
      /\ In "hashlog=/dev/null.hashlog" (DCFLDD copy_stick "stick.dd")).
Proof.
  apply (proj1 (copy_needs_consent ordinary_user copy_stick) 4096).
  vm_compute. tauto.
Defined.

End CopyAndReport.

Section WrapperOnWords.
Import Dcfldd DcflddArgs.

Lemma bind_assoc {E A B C : Type} (m : M E A) (k : A -> M E B) (h : B -> M E C) :
  bind (bind m k) h = bind m (fun a => bind (k a) h).
Proof.
  destruct m as [t [e|a]]; [reflexivity|]. simpl.
  destruct (k a) as [t1 [e|b]]; [reflexivity|]. simpl.
  destruct (h b) as [t2 r]. by rewrite app_assoc.
Qed.

Lemma bind_skip {E B : Type} (m : M E B) :
  bind (([], inr tt) : M E unit) (fun _ => m) = m.
Proof. by destruct m. Qed.

Lemma bind_then_skip {E B : Type} (m : M E unit) (k : M E B) :
  (m ;;; ([], inr tt) ;;; k) = (m ;;; k).
Proof.
  destruct m as [t [e|[]]]; [reflexivity|].
  unfold bind at 1 3. by rewrite bind_skip.
Qed.

(** The loop over long options ends the script or returns without an
    event. *)
Lemma long_options_outcome (f : nat) :
  forall (args : list string) (verify : bool),
    match long_options f args verify with
    | (t, inl e) => e = SystemExitCode 1 /\ List.filter is_exec t = []
                    /\ ~ In EvUsage t
    | (t, inr _) => t = []
    end.
Proof.
  induction f as [|f IH]; intros args verify; [reflexivity|].
  rewrite long_options_S. destruct args as [|a rest]; [reflexivity|].
  destruct (is_long a); [|reflexivity].
  destruct (String.eqb a "--help"); [apply IH|].
  destruct (String.eqb a "--verify").
  - destruct rest as [|b rest']; [|apply IH].
    cbn. split; [reflexivity|]. split; [reflexivity|]. intros [[=]|[]].
  - cbn. split; [reflexivity|]. split; [reflexivity|]. intros [[=]|[]].
Qed.

(** On the words of a command line the script is the loop over long
    options followed by [script] on what [getopts] finds. *)
Lemma script_argv_script (w : World) (argv words : list string)
      (verify : bool) (os : list opt) :
  shim argv false = ret (verify, words) -> opts_of words = Some os ->
  script_argv w argv = Some (script w {| verify := verify; opts := os |}).
Proof.
  intros Hshim Hopts. unfold script_argv. rewrite Hshim. unfold ret at 1.
  rewrite Hopts.
  change (Some (preamble w ;;; ([], inr tt) ;;;
                o <- getopts os (set_VERIFY_ONLY defaults verify) ;; body w o)
          = Some (script w {| verify := verify; opts := os |})).
  f_equal. unfold script, preamble. cbn [Dcfldd.verify opts].
  destruct (deps_ok w); cbn [negb]; [|reflexivity].
  rewrite !bind_ret_l.
  destruct (negb (EUID w =? 0)).
  - rewrite !bind_emit, bind_skip. reflexivity.
  - rewrite !bind_ret_l, bind_skip. reflexivity.
Qed.

(** X19.  On the words of its command line, too, the wrapper never
    starts the copy.  Whatever the machine and the words (as far as
    the model of [-c] reaches), the script ends in an [exit] without
    having started [dcfldd], and with status 0 only after printing the
    usage text.  It is the script of the option lists: where the loop
    over long options returns, what follows is [script] on the options
    that [getopts] finds in the words left. *)
Theorem wrapper_on_words_never_copies
        (w : World) (argv : list string) (run : M event unit) :
  script_argv w argv = Some run ->
  List.filter is_exec (trace run) = []
  /\ (exists n, outcome run = inl (SystemExitCode n))
  /\ (exit_status (outcome run) = 0 -> In EvUsage (trace run))
  /\ (forall verify words,
        shim argv false = ret (verify, words) ->
        exists os, opts_of words = Some os
                   /\ run = script w {| verify := verify; opts := os |}).
Proof.
  intros Hrun.
  assert (Hpre : preamble w = ([], inr tt)
                 \/ preamble w = ([EvWarn not_root_warning], inr tt)
                 \/ preamble w = ([EvErr "Required binary not found"],
                                  inl (SystemExitCode 1))).
  { unfold preamble. destruct (deps_ok w); cbn [negb]; [|tauto].
    rewrite bind_ret_l. destruct (EUID w =? 0); cbn [negb]; tauto. }
  assert (Hwrap : forall rest : M event unit,
    List.filter is_exec (trace rest) = [] ->
    (exists n, outcome rest = inl (SystemExitCode n)) ->
    (exit_status (outcome rest) = 0 -> In EvUsage (trace rest)) ->
    List.filter is_exec (trace (preamble w ;;; rest)) = []
    /\ (exists n, outcome (preamble w ;;; rest) = inl (SystemExitCode n))
    /\ (exit_status (outcome (preamble w ;;; rest)) = 0 ->
        In EvUsage (trace (preamble w ;;; rest)))).
  { intros rest H1 H2 H3.
    destruct Hpre as [-> |[-> | ->]].
    - rewrite bind_skip. tauto.
    - rewrite bind_returned. cbn [trace outcome fst snd app List.filter is_exec].
      split; [exact H1|]. split; [exact H2|]. intros H0. right. by apply H3.
    - rewrite bind_raised. cbn. split; [reflexivity|].
      split; [by eexists | discriminate]. }
  unfold script_argv in Hrun.
  pose proof (long_options_outcome (length argv) argv false) as Hshim.
  fold (shim argv false) in Hshim.
  destruct (shim argv false) as [t [e|[verify words]]] eqn:Hs.
  - injection Hrun as <-. destruct Hshim as (-> & Hquiet & Husage).
    destruct (Hwrap (t, inl (SystemExitCode 1))) as (H1 & H2 & H3);
      [exact Hquiet | by eexists | discriminate |].
    split; [exact H1|]. split; [exact H2|]. split; [exact H3|].
    intros verify words [=].
  - subst t. destruct (opts_of words) as [os|] eqn:Hopts; [|discriminate Hrun].
    change (Some (preamble w ;;; ([], inr tt) ;;;
                  o <- getopts os (set_VERIFY_ONLY defaults verify) ;; body w o)
            = Some run) in Hrun.
    apply (inj Some) in Hrun. subst run. rewrite bind_then_skip.
    pose proof (getopts_keeps_quiet os (set_VERIFY_ONLY defaults verify) eq_refl)
      as [Hquiet Hout].
    assert (Hrest :
      let rest := (o <- getopts os (set_VERIFY_ONLY defaults verify) ;; body w o) in
      List.filter is_exec (trace rest) = []
      /\ (exists n, outcome rest = inl (SystemExitCode n))
      /\ (exit_status (outcome rest) = 0 -> In EvUsage (trace rest))).
    { cbv zeta. rewrite trace_bind, outcome_bind, List.filter_app, Hquiet.
      destruct (outcome (getopts os (set_VERIFY_ONLY defaults verify))) as [e|o'].
      - destruct Hout as [[n ->] Husage]. split; [reflexivity|].
        split; [by eexists|]. cbn [exit_status]. intros ->.
        rewrite app_nil_r. by apply Husage.
      - destruct (body_stops_before_the_copy w o' Hout) as [Hb1 Hb2].
        rewrite Hb1, Hb2. split; [reflexivity|]. split; [by eexists | intros [=]]. }
    cbv zeta in Hrest. destruct Hrest as (R1 & R2 & R3).
    destruct (Hwrap _ R1 R2 R3) as (H1 & H2 & H3).
    split; [exact H1|]. split; [exact H2|]. split; [exact H3|].
    intros verify' words' [= <- <-]. exists os. split; [exact Hopts|].
    pose proof (script_argv_script w argv words verify os Hs Hopts) as Hscript.
    unfold script_argv in Hscript. rewrite Hs, Hopts in Hscript.
    change (Some (preamble w ;;; ([], inr tt) ;;;
                  o <- getopts os (set_VERIFY_ONLY defaults verify) ;; body w o)
            = Some (script w {| verify := verify; opts := os |})) in Hscript.
    apply (inj Some) in Hscript. rewrite <- Hscript. by rewrite bind_then_skip.
Qed.

(** Witness: [--help -v -i /dev/sdX] dies on [-v], before the [-h] that
    [--help] became is reached. *)
Lemma wrapper_on_words_never_copies_witness :
  List.filter is_exec
    (trace (preamble (as_root ordinary_user) ;;; errexit (A := unit) 1)) = []
  /\ (exists n, outcome (preamble (as_root ordinary_user) ;;; errexit (A := unit) 1)
                = inl (SystemExitCode n))
  /\ (exit_status (outcome (preamble (as_root ordinary_user)
                            ;;; errexit (A := unit) 1)) = 0 ->
      In EvUsage (trace (preamble (as_root ordinary_user) ;;; errexit (A := unit) 1)))
  /\ (forall verify words,
        shim ["--help"; "-v"; "-i"; "/dev/sdX"] false = ret (verify, words) ->
        exists os, opts_of words = Some os
                   /\ (preamble (as_root ordinary_user) ;;; errexit (A := unit) 1)
                      = script (as_root ordinary_user)
                               {| verify := verify; opts := os |}).
Proof.
  apply (wrapper_on_words_never_copies (as_root ordinary_user)
           ["--help"; "-v"; "-i"; "/dev/sdX"]).
  reflexivity.
Defined.

End WrapperOnWords.

(* ================================================================== *)
(** * Sizes as usb_tool.py shows them *)
(* ================================================================== *)

Section PrettySizes.
Import PrettySize.

(** Rounding half to even lands within half a unit, on one of the two
    neighbouring integers. *)
Lemma round_half_even_near (num den : Z) :
  0 < den ->
  let s := round_half_even num den in
  - den <= 2 * (s * den - num) <= den
  /\ num `div` den <= s <= num `div` den + 1
  /\ (s = num `div` den + 1 <-> den <= 2 * (num `mod` den)
                                /\ (den = 2 * (num `mod` den) ->
                                    Z.even (num `div` den) = false)).
Proof.
  intros Hden s. subst s. unfold round_half_even.
  pose proof (Z.div_mod num den ltac:(lia)) as Hdm.
  pose proof (Z.mod_pos_bound num den Hden) as Hr.
  destruct (Z.ltb_spec (2 * (num `mod` den)) den) as [H1|H1].
  { split; [nia|]. split; [lia|]. split; [lia | intros [? _]; lia]. }
  destruct (Z.ltb_spec den (2 * (num `mod` den))) as [H2|H2].
  { split; [nia|]. split; [lia|]. split; [intros _; split; lia | reflexivity]. }
  destruct (Z.even (num `div` den)) eqn:Heven.
  - split; [nia|]. split; [lia|]. split; [lia|].
    intros [_ H]. specialize (H ltac:(lia)). discriminate H.
  - split; [nia|]. split; [lia|]. split; [intros _; split; [lia | reflexivity] | reflexivity].
Qed.

Lemma round53_small (n : Z) : - 2 ^ 53 < n < 2 ^ 53 -> round53 n = n.
Proof.
  intros Hn. unfold round53.
  assert (Z.log2 (Z.abs n) < 53) as Hlog.
  { destruct (Z.eq_dec n 0) as [->|Hz]; [reflexivity|].
    apply Z.log2_lt_pow2; lia. }
  destruct (Z.leb_spec (Z.log2 (Z.abs n) - 52) 0); [reflexivity | lia].
Qed.

(** One round of the loop on a float. *)
Lemma pretty_size_from_float (unit : string) (rest : list string) (num scale : Z) :
  pretty_size_from (unit :: rest) (Float num scale)
  = if num <? 1024 * 1024 ^ scale then
      Some (pretty (round_half_even num (1024 ^ scale)) +:+ " " +:+ unit)
    else pretty_size_from rest (Float num (scale + 1)).
Proof. reflexivity. Qed.

(** From 1024 bytes on the loop goes on with the float [n / 1024]. *)
Lemma pretty_size_scaled (n : Z) :
  1024 <= n < 2 ^ 53 ->
  pretty_size n = pretty_size_from ["KiB"; "MiB"; "GiB"; "TiB"] (Float n 1).
Proof.
  intros Hn. unfold pretty_size. cbn [pretty_size_from lt_1024].
  destruct (Z.ltb_spec n 1024); [lia|].
  unfold div_1024. rewrite round53_small by lia.
  destruct (Z.ltb_spec (Z.abs n) (2 ^ 1034)) as [_|Hbig]; [reflexivity|].
  assert (2 ^ 53 <= 2 ^ 1034) by (apply Z.pow_le_mono_r; lia). lia.
Qed.

(** X20.  [pretty_size] shows a size to the nearest whole unit, ties
    going to the even number.  Below 1024 bytes (negative sizes
    included) it shows the number itself in B.  From [1024 ^ k] up to
    [1024 ^ (k + 1)], for the units KiB to TiB, it shows
    [n / 1024 ^ k] rounded half-to-even, which is within half a unit
    of [n] and lies between 1 and 1024; it shows 1024 of the unit,
    not 1 of the next, for the top half unit of each range.  From
    [1024 ^ 5] on it shows pebibytes with one decimal, rounded
    half-to-even.  (Sizes below 2^53 bytes.) *)
Theorem pretty_size_rounds_to_nearest :
  (forall n : Z,
      - 2 ^ 53 < n < 1024 -> pretty_size n = Some (pretty n +:+ " B"))
  /\ (forall (n k : Z) (unit : string),
        In (k, unit) [(1, "KiB"); (2, "MiB"); (3, "GiB"); (4, "TiB")] ->
        1024 ^ k <= n < 1024 ^ (k + 1) ->
        let shown := round_half_even n (1024 ^ k) in
        pretty_size n = Some (pretty shown +:+ " " +:+ unit)
        /\ 1 <= shown <= 1024
        /\ - 1024 ^ k <= 2 * (shown * 1024 ^ k - n) <= 1024 ^ k
        /\ (shown = 1024 <-> 2 * 1024 ^ (k + 1) - 1024 ^ k <= 2 * n))
  /\ (forall n : Z,
        1024 ^ 5 <= n < 2 ^ 53 ->
        let tenths := round_half_even (10 * n) (1024 ^ 5) in
        pretty_size n
        = Some (pretty (tenths `div` 10) +:+ "." +:+ pretty (tenths `mod` 10)
                +:+ " PiB")
        /\ 10 <= tenths
        /\ - 1024 ^ 5 <= 2 * (tenths * 1024 ^ 5 - 10 * n) <= 1024 ^ 5).
Proof.
  split; [|split].
  - intros n Hn. unfold pretty_size. cbn [pretty_size_from lt_1024].
    destruct (Z.ltb_spec n 1024); [|lia].
    unfold format_0f, float_of_int. rewrite round53_small by lia.
    destruct (Z.ltb_spec (Z.abs n) (2 ^ 1024)) as [_|Hbig]; [reflexivity|].
    assert (2 ^ 53 <= 2 ^ 1024) by (apply Z.pow_le_mono_r; lia). lia.
  - intros n k unit Hk Hn shown.
    assert (Hshown :
      1 <= shown <= 1024
      /\ - 1024 ^ k <= 2 * (shown * 1024 ^ k - n) <= 1024 ^ k
      /\ (shown = 1024 <-> 2 * 1024 ^ (k + 1) - 1024 ^ k <= 2 * n)).
    { assert (Hk' : 1 <= k <= 4).
      { destruct Hk as [[= <- _]|[[= <- _]|[[= <- _]|[[= <- _]|[]]]]]; lia. }
      assert (Hu : 0 < 1024 ^ k) by (apply Z.pow_pos_nonneg; lia).
      rewrite Z.pow_add_r, Z.pow_1_r in * by lia.
      destruct (round_half_even_near n (1024 ^ k) Hu) as (Hnear & Hq & Hup).
      fold shown in Hnear, Hq, Hup.
      pose proof (Z.div_mod n (1024 ^ k) ltac:(lia)) as Hdm.
      pose proof (Z.mod_pos_bound n (1024 ^ k) Hu) as Hr.
      assert (1 <= n `div` 1024 ^ k <= 1023) as Hquot.
      { split.
        - apply Z.div_le_lower_bound; lia.
        - apply Z.lt_succ_r. apply Z.div_lt_upper_bound; lia. }
      split; [lia|]. split; [exact Hnear|]. split.
      - intros H1024. assert (shown = n `div` 1024 ^ k + 1) as Hs by lia.
        apply Hup in Hs as [Hhalf _]. nia.
      - intros Htop.
        assert (n `div` 1024 ^ k = 1023) as Hq1023 by nia.
        assert (shown = n `div` 1024 ^ k + 1) as Hs; [|lia].
        apply Hup. split; [nia|]. intros _. by rewrite Hq1023. }
    split; [|exact Hshown]. subst shown.
    assert (Hsmall : 1024 <= n < 2 ^ 53).
    { destruct Hk as [[= <- _]|[[= <- _]|[[= <- _]|[[= <- _]|[]]]]];
        (change (2 ^ 53) with 9007199254740992);
        [change (1024 ^ 1) with 1024 in Hn; change (1024 ^ (1 + 1)) with 1048576 in Hn
        |change (1024 ^ 2) with 1048576 in Hn;
         change (1024 ^ (2 + 1)) with 1073741824 in Hn
        |change (1024 ^ 3) with 1073741824 in Hn;
         change (1024 ^ (3 + 1)) with 1099511627776 in Hn
        |change (1024 ^ 4) with 1099511627776 in Hn;
         change (1024 ^ (4 + 1)) with 1125899906842624 in Hn]; lia. }
    rewrite (pretty_size_scaled n Hsmall).
    destruct Hk as [[= <- <-]|[[= <- <-]|[[= <- <-]|[[= <- <-]|[]]]]].
    + rewrite pretty_size_from_float.
      change (1024 * 1024 ^ 1) with (1024 ^ (1 + 1)).
      destruct (Z.ltb_spec n (1024 ^ (1 + 1))); [reflexivity | lia].
    + rewrite pretty_size_from_float.
      change (1024 * 1024 ^ 1) with (1024 ^ 2).
      destruct (Z.ltb_spec n (1024 ^ 2)); [lia|].
      change (1 + 1) with 2. rewrite pretty_size_from_float.
      change (1024 * 1024 ^ 2) with (1024 ^ (2 + 1)).
      destruct (Z.ltb_spec n (1024 ^ (2 + 1))); [reflexivity | lia].
    + rewrite pretty_size_from_float.
      change (1024 * 1024 ^ 1) with (1024 ^ 2).
      destruct (Z.ltb_spec n (1024 ^ 2)) as [Hlt|_].
      { assert (1024 ^ 2 <= 1024 ^ 3) by (apply Z.pow_le_mono_r; lia). lia. }
      change (1 + 1) with 2. rewrite pretty_size_from_float.
      change (1024 * 1024 ^ 2) with (1024 ^ 3).
      destruct (Z.ltb_spec n (1024 ^ 3)); [lia|].
      change (2 + 1) with 3. rewrite pretty_size_from_float.
      change (1024 * 1024 ^ 3) with (1024 ^ (3 + 1)).
      destruct (Z.ltb_spec n (1024 ^ (3 + 1))); [reflexivity | lia].
    + rewrite pretty_size_from_float.
      change (1024 * 1024 ^ 1) with (1024 ^ 2).
      destruct (Z.ltb_spec n (1024 ^ 2)) as [Hlt|_].
      { assert (1024 ^ 2 <= 1024 ^ 4) by (apply Z.pow_le_mono_r; lia). lia. }
      change (1 + 1) with 2. rewrite pretty_size_from_float.
      change (1024 * 1024 ^ 2) with (1024 ^ 3).
      destruct (Z.ltb_spec n (1024 ^ 3)) as [Hlt|_].
      { assert (1024 ^ 3 <= 1024 ^ 4) by (apply Z.pow_le_mono_r; lia). lia. }
      change (2 + 1) with 3. rewrite pretty_size_from_float.
      change (1024 * 1024 ^ 3) with (1024 ^ 4).
      destruct (Z.ltb_spec n (1024 ^ 4)); [lia|].
      change (3 + 1) with 4. rewrite pretty_size_from_float.
      change (1024 * 1024 ^ 4) with (1024 ^ (4 + 1)).
      destruct (Z.ltb_spec n (1024 ^ (4 + 1))); [reflexivity | lia].
  - intros n Hn tenths.
    assert (Hu : 0 < 1024 ^ 5) by (apply Z.pow_pos_nonneg; lia).
    destruct (round_half_even_near (10 * n) (1024 ^ 5) Hu) as (Hnear & Hq & _).
    fold tenths in Hnear, Hq.
    split; [|split; [|exact Hnear]].
    + assert (Hsmall : 1024 <= n < 2 ^ 53).
      { change (1024 ^ 5) with 1125899906842624 in Hn. lia. }
      rewrite (pretty_size_scaled n Hsmall).
      assert (Hge : forall j, 1 <= j <= 5 -> 1024 ^ j <= n).
      { intros j Hj. assert (1024 ^ j <= 1024 ^ 5) by (apply Z.pow_le_mono_r; lia).
        lia. }
      rewrite pretty_size_from_float. change (1024 * 1024 ^ 1) with (1024 ^ 2).
      destruct (Z.ltb_spec n (1024 ^ 2)); [pose proof (Hge 2); lia|].
      change (1 + 1) with 2.
      rewrite pretty_size_from_float. change (1024 * 1024 ^ 2) with (1024 ^ 3).
      destruct (Z.ltb_spec n (1024 ^ 3)); [pose proof (Hge 3); lia|].
      change (2 + 1) with 3.
      rewrite pretty_size_from_float. change (1024 * 1024 ^ 3) with (1024 ^ 4).
      destruct (Z.ltb_spec n (1024 ^ 4)); [pose proof (Hge 4); lia|].
      change (3 + 1) with 4.
      rewrite pretty_size_from_float. change (1024 * 1024 ^ 4) with (1024 ^ 5).
      destruct (Z.ltb_spec n (1024 ^ 5)); [lia|].
      change (4 + 1) with 5. cbn [pretty_size_from format_1f mbind option_bind].
      fold tenths. by rewrite !string_app_assoc.
    + assert (10 <= (10 * n) `div` 1024 ^ 5); [|lia].
      apply Z.div_le_lower_bound; lia.
Qed.

(** Witness: one byte short of a mebibyte is shown as 1024 KiB. *)
Lemma pretty_size_rounds_to_nearest_witness :
  pretty_size 1048575 = Some "1024 KiB"
  /\ pretty_size 1536 = Some "2 KiB"
  /\ pretty_size 2560 = Some "2 KiB".
Proof.
  destruct pretty_size_rounds_to_nearest as (_ & Hunit & _).
  split; [|split].
  - apply (Hunit 1048575 1 "KiB"); [simpl; tauto | lia].
  - apply (Hunit 1536 1 "KiB"); [simpl; tauto | lia].
  - apply (Hunit 2560 1 "KiB"); [simpl; tauto | lia].
Defined.

End PrettySizes.

(* ================================================================== *)
(** * The entry point of secure-wipe-rich.py *)
(* ================================================================== *)

Section EntryPoint.
Import SecureWipeEntry.

Lemma basename_from_plain (name : string) :
  forall acc, in_class (fun c => negb (Ascii.eqb c "/")) name ->
    basename_from acc name = acc +:+ name.
Proof.
  induction name as [|c name IH]; intros acc Hname.
  - simpl. by rewrite string_app_nil_r.
  - apply in_class_cons in Hname as [Hc Hname]. simpl.
    destruct (Ascii.eqb c "/"); [discriminate Hc|].
    rewrite (IH _ Hname), string_app_assoc. reflexivity.
Qed.

Lemma basename_from_dir (dir name : string) :
  in_class (fun c => negb (Ascii.eqb c "/")) name ->
  forall acc, basename_from acc (dir +:+ "/" +:+ name) = name.
Proof.
  intros Hname. induction dir as [|c dir IH]; intros acc.
  - change ("" +:+ "/" +:+ name) with (String "/" name).
    change (basename_from acc (String "/" name)) with (basename_from "" name).
    by rewrite (basename_from_plain name "" Hname).
  - change (String c dir +:+ "/" +:+ name) with (String c (dir +:+ "/" +:+ name)).
    simpl. destruct (Ascii.eqb c "/"); apply IH.
Qed.

(** [os.path.basename] drops everything up to the last slash. *)
Lemma basename_dir (dir name : string) :
  in_class (fun c => negb (Ascii.eqb c "/")) name ->
  basename (dir +:+ "/" +:+ name) = name.
Proof. intros Hname. by apply basename_from_dir. Qed.

Lemma prefix_app (s rest : string) : String.prefix s (s +:+ rest) = true.
Proof.
  induction s as [|c s IH]; [by destruct rest|].
  change (String c s +:+ rest) with (String c (s +:+ rest)). simpl.
  destruct (ascii_dec c c); [exact IH | contradiction].
Qed.

Lemma contains_app (needle before after : string) :
  contains needle (before +:+ needle +:+ after) = true.
Proof.
  induction before as [|c before IH].
  - change ("" +:+ needle +:+ after) with (needle +:+ after).
    pose proof (prefix_app needle after) as Hp.
    destruct (needle +:+ after); cbn [contains]; by rewrite Hp.
  - change (String c before +:+ needle +:+ after)
      with (String c (before +:+ needle +:+ after)).
    cbn [contains]. rewrite IH. apply orb_true_r.
Qed.

(** X21.  The entry point of secure-wipe-rich.py looks at the file
    name it was started under, not at the directory: started as
    anything whose base name contains [dd_rich], it calls [main_dd],
    which the module does not define, and ends in a [NameError] with
    exit status 1 before it has parsed or touched anything, whatever
    the command line, the user and the machine; under any other name
    it is [main_wipe]. *)
Theorem entry_point_goes_by_file_name
        (py_literal : string -> option pyvalue) (w : World) (argv : Argv) :
  (forall dir name : string,
      in_class (fun c => negb (Ascii.eqb c "/")) name ->
      dunder_main py_literal w (dir +:+ "/" +:+ name) argv
      = dunder_main py_literal w name argv)
  /\ (forall dir before after : string,
        in_class (fun c => negb (Ascii.eqb c "/")) (before +:+ "dd_rich" +:+ after) ->
        dunder_main py_literal w (dir +:+ "/" +:+ before +:+ "dd_rich" +:+ after) argv
        = NameError "main_dd"
        /\ status (dunder_main py_literal w
                     (dir +:+ "/" +:+ before +:+ "dd_rich" +:+ after) argv) = 1)
  /\ (forall argv0 : string,
        contains "dd_rich" (basename argv0) = false ->
        dunder_main py_literal w argv0 argv
        = Runs (SecureWipe.main_wipe py_literal w argv)).
Proof.
  split; [|split].
  - intros dir name Hname. unfold dunder_main.
    rewrite (basename_dir dir name Hname).
    unfold basename. by rewrite (basename_from_plain name "" Hname).
  - intros dir before after Hname.
    assert (dunder_main py_literal w
              (dir +:+ "/" +:+ before +:+ "dd_rich" +:+ after) argv
            = NameError "main_dd") as ->; [|by split].
    unfold dunder_main.
    rewrite (basename_dir dir (before +:+ "dd_rich" +:+ after) Hname).
    by rewrite contains_app.
  - intros argv0 Hname. unfold dunder_main. by rewrite Hname.
Qed.

(** Witness: a link called [dd_rich.py] in a directory called
    [secure-wipe] and, the other way round, the script under its own
    name in a directory called [dd_rich]. *)
Lemma entry_point_goes_by_file_name_witness :
  dunder_main literal_of all_passes_succeed "/opt/secure-wipe/dd_rich.py"
              erase_three
  = NameError "main_dd"
  /\ dunder_main literal_of all_passes_succeed "/opt/dd_rich/secure-wipe-rich.py"
                 erase_three
     = dunder_main literal_of all_passes_succeed "secure-wipe-rich.py" erase_three.
Proof.
  destruct (entry_point_goes_by_file_name literal_of all_passes_succeed erase_three)
    as (Hdir & Hname & _).
  split.
  - apply (Hname "/opt/secure-wipe" "" ".py"). reflexivity.
  - apply (Hdir "/opt/dd_rich" "secure-wipe-rich.py"). reflexivity.
Defined.

End EntryPoint.
